(** * Library lending system and online shop: a shallow embedding

    The two Python examples are modelled object by object.

    - [Biblioteca] embeds [Sistemagestionbliblioteca.py]: the classes [Libro]
      (with [LibroFisico] and [LibroDigital]) and [Usuario] (with [Estudiante]
      and [Profesor]).  Python objects are mutable and shared, so the model
      keeps one store per kind of object (books, users, list objects) indexed
      by references; a method is a computation of the state-and-exception
      monad [M] over that store.  [datetime.now()] reads a clock that belongs
      to the world.
    - [Tienda] embeds the class [Producto] of [Sistemadetiendaonline.py].

    Python [float]s are IEEE 754 binary64 numbers: they are modelled by
    Rocq's primitive floats, with the same operations and rounding.
    Console output ([print]) is not modelled. *)

From Stdlib Require Import ZArith Floats.
From Stdlib Require Import DecimalString.
From Stdlib Require DecimalN.
From stdpp Require Import base option list gmap strings.

Local Open Scope Z_scope.

(* ===================================================================== *)
(** * Binary64 numbers: what the proofs say of a float

    Statements about the specification [spec_float] of the primitive
    floats (the model of IEEE 754 of the Standard Library). *)
(* ===================================================================== *)

Module Binary64.

(** The result of [binary_round_aux] for a sign [sx], once the mantissa
    [m2] and the exponent [e2] have been rounded. *)
Definition redondeado (prec emax : Z) (sx : bool) (m2 e2 : Z) : spec_float :=
  match m2 with
  | Z0 => S754_zero sx
  | Zpos p => if e2 <=? emax - prec then S754_finite sx p e2 else S754_infinity sx
  | Zneg _ => S754_nan
  end.

(** A float that is not negative and is at least (at most) the finite
    float of mantissa [mx] and exponent [ex], as [SFcompare] sees it. *)
Definition ge_finito (r : spec_float) (mx : positive) (ex : Z) : Prop :=
  match r with
  | S754_finite false p e2 => ex < e2 ∨ (e2 = ex ∧ Zpos mx <= Zpos p)
  | S754_infinity false => True
  | _ => False
  end.

Definition le_finito (r : spec_float) (mx : positive) (ex : Z) : Prop :=
  match r with
  | S754_finite false p e2 => e2 < ex ∨ (e2 = ex ∧ Zpos p <= Zpos mx)
  | S754_zero false => True
  | _ => False
  end.

(** Zero, a positive finite float or plus infinity. *)
Definition no_negativo (x : spec_float) : bool :=
  match x with
  | S754_zero _ | S754_finite false _ _ | S754_infinity false => true
  | _ => false
  end.

(** Zero, a finite float or an infinity of sign [s]. *)
Definition con_signo (s : bool) (r : spec_float) : Prop :=
  match r with
  | S754_zero s' | S754_finite s' _ _ | S754_infinity s' => s' = s
  | S754_nan => False
  end.

(** Zero, of either sign, or a positive finite float that is at most the
    finite float of mantissa [mx] and exponent [ex]. *)
Definition entre_cero_y (r : spec_float) (mx : positive) (ex : Z) : Prop :=
  match r with
  | S754_zero _ => True
  | S754_finite false p e2 => e2 < ex ∨ (e2 = ex ∧ Zpos p <= Zpos mx)
  | _ => False
  end.

End Binary64.

(* ===================================================================== *)
(** * The library example *)
(* ===================================================================== *)

Module Biblioteca.

(** ** Python values *)

(** Object identity: a reference into one of the stores of [Mundo]. *)
Definition ref := positive.

(** A naive [datetime], counted in microseconds (its resolution). *)
Definition datetime := Z.

(** A [timedelta], in microseconds; [days] is its normalised day field,
    the floor of the duration in days (negative durations round down). *)
Definition timedelta := Z.

Definition days (d : timedelta) : Z := d / 86400000000.

(** [float(n)] for an [int]: the nearest binary64, ties to even.  (Python
    raises [OverflowError] past the range of a double; a day count is a
    [timedelta] field of at most nine digits and never gets there.) *)
Definition float_of_int (n : Z) : float :=
  SF2Prim (binary_normalize prec emax n 0 false).

(** [max(0, x)]: the first argument is kept unless the second is greater.
    The [int] [0] that Python then returns is the float [0.0] here: the two
    compare, add and subtract alike. *)
Definition max0 (x : float) : float :=
  if (0 <? x)%float then x else 0%float.

(** [l.remove(x)]: drops the first occurrence, [None] (a [ValueError]) when
    there is none. *)
Fixpoint remove (x : ref) (l : list ref) : option (list ref) :=
  match l with
  | [] => None
  | y :: l' => if decide (x = y) then Some l' else (y ::.) <$> remove x l'
  end.

(** ** class Libro *)

Inductive ClaseLibro := LibroFisico | LibroDigital.

Record Libro := mkLibro {
  clase_libro : ClaseLibro;
  _titulo : string;
  _autor : string;
  _isbn : string;
  _año_publicacion : Z;
  _disponible : bool;
  _fecha_prestamo : option datetime;
  _usuario_actual : option ref
}.

Definition calcular_dias_prestamo (self : Libro) : Z :=
  match clase_libro self with
  | LibroFisico => 14
  | LibroDigital => 7
  end.

(** Assignment of the three loan attributes [_disponible],
    [_fecha_prestamo] and [_usuario_actual]. *)
Definition set_prestamo (self : Libro) (disponible : bool)
    (fecha : option datetime) (usuario : option ref) : Libro :=
  mkLibro (clase_libro self) (_titulo self) (_autor self) (_isbn self)
          (_año_publicacion self) disponible fecha usuario.

Definition obtener_tipo (self : Libro) : string :=
  match clase_libro self with
  | LibroFisico => "Libro Físico"
  | LibroDigital => "Libro Digital"
  end.

(** ** class Usuario *)

Inductive ClaseUsuario := Estudiante | Profesor.

(** An entry of [_historial_prestamos]: a dict whose keys
    ['fecha_devolucion'] and ['dias_retraso'] are absent until the loan is
    closed. *)
Record Prestamo := mkPrestamo {
  libro_titulo : string;
  libro_isbn : string;
  fecha_prestamo : datetime;
  tipo_libro : string;
  devuelto : bool;
  fecha_devolucion : option datetime;
  dias_retraso : option Z
}.

Record Usuario := mkUsuario {
  clase_usuario : ClaseUsuario;
  _nombre : string;
  _identificacion : string;
  _email : string;
  _fecha_registro : datetime;
  _libros_prestados : ref;      (* the list object the user owns *)
  _historial_prestamos : list Prestamo;
  _multa_acumulada : float
}.

(** Assignment of [_historial_prestamos] and of [_multa_acumulada]. *)
Definition set_historial (self : Usuario) (historial : list Prestamo) : Usuario :=
  mkUsuario (clase_usuario self) (_nombre self) (_identificacion self) (_email self)
            (_fecha_registro self) (_libros_prestados self) historial
            (_multa_acumulada self).

Definition set_multa (self : Usuario) (multa : float) : Usuario :=
  mkUsuario (clase_usuario self) (_nombre self) (_identificacion self) (_email self)
            (_fecha_registro self) (_libros_prestados self)
            (_historial_prestamos self) multa.

Definition limite_prestamos (self : Usuario) : Z :=
  match clase_usuario self with
  | Estudiante => 3
  | Profesor => 10
  end.

Definition calcular_multa_por_dia (self : Usuario) : float :=
  match clase_usuario self with
  | Estudiante => 0.5%float
  | Profesor => 1%float
  end.

Definition obtener_tipo_usuario (self : Usuario) : string :=
  match clase_usuario self with
  | Estudiante => "Estudiante"
  | Profesor => "Profesor"
  end.

(** ** The world: stores and clock *)

Record Mundo := mkMundo {
  libros : gmap ref Libro;
  usuarios : gmap ref Usuario;
  listas : gmap ref (list ref);
  reloj : nat → datetime;       (* the successive readings of the clock *)
  lecturas : nat                (* how many readings were taken *)
}.

Definition con_libros (f : gmap ref Libro → gmap ref Libro) (w : Mundo) : Mundo :=
  mkMundo (f (libros w)) (usuarios w) (listas w) (reloj w) (lecturas w).

Definition con_usuarios (f : gmap ref Usuario → gmap ref Usuario) (w : Mundo) : Mundo :=
  mkMundo (libros w) (f (usuarios w)) (listas w) (reloj w) (lecturas w).

Definition con_listas (f : gmap ref (list ref) → gmap ref (list ref)) (w : Mundo) : Mundo :=
  mkMundo (libros w) (usuarios w) (f (listas w)) (reloj w) (lecturas w).

(** ** The monad of methods *)

Inductive Excepcion :=
  | TypeError
  | ValueError
  | ReferenciaInvalida.          (* no such object: not a Python state *)

Inductive Resultado (A : Type) :=
  | Ok (a : A)
  | Raise (e : Excepcion).
Arguments Ok {A} a.
Arguments Raise {A} e.

Definition M (A : Type) : Type := Mundo → Resultado (A * Mundo).

Definition ret {A} (a : A) : M A := fun w => Ok (a, w).

Definition bind {A B} (m : M A) (k : A → M B) : M B :=
  fun w => match m w with
           | Ok (a, w') => k a w'
           | Raise e => Raise e
           end.

Definition raise {A} (e : Excepcion) : M A := fun _ => Raise e.

Notation "x <- m ;; k" := (bind m (fun x => k))
  (at level 100, m at level 99, k at level 200, right associativity).
Notation "m ;;; k" := (bind m (fun _ => k))
  (at level 100, k at level 200, right associativity).

(** [datetime.now()]: the current reading of the clock, which moves on. *)
Definition ahora (w : Mundo) : datetime := reloj w (lecturas w).

Definition tras_lectura (w : Mundo) : Mundo :=
  mkMundo (libros w) (usuarios w) (listas w) (reloj w) (S (lecturas w)).

Definition now : M datetime := fun w => Ok (ahora w, tras_lectura w).

Definition leer_libro (r : ref) : M Libro :=
  fun w => match libros w !! r with
           | Some l => Ok (l, w)
           | None => Raise ReferenciaInvalida
           end.

Definition escribir_libro (r : ref) (l : Libro) : M unit :=
  fun w => Ok (tt, con_libros <[r := l]> w).

Definition leer_usuario (r : ref) : M Usuario :=
  fun w => match usuarios w !! r with
           | Some u => Ok (u, w)
           | None => Raise ReferenciaInvalida
           end.

Definition escribir_usuario (r : ref) (u : Usuario) : M unit :=
  fun w => Ok (tt, con_usuarios <[r := u]> w).

Definition leer_lista (r : ref) : M (list ref) :=
  fun w => match listas w !! r with
           | Some l => Ok (l, w)
           | None => Raise ReferenciaInvalida
           end.

Definition escribir_lista (r : ref) (l : list ref) : M unit :=
  fun w => Ok (tt, con_listas <[r := l]> w).

(** Allocation of a new object: a reference no object of the store has. *)
Definition nuevo_libro (l : Libro) : M ref :=
  fun w => let r := fresh (dom (libros w)) in Ok (r, con_libros <[r := l]> w).

Definition nuevo_usuario (u : Usuario) : M ref :=
  fun w => let r := fresh (dom (usuarios w)) in Ok (r, con_usuarios <[r := u]> w).

Definition nueva_lista (l : list ref) : M ref :=
  fun w => let r := fresh (dom (listas w)) in Ok (r, con_listas <[r := l]> w).

(** ** Methods of Libro *)

(** [Libro.__init__], reached through the constructor of either subclass. *)
Definition Libro_init (c : ClaseLibro) (titulo autor isbn : string)
    (año_publicacion : Z) : M ref :=
  nuevo_libro (mkLibro c titulo autor isbn año_publicacion true None None).

Definition prestar (self : ref) (usuario : ref) : M bool :=
  l <- leer_libro self ;;
  if _disponible l then
    t <- now ;;
    escribir_libro self (set_prestamo l false (Some t) (Some usuario)) ;;;
    ret true
  else ret false.

Definition devolver (self : ref) : M (Z * option ref) :=
  l <- leer_libro self ;;
  if negb (_disponible l) then
    t <- now ;;
    f <- match _fecha_prestamo l with
         | Some f => ret f
         | None => raise TypeError      (* datetime - None *)
         end ;;
    let dias_prestado := days (t - f) in
    let dias_limite := calcular_dias_prestamo l in
    let dias_retraso := Z.max 0 (dias_prestado - dias_limite) in
    let usuario_devolvio := _usuario_actual l in
    escribir_libro self (set_prestamo l true None None) ;;;
    ret (dias_retraso, usuario_devolvio)
  else ret (0, None).

(** ** Methods of Usuario *)

(** [Usuario.__init__], reached through the constructor of either subclass. *)
Definition Usuario_init (c : ClaseUsuario) (nombre identificacion email : string)
    : M ref :=
  t <- now ;;
  lista <- nueva_lista [] ;;
  nuevo_usuario (mkUsuario c nombre identificacion email t lista [] 0%float).

(** The property [libros_prestados]: [self._libros_prestados.copy()]. *)
Definition libros_prestados (self : ref) : M ref :=
  u <- leer_usuario self ;;
  l <- leer_lista (_libros_prestados u) ;;
  nueva_lista l.

(** The property [multa_acumulada]. *)
Definition multa_acumulada (self : ref) : M float :=
  u <- leer_usuario self ;;
  ret (_multa_acumulada u).

Definition puede_prestar (self : ref) : M bool :=
  u <- leer_usuario self ;;
  l <- leer_lista (_libros_prestados u) ;;
  let dentro_limite := Z.of_nat (length l) <? limite_prestamos u in
  let sin_multas := (_multa_acumulada u =? 0)%float in
  ret (dentro_limite && sin_multas).

Definition prestar_libro (self : ref) (libro : ref) : M bool :=
  puede <- puede_prestar self ;;
  if puede then
    prestado <- prestar libro self ;;
    if prestado then
      u <- leer_usuario self ;;
      l <- leer_lista (_libros_prestados u) ;;
      escribir_lista (_libros_prestados u) (l ++ [libro]) ;;;
      b <- leer_libro libro ;;
      t <- now ;;
      escribir_usuario self
        (set_historial u
           (_historial_prestamos u ++
              [mkPrestamo (_titulo b) (_isbn b) t (obtener_tipo b) false None None])) ;;;
      ret true
    else ret false
  else ret false.

(** Is this entry an open loan of the book [isbn]? *)
Definition abierto (isbn : string) (p : Prestamo) : bool :=
  bool_decide (libro_isbn p = isbn) && negb (devuelto p).

Definition cerrar (t : datetime) (dias : Z) (p : Prestamo) : Prestamo :=
  mkPrestamo (libro_titulo p) (libro_isbn p) (fecha_prestamo p) (tipo_libro p)
             true (Some t) (Some dias).

(** The loop [for prestamo in reversed(historial)]: the position, counted
    from the end, of the first open loan of [isbn] it meets. *)
Fixpoint buscar (isbn : string) (invertido : list Prestamo) : option nat :=
  match invertido with
  | [] => None
  | p :: resto => if abierto isbn p then Some 0%nat else S <$> buscar isbn resto
  end.

Definition actualizar_historial (isbn : string) (dias : Z)
    (historial : list Prestamo) : M (list Prestamo) :=
  match buscar isbn (reverse historial) with
  | Some i =>
      t <- now ;;
      ret (alter (cerrar t dias) (length historial - 1 - i)%nat historial)
  | None => ret historial
  end.

Definition devolver_libro (self : ref) (libro : ref) : M float :=
  u <- leer_usuario self ;;
  l <- leer_lista (_libros_prestados u) ;;
  if bool_decide (libro ∈ l) then
    resultado <- devolver libro ;;
    let dias_retraso := resultado.1 in
    l' <- match remove libro l with
          | Some l' => ret l'
          | None => raise ValueError
          end ;;
    escribir_lista (_libros_prestados u) l' ;;;
    b <- leer_libro libro ;;
    historial <- actualizar_historial (_isbn b) dias_retraso (_historial_prestamos u) ;;
    let u := set_historial u historial in
    if 0 <? dias_retraso then
      let multa := (float_of_int dias_retraso * calcular_multa_por_dia u)%float in
      escribir_usuario self (set_multa u (_multa_acumulada u + multa)%float) ;;;
      ret multa
    else
      escribir_usuario self u ;;;
      ret 0%float
  else ret 0%float.

Definition pagar_multa (self : ref) (cantidad : float) : M float :=
  u <- leer_usuario self ;;
  if (0 <? cantidad)%float then
    let restante := max0 (_multa_acumulada u - cantidad) in
    escribir_usuario self (set_multa u restante) ;;;
    ret restante
  else ret (_multa_acumulada u).

(** ** Calls and runs

    What client code can do with the two classes: construct objects and call
    their public methods and properties.  A run is a sequence of calls. *)

Inductive Llamada :=
  | CrearLibro (c : ClaseLibro) (titulo autor isbn : string) (año_publicacion : Z)
  | CrearUsuario (c : ClaseUsuario) (nombre identificacion email : string)
  | Prestar (libro usuario : ref)
  | Devolver (libro : ref)
  | PuedePrestar (usuario : ref)
  | PrestarLibro (usuario libro : ref)
  | DevolverLibro (usuario libro : ref)
  | PagarMulta (usuario : ref) (cantidad : float)
  | LibrosPrestados (usuario : ref)
  | MultaAcumulada (usuario : ref).

Inductive Valor :=
  | VRef (r : ref)
  | VBool (b : bool)
  | VFloat (x : float)
  | VTupla (dias : Z) (usuario : option ref).

Definition ejecutar (c : Llamada) : M Valor :=
  match c with
  | CrearLibro c titulo autor isbn año =>
      r <- Libro_init c titulo autor isbn año ;; ret (VRef r)
  | CrearUsuario c nombre identificacion email =>
      r <- Usuario_init c nombre identificacion email ;; ret (VRef r)
  | Prestar libro usuario => b <- prestar libro usuario ;; ret (VBool b)
  | Devolver libro => r <- devolver libro ;; ret (VTupla r.1 r.2)
  | PuedePrestar usuario => b <- puede_prestar usuario ;; ret (VBool b)
  | PrestarLibro usuario libro => b <- prestar_libro usuario libro ;; ret (VBool b)
  | DevolverLibro usuario libro => x <- devolver_libro usuario libro ;; ret (VFloat x)
  | PagarMulta usuario cantidad => x <- pagar_multa usuario cantidad ;; ret (VFloat x)
  | LibrosPrestados usuario => r <- libros_prestados usuario ;; ret (VRef r)
  | MultaAcumulada usuario => x <- multa_acumulada usuario ;; ret (VFloat x)
  end.

Fixpoint ejecutar_todas (cs : list Llamada) : M (list Valor) :=
  match cs with
  | [] => ret []
  | c :: cs' => v <- ejecutar c ;; vs <- ejecutar_todas cs' ;; ret (v :: vs)
  end.

(** Client code that holds a list object can put anything in it
    ([append], [remove], [clear], item assignment, ...). *)
Definition mutar_lista (r : ref) (contenido : list ref) (w : Mundo) : Mundo :=
  con_listas <[r := contenido]> w.

(** ** Invariants *)

(** Loan timestamp and borrower are both set or both absent, and they are
    set exactly when the book is not available. *)
Definition inv_libro (l : Libro) : bool :=
  match _disponible l, _fecha_prestamo l, _usuario_actual l with
  | true, None, None => true
  | false, Some _, Some _ => true
  | _, _, _ => false
  end.

Definition inv_libros (w : Mundo) : Prop :=
  ∀ r l, libros w !! r = Some l → inv_libro l = true.

(** A user holds at most [limite_prestamos] books and owes a fine that is
    not negative. *)
Definition inv_usuario (w : Mundo) (u : Usuario) : Prop :=
  ∃ l, listas w !! _libros_prestados u = Some l
       ∧ Z.of_nat (length l) ≤ limite_prestamos u
       ∧ (0 <=? _multa_acumulada u)%float = true.

(** Every user satisfies [inv_usuario], and no two users own the same list
    object (each constructor makes its own). *)
Definition inv_usuarios (w : Mundo) : Prop :=
  (∀ r u, usuarios w !! r = Some u → inv_usuario w u)
  ∧ (∀ r1 r2 u1 u2, usuarios w !! r1 = Some u1 → usuarios w !! r2 = Some u2 →
       _libros_prestados u1 = _libros_prestados u2 → r1 = r2).

(** The world before any object exists, for a given clock. *)
Definition mundo_vacio (reloj : nat → datetime) : Mundo :=
  mkMundo ∅ ∅ ∅ reloj 0.

(** ** What the methods compute and leave behind

    The values and the worlds that the theorems below state the methods in
    terms of. *)

(** What [puede_prestar] computes from a user and the list they hold. *)
Definition elegible (u : Usuario) (l : list ref) : bool :=
  (Z.of_nat (length l) <? limite_prestamos u) && (_multa_acumulada u =? 0)%float.

(** The world after a successful [prestar_libro]. *)
Definition tras_prestar_libro (w : Mundo) (self libro : ref)
    (u : Usuario) (l : list ref) (b : Libro) : Mundo :=
  mkMundo
    (<[libro := set_prestamo b false (Some (ahora w)) (Some self)]> (libros w))
    (<[self := set_historial u
         (_historial_prestamos u ++
            [mkPrestamo (_titulo b) (_isbn b) (reloj w (S (lecturas w)))
                        (obtener_tipo b) false None None])]> (usuarios w))
    (<[_libros_prestados u := l ++ [libro]]> (listas w))
    (reloj w) (S (S (lecturas w))).

(** [j] is the position of the most recent open loan of [isbn] in a
    history (the one the loop over [reversed(historial)] meets first). *)
Definition ultimo_abierto (isbn : string) (h : list Prestamo) (j : nat) : Prop :=
  (∃ p, h !! j = Some p ∧ abierto isbn p = true)
  ∧ ∀ k q, (j < k)%nat → h !! k = Some q → abierto isbn q = false.

(** The history once [devolver_libro] has gone through it at time [t]. *)
Definition historial_cerrado (isbn : string) (t : datetime) (dias : Z)
    (h : list Prestamo) : list Prestamo :=
  match buscar isbn (reverse h) with
  | Some i => alter (cerrar t dias) (length h - 1 - i)%nat h
  | None => h
  end.

(** The world after the loop: the clock is read only when a loan is closed. *)
Definition tras_historial (isbn : string) (h : list Prestamo) (w : Mundo) : Mundo :=
  match buscar isbn (reverse h) with
  | Some _ => tras_lectura w
  | None => w
  end.

(** The fine [devolver_libro] charges for [dias] days of delay. *)
Definition multa_por (u : Usuario) (dias : Z) : float :=
  if 0 <? dias then (float_of_int dias * calcular_multa_por_dia u)%float
  else 0%float.

(** The user after [devolver_libro]: history [h], fine for [dias] days. *)
Definition usuario_tras_devolver (u : Usuario) (h : list Prestamo) (dias : Z)
    : Usuario :=
  if 0 <? dias
  then set_multa (set_historial u h) (_multa_acumulada u + multa_por u dias)%float
  else set_historial u h.

(** The world after [devolver_libro], from the world [w1] in which the book
    itself has been returned. *)
Definition tras_devolver_libro (w1 : Mundo) (self : ref) (u : Usuario)
    (l' : list ref) (isbn : string) (dias : Z) : Mundo :=
  mkMundo (libros w1)
    (<[self := usuario_tras_devolver u
         (historial_cerrado isbn (ahora w1) dias (_historial_prestamos u)) dias]>
       (usuarios w1))
    (<[_libros_prestados u := l']> (listas w1))
    (reloj w1)
    (lecturas (tras_historial isbn (_historial_prestamos u) w1)).

(** The world after [Usuario.__init__]. *)
Definition tras_Usuario_init (w : Mundo) (c : ClaseUsuario)
    (nombre identificacion email : string) : Mundo :=
  mkMundo (libros w)
    (<[fresh (dom (usuarios w)) :=
         mkUsuario c nombre identificacion email (ahora w)
                   (fresh (dom (listas w))) [] 0%float]> (usuarios w))
    (<[fresh (dom (listas w)) := []]> (listas w))
    (reloj w) (S (lecturas w)).

(** [r] is a list object that no user owns. *)
Definition libre (r : ref) (w : Mundo) : Prop :=
  is_Some (listas w !! r)
  ∧ ∀ k u, usuarios w !! k = Some u → _libros_prestados u ≠ r.

(** The result of a computation, in a world changed by [f]. *)
Definition traslada {A} (f : Mundo → Mundo) (x : Resultado (A * Mundo))
    : Resultado (A * Mundo) :=
  match x with
  | Ok (a, w) => Ok (a, f w)
  | Raise e => Raise e
  end.

(** From [w], the computation [m] does not see what the list [r] holds:
    with other contents in [r] it gives the same result (or raises the same
    exception) and leaves the same world, but for [r]; and [r] remains a
    list that no user owns. *)
Definition ajena {A} (r : ref) (x : list ref) (m : M A) (w : Mundo) : Prop :=
  libre r w →
  m (mutar_lista r x w) = traslada (mutar_lista r x) (m w)
  ∧ ∀ a w1, m w = Ok (a, w1) → libre r w1.

(** ** More of class Usuario *)

(** The property [total_prestamos_historicos]. *)
Definition total_prestamos_historicos (self : ref) : M Z :=
  u <- leer_usuario self ;;
  ret (Z.of_nat (length (_historial_prestamos u))).

(** ** Whole runs: the history, the held books and the books

    What the theorems on whole runs are stated with. *)

(** An entry of the history stays as it is or, if open, gets closed. *)
Definition evoluciona (p p' : Prestamo) : Prop :=
  p' = p ∨ (devuelto p = false ∧ ∃ t dias, p' = cerrar t dias p).

(** A history goes on: its entries evolve where they are and new entries
    come after them. *)
Definition continua (h h' : list Prestamo) : Prop :=
  ∃ h1 nuevos, h' = h1 ++ nuevos ∧ Forall2 evoluciona h h1.

(** Is the call [c], which returned [v], a successful loan to the user [r],
    that is [r.prestar_libro(...)] returning [True]? *)
Definition logrado (r : ref) (c : Llamada) (v : Valor) : bool :=
  match c, v with
  | PrestarLibro usuario _, VBool true => bool_decide (usuario = r)
  | _, _ => false
  end.

(** The successful loans to [r] in a run of calls [cs] that returned [vs]. *)
Fixpoint prestamos_logrados (r : ref) (cs : list Llamada) (vs : list Valor) : Z :=
  match cs, vs with
  | c :: cs', v :: vs' =>
      (if logrado r c v then 1 else 0) + prestamos_logrados r cs' vs'
  | _, _ => 0
  end.

(** The objects that a call names exist.  (Python code cannot name an
    object that does not exist; [prestar] only stores the user it is
    given, and [devolver_libro] looks for the book in the held list
    before it touches it.) *)
Definition refs_validas (w : Mundo) (c : Llamada) : Prop :=
  match c with
  | CrearLibro _ _ _ _ _ | CrearUsuario _ _ _ _ => True
  | Prestar libro _ | Devolver libro => is_Some (libros w !! libro)
  | PrestarLibro usuario libro =>
      is_Some (usuarios w !! usuario) ∧ is_Some (libros w !! libro)
  | PuedePrestar usuario | DevolverLibro usuario _ | PagarMulta usuario _
  | LibrosPrestados usuario | MultaAcumulada usuario =>
      is_Some (usuarios w !! usuario)
  end.

(** Every book in a held list exists. *)
Definition existentes (w : Mundo) : Prop :=
  ∀ r u l b, usuarios w !! r = Some u → listas w !! _libros_prestados u = Some l →
    b ∈ l → is_Some (libros w !! b).

(** Calls that lend and return through the user ([prestar_libro] and
    [devolver_libro]), not by calling the book's own [prestar] and
    [devolver]. *)
Definition por_usuario (c : Llamada) : bool :=
  match c with
  | Prestar _ _ | Devolver _ => false
  | _ => true
  end.

(** The held lists and the books agree: a held list has no book twice and
    its books are on loan to the user who owns it; a book on loan is in the
    held list of its holder. *)
Definition coherente (w : Mundo) : Prop :=
  (∀ r u l, usuarios w !! r = Some u → listas w !! _libros_prestados u = Some l →
     NoDup l
     ∧ ∀ b, b ∈ l → ∃ lib, libros w !! b = Some lib ∧ _disponible lib = false
                           ∧ _usuario_actual lib = Some r)
  ∧ (∀ b lib, libros w !! b = Some lib → _disponible lib = false →
       ∃ r u l, _usuario_actual lib = Some r ∧ usuarios w !! r = Some u
                ∧ listas w !! _libros_prestados u = Some l ∧ b ∈ l).

(** The open entries of a history for the book [isbn], and the held books
    with that ISBN. *)
Definition abiertos (isbn : string) (h : list Prestamo) : nat :=
  length (List.filter (abierto isbn) h).

Definition con_isbn (w : Mundo) (isbn : string) (b : ref) : bool :=
  bool_decide (_isbn <$> libros w !! b = Some isbn).

Definition tenidos (w : Mundo) (isbn : string) (l : list ref) : nat :=
  length (List.filter (con_isbn w isbn) l).

(** The history of every user is up to date: it has as many open entries
    for an ISBN as the user holds books with that ISBN, and as many open
    entries in all as the user holds books. *)
Definition al_dia (w : Mundo) : Prop :=
  ∀ r u l, usuarios w !! r = Some u →
    listas w !! _libros_prestados u = Some l →
    (∀ isbn, abiertos isbn (_historial_prestamos u) = tenidos w isbn l)
    ∧ length (List.filter (λ p, negb (devuelto p)) (_historial_prestamos u))
      = length l.

(** A clock that never goes back. *)
Definition monotono (reloj : nat → datetime) : Prop :=
  ∀ i j, (i ≤ j)%nat → reloj i ≤ reloj j.

(** [t] is a reading of the clock that has been taken. *)
Definition leido (w : Mundo) (t : datetime) : Prop :=
  ∃ k, (k < lecturas w)%nat ∧ t = reloj w k.

(** An entry of a history is in order: it was stamped with a reading of
    the clock; while it is open the keys ['fecha_devolucion'] and
    ['dias_retraso'] are absent, and once it is closed they hold a reading
    that is not before the loan and a number of days that is not
    negative. *)
Definition prestamo_en_orden (w : Mundo) (p : Prestamo) : Prop :=
  leido w (fecha_prestamo p)
  ∧ if devuelto p
    then ∃ t d, fecha_devolucion p = Some t ∧ dias_retraso p = Some d
                ∧ leido w t ∧ fecha_prestamo p ≤ t ∧ 0 ≤ d
    else fecha_devolucion p = None ∧ dias_retraso p = None.

(** Every entry of every history is in order, and the loan timestamp of
    every book is a reading that has been taken. *)
Definition en_hora (w : Mundo) : Prop :=
  (∀ r u p, usuarios w !! r = Some u → p ∈ _historial_prestamos u →
     prestamo_en_orden w p)
  ∧ (∀ b l f, libros w !! b = Some l → _fecha_prestamo l = Some f → leido w f).

(** What stays of a book and of a user: the attributes that tell which
    book, which user it is. *)
Definition misma_ficha (l l' : Libro) : Prop :=
  clase_libro l' = clase_libro l ∧ _titulo l' = _titulo l ∧ _autor l' = _autor l
  ∧ _isbn l' = _isbn l ∧ _año_publicacion l' = _año_publicacion l.

Definition mismos_datos (u u' : Usuario) : Prop :=
  clase_usuario u' = clase_usuario u ∧ _nombre u' = _nombre u
  ∧ _identificacion u' = _identificacion u ∧ _email u' = _email u
  ∧ _fecha_registro u' = _fecha_registro u
  ∧ _libros_prestados u' = _libros_prestados u.

(** ** The attributes of LibroDigital

    What [LibroDigital.__init__] adds to the attributes of [Libro], and the
    methods that only read and write these. *)

Record AtributosDigital := mkAtributosDigital {
  _formato : string;
  _tamaño_mb : float;
  _url_descarga : string;
  _descargas : Z
}.

Section Mayusculas.
Variable upper : string → string.     (* [str.upper] *)

(** The assignments of [LibroDigital.__init__] after the call of the
    constructor of [Libro]. *)
Definition LibroDigital_atributos (formato : string) (tamaño_mb : float)
    (url_descarga : string) : AtributosDigital :=
  mkAtributosDigital (upper formato) tamaño_mb url_descarga 0.

End Mayusculas.

Definition registrar_descarga (self : AtributosDigital) : AtributosDigital :=
  mkAtributosDigital (_formato self) (_tamaño_mb self) (_url_descarga self)
                     (_descargas self + 1).

(** The dict that [obtener_estadisticas_descarga] returns. *)
Record Estadisticas := mkEstadisticas {
  total_descargas : Z;
  formato : string;
  tamaño_mb : float;
  popularidad : string
}.

Definition obtener_estadisticas_descarga (self : AtributosDigital) : Estadisticas :=
  mkEstadisticas (_descargas self) (_formato self) (_tamaño_mb self)
    (if _descargas self >? 50 then "Alta"
     else if _descargas self >? 10 then "Media" else "Baja").

End Biblioteca.

(* ===================================================================== *)
(** * The shop example *)
(* ===================================================================== *)

Module Tienda.

Inductive CategoriaProducto := ELECTRONICA | ROPA | HOGAR | LIBROS | DEPORTES.

Record Producto := mkProducto {
  _id : string;
  _nombre : string;
  _precio_original : float;
  _precio_actual : float;
  _categoria : CategoriaProducto;
  _stock : Z;
  _descripcion : string;
  _ventas_totales : Z
}.

(** The decimal digits of a natural number. *)
Definition decimal (n : Z) : string :=
  NilZero.string_of_uint (N.to_uint (Z.to_N n)).

(** The format [:04d]: the sign of a negative number, then the digits of
    its absolute value, with zeros between the two to fill a width of four
    characters, the sign included ([0005], [12345], [-001], [-12345]). *)
Definition formato_04d (n : Z) : string :=
  let signo := if n <? 0 then "-"%string else ""%string in
  let d := decimal (Z.abs n) in
  signo +:+
  String.concat "" (replicate (4 - String.length signo - String.length d) "0"%string)
  +:+ d.

(** [Producto._generar_id], given the class attribute [_contador_productos]. *)
Definition _generar_id (_contador_productos : Z) : string :=
  "PROD-" +:+ formato_04d (_contador_productos + 1).

(** [Producto.validar_precio] (a static method). *)
Definition validar_precio (precio : float) : bool := (0 <? precio)%float.

(** [Producto.__init__]: the new object and the class counter after it. *)
Definition Producto_init (_contador_productos : Z) (nombre : string)
    (precio : float) (categoria : CategoriaProducto) (stock : Z)
    (descripcion : string) : Producto * Z :=
  (mkProducto (_generar_id _contador_productos) nombre precio precio
              categoria stock descripcion 0,
   _contador_productos + 1).

(** The property [precio]. *)
Definition precio (self : Producto) : float := _precio_actual self.

(** [aplicar_descuento]: the value returned and the object after the call. *)
Definition aplicar_descuento (self : Producto) (porcentaje : float)
    : float * Producto :=
  if (0 <=? porcentaje)%float && (porcentaje <=? 100)%float then
    let descuento := (_precio_original self * (porcentaje / 100))%float in
    let self' :=
      mkProducto (_id self) (_nombre self) (_precio_original self)
                 (_precio_original self - descuento)%float
                 (_categoria self) (_stock self) (_descripcion self)
                 (_ventas_totales self) in
    (_precio_actual self', self')
  else (_precio_actual self, self).

Definition obtener_precio_original (self : Producto) : float :=
  _precio_original self.

(** What the specification says of the constructor: a negative price is
    clamped or rejected, so the object never holds it as its price. *)
Definition precio_negativo_no_almacenado : Prop :=
  ∀ contador nombre precio categoria stock descripcion,
    (precio <? 0)%float = true →
    _precio_actual (Producto_init contador nombre precio categoria stock descripcion).1
      ≠ precio.

(** ** The rest of class Producto *)

(** The property [disponible]. *)
Definition disponible (self : Producto) : bool := _stock self >? 0.

(** [restaurar_precio_original]: the object after the call. *)
Definition restaurar_precio_original (self : Producto) : Producto :=
  mkProducto (_id self) (_nombre self) (_precio_original self)
             (_precio_original self)
             (_categoria self) (_stock self) (_descripcion self)
             (_ventas_totales self).

(** [reducir_stock]: the value returned and the object after the call. *)
Definition reducir_stock (self : Producto) (cantidad : Z) : bool * Producto :=
  if _stock self >=? cantidad then
    (true,
     mkProducto (_id self) (_nombre self) (_precio_original self)
                (_precio_actual self) (_categoria self)
                (_stock self - cantidad) (_descripcion self)
                (_ventas_totales self + cantidad))
  else (false, self).

(** [reponer_stock]: the object after the call. *)
Definition reponer_stock (self : Producto) (cantidad : Z) : Producto :=
  mkProducto (_id self) (_nombre self) (_precio_original self)
             (_precio_actual self) (_categoria self)
             (_stock self + cantidad) (_descripcion self)
             (_ventas_totales self).

(** What [==] and [<] can be given on the right: a product (of the class
    or of a subclass) or an object of another kind. *)
Inductive Objeto :=
  | UnProducto (p : Producto)
  | OtroObjeto.

Definition __eq__ (self : Producto) (other : Objeto) : bool :=
  match other with
  | UnProducto other => bool_decide (_id self = _id other)
  | OtroObjeto => false
  end.

(** [__lt__]; [None] is [NotImplemented]. *)
Definition __lt__ (self : Producto) (other : Objeto) : option bool :=
  match other with
  | UnProducto other => Some (_precio_actual self <? _precio_actual other)%float
  | OtroObjeto => None
  end.

(** ** The subclasses *)

Record ProductoElectronico := mkProductoElectronico {
  electronico : Producto;          (* the attributes of [Producto] *)
  _marca : string;
  _garantia_meses : Z
}.

(** [ProductoElectronico.__init__]: the new object and the class counter
    after it. *)
Definition ProductoElectronico_init (_contador_productos : Z) (nombre : string)
    (precio : float) (stock : Z) (marca : string) (garantia_meses : Z)
    (descripcion : string) : ProductoElectronico * Z :=
  let r := Producto_init _contador_productos nombre precio ELECTRONICA stock
                         descripcion in
  (mkProductoElectronico r.1 marca garantia_meses, r.2).

Definition extender_garantia (self : ProductoElectronico) (meses_adicionales : Z)
    : ProductoElectronico :=
  mkProductoElectronico (electronico self) (_marca self)
                        (_garantia_meses self + meses_adicionales).

Record ProductoRopa := mkProductoRopa {
  ropa : Producto;                 (* the attributes of [Producto] *)
  _talla : string;
  _color : string;
  _material : string
}.

(** [ProductoRopa.__init__]: the new object and the class counter after
    it. *)
Definition ProductoRopa_init (_contador_productos : Z) (nombre : string)
    (precio : float) (stock : Z) (talla color material : string)
    (descripcion : string) : ProductoRopa * Z :=
  let r := Producto_init _contador_productos nombre precio ROPA stock
                         descripcion in
  (mkProductoRopa r.1 talla color material, r.2).

(** ** Sequences of constructions and of stock movements *)

(** A construction: the class and the arguments given to it. *)
Inductive Alta :=
  | NuevoProducto (nombre : string) (precio : float)
      (categoria : CategoriaProducto) (stock : Z) (descripcion : string)
  | NuevoElectronico (nombre : string) (precio : float) (stock : Z)
      (marca : string) (garantia_meses : Z) (descripcion : string)
  | NuevaRopa (nombre : string) (precio : float) (stock : Z)
      (talla color material : string) (descripcion : string).

(** The attributes of [Producto] of the object constructed, and the class
    counter after the construction. *)
Definition alta (_contador_productos : Z) (a : Alta) : Producto * Z :=
  match a with
  | NuevoProducto nombre precio categoria stock descripcion =>
      Producto_init _contador_productos nombre precio categoria stock descripcion
  | NuevoElectronico nombre precio stock marca garantia_meses descripcion =>
      let r := ProductoElectronico_init _contador_productos nombre precio stock
                                        marca garantia_meses descripcion in
      (electronico r.1, r.2)
  | NuevaRopa nombre precio stock talla color material descripcion =>
      let r := ProductoRopa_init _contador_productos nombre precio stock
                                 talla color material descripcion in
      (ropa r.1, r.2)
  end.

Fixpoint altas (_contador_productos : Z) (l : list Alta) : list Producto * Z :=
  match l with
  | [] => ([], _contador_productos)
  | a :: l' =>
      let r := alta _contador_productos a in
      let rs := altas r.2 l' in
      (r.1 :: rs.1, rs.2)
  end.

(** A movement of stock: a call of [reducir_stock] or of [reponer_stock]. *)
Inductive Movimiento :=
  | Reducir (cantidad : Z)
  | Reponer (cantidad : Z).

Definition cantidad_de (m : Movimiento) : Z :=
  match m with
  | Reducir cantidad | Reponer cantidad => cantidad
  end.

Definition mover (self : Producto) (m : Movimiento) : Producto :=
  match m with
  | Reducir cantidad => (reducir_stock self cantidad).2
  | Reponer cantidad => reponer_stock self cantidad
  end.

(** The units that the calls of [reponer_stock] brought in. *)
Fixpoint repuesto (ms : list Movimiento) : Z :=
  match ms with
  | [] => 0
  | Reponer cantidad :: ms' => cantidad + repuesto ms'
  | Reducir _ :: ms' => repuesto ms'
  end.

(** A percentage that [aplicar_descuento] accepts. *)
Definition en_rango (porcentaje : float) : bool :=
  ((0 <=? porcentaje) && (porcentaje <=? 100))%float.

End Tienda.

(* ===================================================================== *)
(** * A small library, to run the examples on *)
(* ===================================================================== *)

Module Demo.
Import Biblioteca.

(** A clock that advances ten days between two readings. *)
Definition reloj_demo (n : nat) : datetime := Z.of_nat n * 864000000000.

(** A student (user 1), a professor (user 2), a physical book (book 1) and
    a digital one (book 2), which the professor borrows: the loan is
    stamped with the third reading of the clock, day 20. *)
Definition llamadas_demo : list Llamada :=
  [ CrearUsuario Estudiante "Ana" "E-001" "ana@uni.example";
    CrearUsuario Profesor "Luis" "P-001" "luis@uni.example";
    CrearLibro LibroFisico "Don Quijote" "Cervantes" "978-84-376-0494-7" 1605;
    CrearLibro LibroDigital "Rayuela" "Cortazar" "978-84-376-0457-2" 1963;
    PrestarLibro 2%positive 2%positive ].

Definition mundo_de {A} (x : Resultado (A * Mundo)) : Mundo :=
  match x with
  | Ok (_, w) => w
  | Raise _ => mundo_vacio reloj_demo
  end.

Definition valores_de (x : Resultado (list Valor * Mundo)) : list Valor :=
  match x with
  | Ok (vs, _) => vs
  | Raise _ => []
  end.

Definition mundo_demo : Mundo :=
  mundo_de (ejecutar_todas llamadas_demo (mundo_vacio reloj_demo)).

Definition valores_demo : list Valor :=
  valores_de (ejecutar_todas llamadas_demo (mundo_vacio reloj_demo)).

(** The professor returns the digital book at the next reading, day 40:
    twenty days after the loan, thirteen days late. *)
Definition mundo_multa : Mundo :=
  mundo_de (ejecutar_todas [DevolverLibro 2%positive 2%positive] mundo_demo).

(** Another library: a student and four books, of which the student
    borrows three, one after the other. *)
Definition mundo_libros : Mundo :=
  mundo_de (ejecutar_todas
    [ CrearUsuario Estudiante "Ana" "E-001" "ana@uni.example";
      CrearLibro LibroFisico "Don Quijote" "Cervantes" "978-84-376-0494-7" 1605;
      CrearLibro LibroDigital "Rayuela" "Cortazar" "978-84-376-0457-2" 1963;
      CrearLibro LibroFisico "Ficciones" "Borges" "978-84-206-3312-5" 1944;
      CrearLibro LibroDigital "Pedro Paramo" "Rulfo" "978-84-376-0418-3" 1955 ]
    (mundo_vacio reloj_demo)).

Definition mundo_uno : Mundo :=
  mundo_de (prestar_libro 1%positive 1%positive mundo_libros).

Definition mundo_dos : Mundo :=
  mundo_de (prestar_libro 1%positive 2%positive mundo_uno).

Definition mundo_tres : Mundo :=
  mundo_de (prestar_libro 1%positive 3%positive mundo_dos).

Definition estudiante_demo : Usuario :=
  mkUsuario Estudiante "Ana" "E-001" "ana@uni.example" 0 1%positive [] 0%float.

Definition libro_fisico_demo : Libro :=
  mkLibro LibroFisico "Don Quijote" "Cervantes" "978-84-376-0494-7" 1605
          true None None.

Definition libro_digital_demo : Libro :=
  mkLibro LibroDigital "Rayuela" "Cortazar" "978-84-376-0457-2" 1963
          false (Some 1728000000000) (Some 2%positive).

Definition profesor_demo : Usuario :=
  mkUsuario Profesor "Luis" "P-001" "luis@uni.example" 864000000000 2%positive
    [mkPrestamo "Rayuela" "978-84-376-0457-2" 2592000000000 "Libro Digital"
                false None None]
    0%float.

Definition profesor_multado : Usuario :=
  mkUsuario Profesor "Luis" "P-001" "luis@uni.example" 864000000000 2%positive
    [mkPrestamo "Rayuela" "978-84-376-0457-2" 2592000000000 "Libro Digital"
                true (Some 4320000000000) (Some 13)]
    13%float.

(** The entry of that loan in the history of the professor, once closed. *)
Definition entrada_multada : Prestamo :=
  mkPrestamo "Rayuela" "978-84-376-0457-2" 2592000000000 "Libro Digital"
             true (Some 4320000000000) (Some 13).

(** The student borrows the physical book (day 40). *)
Definition mundo_prestado : Mundo :=
  mundo_de (ejecutar_todas [PrestarLibro 1%positive 1%positive] mundo_demo).

Definition estudiante_prestado : Usuario :=
  mkUsuario Estudiante "Ana" "E-001" "ana@uni.example" 0 1%positive
    [mkPrestamo "Don Quijote" "978-84-376-0494-7" 4320000000000 "Libro Físico"
                false None None]
    0%float.

Definition libro_fisico_prestado : Libro :=
  mkLibro LibroFisico "Don Quijote" "Cervantes" "978-84-376-0494-7" 1605
          false (Some 3456000000000) (Some 1%positive).

End Demo.

(* ===================================================================== *)
(** * A small shop: the products of the script *)
(* ===================================================================== *)

Module DemoTienda.
Import Tienda.

(** The two constructions of the script, in a fresh process. *)
Definition altas_demo : list Alta :=
  [ NuevoElectronico "Smartphone" 1200 10 "Samsung" 24 "";
    NuevaRopa "Camiseta" 25 50 "M" "Azul" "Algodón" "" ].

Definition prod1 : Producto :=
  mkProducto "PROD-0001" "Smartphone" 1200 1200 ELECTRONICA 10 "" 0.

Definition prod2 : Producto :=
  mkProducto "PROD-0002" "Camiseta" 25 25 ROPA 50 "" 0.

(** Three units are sold, twenty are asked for and refused, five come in
    and twelve are sold. *)
Definition movimientos_demo : list Movimiento :=
  [Reducir 3; Reducir 20; Reponer 5; Reducir 12].

End DemoTienda.

(* ===================================================================== *)
(** * Properties of binary64 arithmetic *)
(* ===================================================================== *)

Import Binary64 Biblioteca.

(** ** The specification of rounding

    [SFadd] and [SFsub] align the two mantissas on the smaller exponent, add
    or subtract them as integers and round the result with [binary_round];
    the lemmas below bound what rounding gives, by the exponent and the
    mantissa that [SFcompare] looks at. *)

Section SpecFloatFacts.
Variables prec emax : Z.
Hypothesis Hprec : 0 < prec.

Abbreviation fexp := (SpecFloat.fexp prec emax).
Abbreviation emin := (SpecFloat.emin prec emax).

Lemma fexp_mono a b : a <= b -> fexp a <= fexp b.
Proof. unfold SpecFloat.fexp. lia. Qed.

Lemma fexp_emin a : emin <= fexp a.
Proof. unfold SpecFloat.fexp. lia. Qed.

Lemma digits2_pos_bounds m :
  2 ^ (Zpos (digits2_pos m) - 1) <= Zpos m < 2 ^ Zpos (digits2_pos m).
Proof.
  induction m as [p IH|p IH|]; simpl digits2_pos.
  - rewrite Pos2Z.inj_succ. replace (Z.succ (Zpos (digits2_pos p)) - 1) with (Z.succ (Zpos (digits2_pos p) - 1)) by lia.
    rewrite !Z.pow_succ_r by lia. lia.
  - rewrite Pos2Z.inj_succ. replace (Z.succ (Zpos (digits2_pos p)) - 1) with (Z.succ (Zpos (digits2_pos p) - 1)) by lia.
    rewrite !Z.pow_succ_r by lia. lia.
  - simpl. lia.
Qed.

Lemma pow2_pos k : 0 < 2 ^ k \/ k < 0.
Proof. destruct (Z.lt_ge_cases k 0); [now right|left]. now apply Z.pow_pos_nonneg. Qed.

Lemma pow2_pos' k : 0 <= k -> 0 < 2 ^ k.
Proof. intros. now apply Z.pow_pos_nonneg. Qed.

Lemma shr_1_m mrs : 0 <= shr_m mrs -> shr_m (shr_1 mrs) = shr_m mrs / 2.
Proof.
  destruct mrs as [[|[p|p|]|p] r s]; cbn [shr_1 shr_m]; intros H; try lia.
  - reflexivity.
  - apply Z.div_unique with 1; lia.
  - apply Z.div_unique with 0; lia.
  - reflexivity.
Qed.

Lemma iter_pos_shr_1 p : forall mrs, 0 <= shr_m mrs ->
  shr_m (SpecFloat.iter_pos shr_1 p mrs) = shr_m mrs / 2 ^ Zpos p.
Proof.
  induction p as [p IH|p IH|]; intros mrs H; simpl SpecFloat.iter_pos.
  - assert (0 <= shr_m (shr_1 mrs)) as H1
      by (rewrite shr_1_m by easy; apply Z.div_pos; lia).
    assert (0 <= shr_m (SpecFloat.iter_pos shr_1 p (shr_1 mrs))) as H2
      by (rewrite IH by easy; apply Z.div_pos; [easy|apply pow2_pos'; lia]).
    rewrite IH, IH, shr_1_m by easy.
    rewrite !Z.div_div by (try apply pow2_pos'; lia).
    f_equal. replace (Zpos p~1) with (1 + Zpos p + Zpos p) by lia.
    rewrite !Z.pow_add_r by lia. simpl (2 ^ 1). lia.
  - assert (0 <= shr_m (SpecFloat.iter_pos shr_1 p mrs)) as H2
      by (rewrite IH by easy; apply Z.div_pos; [easy|apply pow2_pos'; lia]).
    rewrite IH, IH by easy.
    rewrite !Z.div_div by (try apply pow2_pos'; lia).
    f_equal. replace (Zpos p~0) with (Zpos p + Zpos p) by lia.
    rewrite !Z.pow_add_r by lia. lia.
  - now rewrite shr_1_m.
Qed.

Lemma shr_m_of_loc m l : shr_m (shr_record_of_loc m l) = m.
Proof. now destruct l as [|[]]. Qed.

Lemma shr_fexp_spec m e l :
  0 <= m ->
  snd (shr_fexp prec emax m e l) = Z.max e (fexp (Zdigits2 m + e))
  /\ shr_m (fst (shr_fexp prec emax m e l))
     = m / 2 ^ (Z.max e (fexp (Zdigits2 m + e)) - e).
Proof.
  intros Hm. unfold shr_fexp, shr.
  destruct (fexp (Zdigits2 m + e) - e) as [|p|p] eqn:Hn; simpl.
  - replace (Z.max e (fexp (Zdigits2 m + e)) - e) with 0 by lia.
    rewrite shr_m_of_loc, Z.div_1_r. lia.
  - rewrite iter_pos_shr_1 by now rewrite shr_m_of_loc.
    rewrite shr_m_of_loc.
    replace (Z.max e (fexp (Zdigits2 m + e)) - e) with (Zpos p) by lia. lia.
  - replace (Z.max e (fexp (Zdigits2 m + e)) - e) with 0 by lia.
    rewrite shr_m_of_loc, Z.div_1_r. lia.
Qed.

Lemma round_nearest_even_bounds q l :
  q <= round_nearest_even q l <= q + 1.
Proof. destruct l as [|[]]; simpl; try destruct (Z.even q); lia. Qed.

Lemma binary_round_aux_spec sx mx ex lx :
  0 <= mx ->
  exists m1,
    mx / 2 ^ (Z.max ex (fexp (Zdigits2 mx + ex)) - ex) <= m1
      <= mx / 2 ^ (Z.max ex (fexp (Zdigits2 mx + ex)) - ex) + 1
    /\ binary_round_aux prec emax sx mx ex lx
       = let e1 := Z.max ex (fexp (Zdigits2 mx + ex)) in
         let e2 := Z.max e1 (fexp (Zdigits2 m1 + e1)) in
         redondeado prec emax sx (m1 / 2 ^ (e2 - e1)) e2.
Proof.
  intros Hm. unfold binary_round_aux.
  destruct (shr_fexp_spec mx ex lx Hm) as [He1 Hm1].
  destruct (shr_fexp prec emax mx ex lx) as [mrs1 e1]. simpl in He1, Hm1.
  set (m1 := round_nearest_even (shr_m mrs1) (loc_of_shr_record mrs1)).
  assert (shr_m mrs1 <= m1 <= shr_m mrs1 + 1) as Hb
    by apply round_nearest_even_bounds.
  assert (0 <= shr_m mrs1) as H0.
  { rewrite Hm1. apply Z.div_pos; [easy|]. apply pow2_pos'. lia. }
  exists m1. rewrite <- Hm1. split; [easy|].
  destruct (shr_fexp_spec m1 e1 loc_Exact ltac:(lia)) as [He2 Hm2].
  destruct (shr_fexp prec emax m1 e1 loc_Exact) as [mrs2 e2]. simpl in He2, Hm2.
  rewrite Hm2, He2, He1. reflexivity.
Qed.

Lemma Pos_iter_xO m d : Zpos (Pos.iter xO m d) = Zpos m * 2 ^ Zpos d.
Proof.
  induction d as [|d IH] using Pos.peano_ind.
  - simpl. lia.
  - rewrite Pos.iter_succ.
    replace (Zpos (Pos.iter xO m d)~0) with (2 * Zpos (Pos.iter xO m d)) by lia.
    rewrite IH, Pos2Z.inj_succ, Z.pow_succ_r by lia. ring.
Qed.

Lemma shl_align_spec mx ex ex' :
  snd (shl_align mx ex ex') = Z.min ex ex'
  /\ Zpos (fst (shl_align mx ex ex')) = Zpos mx * 2 ^ (ex - Z.min ex ex').
Proof.
  unfold shl_align. destruct (ex' - ex) as [|p|p] eqn:Hn; simpl.
  - replace (ex - Z.min ex ex') with 0 by lia. simpl. lia.
  - replace (ex - Z.min ex ex') with 0 by lia. simpl. lia.
  - rewrite Pos_iter_xO. replace (ex - Z.min ex ex') with (Zpos p) by lia.
    split; [lia|reflexivity].
Qed.

Lemma digits_le a b ea eb c :
  c <= ea -> c <= eb ->
  Zpos a * 2 ^ (ea - c) <= Zpos b * 2 ^ (eb - c) ->
  Zpos (digits2_pos a) + ea <= Zpos (digits2_pos b) + eb.
Proof.
  intros Ha Hb H.
  pose proof (digits2_pos_bounds a) as [Hla _].
  pose proof (digits2_pos_bounds b) as [_ Hub].
  assert (2 ^ (Zpos (digits2_pos a) - 1 + (ea - c))
          < 2 ^ (Zpos (digits2_pos b) + (eb - c))) as Hlt.
  { rewrite !Z.pow_add_r by lia.
    pose proof (pow2_pos' (ea - c) ltac:(lia)).
    pose proof (pow2_pos' (eb - c) ltac:(lia)). nia. }
  apply Z.pow_lt_mono_r_iff in Hlt; lia.
Qed.

Lemma div_pos_digits (m : positive) e :
  emin <= e ->
  1 <= Zpos m / 2 ^ (Z.max e (fexp (Zpos (digits2_pos m) + e)) - e).
Proof.
  intros He. pose proof (digits2_pos_bounds m) as [Hl _].
  apply Z.div_le_lower_bound; [apply pow2_pos'; lia|]. rewrite Z.mul_1_r.
  etransitivity; [|exact Hl].
  apply Z.pow_le_mono_r; [lia|]. unfold SpecFloat.fexp. lia.
Qed.

Lemma digits_shl_align M e :
  let mz := fst (shl_align M e (fexp (Zpos (digits2_pos M) + e))) in
  let ez := snd (shl_align M e (fexp (Zpos (digits2_pos M) + e))) in
  ez = Z.min e (fexp (Zpos (digits2_pos M) + e))
  /\ Zpos mz = Zpos M * 2 ^ (e - ez)
  /\ Zpos (digits2_pos mz) + ez = Zpos (digits2_pos M) + e.
Proof.
  intros mz ez.
  destruct (shl_align_spec M e (fexp (Zpos (digits2_pos M) + e))) as [Hez Hmz].
  fold ez in Hez. fold mz in Hmz. rewrite <- Hez in Hmz.
  split; [easy|split; [easy|]].
  apply Z.le_antisymm.
  - apply (digits_le mz M ez e ez); try lia. rewrite Z.sub_diag, Hmz, Z.pow_0_r. lia.
  - apply (digits_le M mz e ez ez); try lia. rewrite Z.sub_diag, Hmz, Z.pow_0_r. lia.
Qed.

Lemma round_up mx ex M e :
  fexp (Zpos (digits2_pos mx) + ex) = ex ->
  emin <= e -> e <= ex -> Zpos mx * 2 ^ (ex - e) <= Zpos M ->
  ge_finito (binary_round prec emax false M e) mx ex.
Proof.
  intros Hcan Hemin Hle Hval. unfold binary_round.
  destruct (digits_shl_align M e) as (Hez & Hmz & Hdz).
  destruct (shl_align M e (fexp (Zpos (digits2_pos M) + e))) as [mz ez].
  cbn [fst snd] in Hez, Hmz, Hdz.
  destruct (binary_round_aux_spec false (Zpos mz) ez loc_Exact ltac:(lia))
    as (m1 & Hm1 & ->).
  cbn [Zdigits2] in *. rewrite Hdz in *.
  set (F := fexp (Zpos (digits2_pos M) + e)) in *.
  assert (emin <= F) as HF by apply fexp_emin.
  assert (ex <= F) as HexF.
  { rewrite <- Hcan. apply fexp_mono.
    apply (digits_le mx M ex e e); try lia. rewrite Z.sub_diag, Z.pow_0_r. lia. }
  replace (Z.max ez F) with F in * by lia.
  assert (1 <= Zpos mz / 2 ^ (F - ez)) as Hq.
  { pose proof (div_pos_digits mz ez ltac:(lia)) as H.
    rewrite Hdz in H. fold F in H. now replace (Z.max ez F) with F in H by lia. }
  destruct m1 as [|p1|p1]; try lia. cbn [Zdigits2].
  set (e2 := Z.max F (fexp (Zpos (digits2_pos p1) + F))).
  pose proof (div_pos_digits p1 F HF) as Hm2. fold e2 in Hm2.
  cbv zeta. destruct (Zpos p1 / 2 ^ (e2 - F)) as [|p2|p2] eqn:Hp2; try lia.
  unfold redondeado. destruct (e2 <=? emax - prec); [|exact I].
  simpl. destruct (Z.eq_dec e2 ex) as [Heq|Hne]; [right|left; lia].
  split; [easy|]. assert (F = ex) as HFex by lia.
  rewrite Heq, HFex, Z.sub_diag, Z.pow_0_r, Z.div_1_r in Hp2. rewrite <- Hp2.
  etransitivity; [|apply Hm1]. rewrite HFex.
  apply Z.div_le_lower_bound; [apply pow2_pos'; lia|].
  rewrite Hmz. replace (ex - ez) with ((ex - e) + (e - ez)) by lia.
  rewrite Z.pow_add_r by lia.
  pose proof (pow2_pos' (e - ez) ltac:(lia)). nia.
Qed.

Lemma round_down mx ex M e :
  fexp (Zpos (digits2_pos mx) + ex) = ex -> ex <= emax - prec ->
  emin <= e -> e <= ex -> Zpos M < Zpos mx * 2 ^ (ex - e) ->
  le_finito (binary_round prec emax false M e) mx ex.
Proof.
  intros Hcan Hmax Hemin Hle Hval. unfold binary_round.
  destruct (digits_shl_align M e) as (Hez & Hmz & Hdz).
  destruct (shl_align M e (fexp (Zpos (digits2_pos M) + e))) as [mz ez].
  cbn [fst snd] in Hez, Hmz, Hdz.
  destruct (binary_round_aux_spec false (Zpos mz) ez loc_Exact ltac:(lia))
    as (m1 & Hm1 & ->).
  cbn [Zdigits2] in *. rewrite Hdz in *.
  set (F := fexp (Zpos (digits2_pos M) + e)) in *.
  assert (emin <= F) as HF by apply fexp_emin.
  assert (F <= ex) as HexF.
  { rewrite <- Hcan. apply fexp_mono.
    apply (digits_le M mx e ex e); try lia. rewrite Z.sub_diag, Z.pow_0_r. lia. }
  replace (Z.max ez F) with F in * by lia.
  assert (0 <= Zpos mz / 2 ^ (F - ez)) as Hq0
    by (apply Z.div_pos; [lia|apply pow2_pos'; lia]).
  assert (Zpos mz / 2 ^ (F - ez) < Zpos mx * 2 ^ (ex - F)) as Hq.
  { apply Z.div_lt_upper_bound; [apply pow2_pos'; lia|].
    rewrite Hmz.
    replace (2 ^ (F - ez) * (Zpos mx * 2 ^ (ex - F)))
      with (Zpos mx * 2 ^ (ex - e) * 2 ^ (e - ez)).
    - pose proof (pow2_pos' (e - ez) ltac:(lia)). nia.
    - rewrite <- Z.mul_assoc, <- Z.pow_add_r by lia.
      replace (ex - e + (e - ez)) with ((F - ez) + (ex - F)) by lia.
      rewrite Z.pow_add_r by lia. ring. }
  cbv zeta. destruct m1 as [|p1|p1]; try lia; [exact I|]. cbn [Zdigits2].
  set (e2 := Z.max F (fexp (Zpos (digits2_pos p1) + F))).
  assert (e2 <= ex) as He2.
  { assert (fexp (Zpos (digits2_pos p1) + F) <= ex); [|lia].
    rewrite <- Hcan. apply fexp_mono.
    apply (digits_le p1 mx F ex F); try lia. rewrite Z.sub_diag, Z.pow_0_r. lia. }
  assert (0 <= Zpos p1 / 2 ^ (e2 - F)) as Hm20
    by (apply Z.div_pos; [lia|apply pow2_pos'; lia]).
  assert (Zpos p1 / 2 ^ (e2 - F) <= Zpos mx * 2 ^ (ex - e2)) as Hm2.
  { apply Z.div_le_upper_bound; [apply pow2_pos'; lia|].
    replace (2 ^ (e2 - F) * (Zpos mx * 2 ^ (ex - e2)))
      with (Zpos mx * 2 ^ (ex - F)); [lia|].
    replace (ex - F) with ((ex - e2) + (e2 - F)) by lia.
    rewrite Z.pow_add_r by lia. ring. }
  destruct (Zpos p1 / 2 ^ (e2 - F)) as [|p2|p2]; try lia; [exact I|].
  unfold redondeado. replace (e2 <=? emax - prec) with true
    by (symmetry; apply Z.leb_le; lia).
  cbn [le_finito]. destruct (Z.eq_dec e2 ex) as [Heq|Hne]; [right|left; lia].
  split; [easy|]. rewrite Heq, Z.sub_diag, Z.pow_0_r in Hm2. lia.
Qed.

(** [SFcompare] on two positive finite floats in canonical form compares
    their values: the mantissas brought to the smaller exponent. *)
Lemma compare_canonico m1 e1 m2 e2 :
  fexp (Zpos (digits2_pos m1) + e1) = e1 ->
  fexp (Zpos (digits2_pos m2) + e2) = e2 ->
  match Z.compare e1 e2 with
  | Lt => Lt
  | Gt => Gt
  | Eq => Pos.compare_cont Eq m1 m2
  end
  = (Zpos m1 * 2 ^ (e1 - Z.min e1 e2) ?= Zpos m2 * 2 ^ (e2 - Z.min e1 e2)).
Proof.
  intros H1 H2.
  pose proof (digits2_pos_bounds m1) as [Hl1 Hu1].
  pose proof (digits2_pos_bounds m2) as [Hl2 Hu2].
  unfold SpecFloat.fexp in H1, H2.
  destruct (Z.compare_spec e1 e2) as [Heq|Hlt|Hgt].
  - subst e2. rewrite Z.min_id, Z.sub_diag, Z.pow_0_r, !Z.mul_1_r. reflexivity.
  - symmetry. apply Z.compare_lt_iff.
    replace (Z.min e1 e2) with e1 by lia. rewrite Z.sub_diag, Z.pow_0_r, Z.mul_1_r.
    assert (Zpos (digits2_pos m2) = prec) as Hd2 by lia.
    assert (Zpos (digits2_pos m1) <= prec) as Hd1 by lia.
    assert (2 ^ Zpos (digits2_pos m1) <= 2 ^ prec)
      by (apply Z.pow_le_mono_r; lia).
    rewrite Hd2 in Hl2.
    replace prec with (Z.succ (prec - 1)) in H by lia.
    rewrite Z.pow_succ_r in H by lia.
    assert (2 ^ 1 <= 2 ^ (e2 - e1)) by (apply Z.pow_le_mono_r; lia).
    rewrite Z.pow_1_r in *. nia.
  - symmetry. apply Z.compare_gt_iff.
    replace (Z.min e1 e2) with e2 by lia. rewrite Z.sub_diag, Z.pow_0_r, Z.mul_1_r.
    assert (Zpos (digits2_pos m1) = prec) as Hd1 by lia.
    assert (Zpos (digits2_pos m2) <= prec) as Hd2 by lia.
    assert (2 ^ Zpos (digits2_pos m2) <= 2 ^ prec)
      by (apply Z.pow_le_mono_r; lia).
    rewrite Hd1 in Hl1.
    replace prec with (Z.succ (prec - 1)) in H by lia.
    rewrite Z.pow_succ_r in H by lia.
    assert (2 ^ 1 <= 2 ^ (e1 - e2)) by (apply Z.pow_le_mono_r; lia).
    rewrite Z.pow_1_r in *. nia.
Qed.

(** *** Floats in canonical form *)

Lemma valid_finite s m e :
  SpecFloat.valid_binary prec emax (S754_finite s m e) = true ->
  fexp (Zpos (digits2_pos m) + e) = e /\ e <= emax - prec /\ emin <= e.
Proof.
  unfold SpecFloat.valid_binary, bounded, canonical_mantissa. intros H.
  apply andb_prop in H as [H1 H2]. apply Z.eqb_eq in H1. apply Z.leb_le in H2.
  split; [easy|split; [easy|]]. rewrite <- H1. apply fexp_emin.
Qed.

Lemma SFleb_0 x : SFleb (S754_zero false) x = no_negativo x.
Proof. now destruct x as [[]|[]| |[]]. Qed.

Lemma con_signo_false r : con_signo false r -> no_negativo r = true.
Proof. destruct r as [[]|[]| |[]]; simpl; intros H; easy. Qed.

Lemma con_signo_true r : con_signo true r -> SFltb (S754_zero false) r = false.
Proof. destruct r as [[]|[]| |[]]; simpl; easy. Qed.

Lemma binary_round_aux_signo sx mx ex lx :
  0 <= mx -> con_signo sx (binary_round_aux prec emax sx mx ex lx).
Proof.
  intros Hm. destruct (binary_round_aux_spec sx mx ex lx Hm) as (m1 & Hm1 & ->).
  cbv zeta.
  assert (0 <= mx / 2 ^ (Z.max ex (fexp (Zdigits2 mx + ex)) - ex))
    by (apply Z.div_pos; [lia|apply pow2_pos'; lia]).
  match goal with
  | |- con_signo _ (redondeado _ _ _ (m1 / 2 ^ ?k) ?e2) =>
      assert (0 <= m1 / 2 ^ k) by (apply Z.div_pos; [lia|apply pow2_pos'; lia]);
      destruct (m1 / 2 ^ k); [reflexivity| |lia];
      unfold redondeado; now destruct (e2 <=? emax - prec)
  end.
Qed.

Lemma binary_round_signo sx m e :
  con_signo sx (binary_round prec emax sx m e).
Proof.
  unfold binary_round. destruct (shl_align _ _ _) as [mz ez].
  apply binary_round_aux_signo. lia.
Qed.

Lemma binary_normalize_no_negativo m e :
  0 <= m -> no_negativo (binary_normalize prec emax m e false) = true.
Proof.
  destruct m as [|p|p]; intros H; [reflexivity| |lia].
  apply con_signo_false, binary_round_signo.
Qed.

Lemma binary_normalize_no_positivo m e :
  m <= 0 ->
  SFltb (S754_zero false) (binary_normalize prec emax m e false) = false.
Proof.
  destruct m as [|p|p]; intros H; [reflexivity|lia|].
  apply con_signo_true, binary_round_signo.
Qed.

Lemma ge_finito_ltb r mx ex :
  ge_finito r mx ex -> SFltb r (S754_finite false mx ex) = false.
Proof.
  destruct r as [[]|[]| |[] p e2]; cbn; try easy.
  intros H. unfold SFltb. cbn. destruct (Z.compare_spec e2 ex); [|lia|reflexivity].
  change (Pos.compare_cont Eq p mx) with (Pos.compare p mx).
  destruct (Pos.compare_spec p mx); try easy. lia.
Qed.

Lemma le_finito_ltb r mx ex :
  le_finito r mx ex -> SFltb (S754_finite false mx ex) r = false.
Proof.
  destruct r as [[]|[]| |[] p e2]; cbn; try easy.
  intros H. unfold SFltb. cbn. destruct (Z.compare_spec ex e2); [|lia|reflexivity].
  change (Pos.compare_cont Eq mx p) with (Pos.compare mx p).
  destruct (Pos.compare_spec mx p); try easy. lia.
Qed.

Lemma shl_align_min mx ex ey :
  Zpos (fst (shl_align mx ex (Z.min ex ey))) = Zpos mx * 2 ^ (ex - Z.min ex ey).
Proof.
  destruct (shl_align_spec mx ex (Z.min ex ey)) as [_ H]. rewrite H.
  now replace (Z.min ex (Z.min ex ey)) with (Z.min ex ey) by lia.
Qed.

Lemma shl_align_min' my ex ey :
  Zpos (fst (shl_align my ey (Z.min ex ey))) = Zpos my * 2 ^ (ey - Z.min ex ey).
Proof.
  destruct (shl_align_spec my ey (Z.min ex ey)) as [_ H]. rewrite H.
  now replace (Z.min ey (Z.min ex ey)) with (Z.min ex ey) by lia.
Qed.

(** *** Addition and subtraction *)

Lemma SFadd_no_negativo x y :
  no_negativo x = true -> no_negativo y = true ->
  no_negativo (SFadd prec emax x y) = true.
Proof.
  destruct x as [[]|[]| |[] mx ex]; try discriminate;
    destruct y as [[]|[]| |[] my ey]; try discriminate; intros _ _;
    try reflexivity.
  unfold SFadd, cond_Zopp. apply binary_normalize_no_negativo. lia.
Qed.

Lemma SFmul_no_negativo x my ey :
  no_negativo x = true ->
  no_negativo (SFmul prec emax x (S754_finite false my ey)) = true.
Proof.
  destruct x as [[]|[]| |[] mx ex]; try discriminate; intros _; try reflexivity.
  unfold SFmul. cbn [xorb]. apply con_signo_false, binary_round_aux_signo. lia.
Qed.

(** Adding a float that is not negative does not give less. *)
Lemma SFadd_ge x y :
  SpecFloat.valid_binary prec emax x = true -> SpecFloat.valid_binary prec emax y = true ->
  no_negativo x = true -> no_negativo y = true ->
  SFltb (SFadd prec emax x y) x = false.
Proof.
  destruct x as [[]|[]| |[] mx ex]; try discriminate;
    destruct y as [[]|[]| |[] my ey]; try discriminate; intros Hx Hy _ _;
    try reflexivity.
  - (* x + 0 *)
    cbn [SFadd]. unfold SFltb. cbn. rewrite Z.compare_refl.
    change (Pos.compare_cont Eq mx mx) with (Pos.compare mx mx).
    now rewrite Pos.compare_refl.
  - cbn [SFadd]. unfold SFltb. cbn. rewrite Z.compare_refl.
    change (Pos.compare_cont Eq mx mx) with (Pos.compare mx mx).
    now rewrite Pos.compare_refl.
  - (* two finite floats *)
    apply valid_finite in Hx as (Hcx & Hmx & Hex).
    apply valid_finite in Hy as (Hcy & Hmy & Hey).
    unfold SFadd, cond_Zopp.
    change (Zpos ?a + Zpos ?b) with (Zpos (a + b)). cbn [binary_normalize].
    apply ge_finito_ltb, round_up; [exact Hcx|lia|lia|].
    rewrite Pos2Z.inj_add, shl_align_min. lia.
Qed.

(** Subtracting a positive float does not give more. *)
Lemma SFsub_le x y :
  SpecFloat.valid_binary prec emax x = true -> SpecFloat.valid_binary prec emax y = true ->
  no_negativo x = true -> SFltb (S754_zero false) y = true ->
  SFltb x (SFsub prec emax x y) = false.
Proof.
  destruct x as [[]|[]| |[] mx ex]; try discriminate;
    destruct y as [[]|[]| |[] my ey]; try discriminate; intros Hx Hy _ _;
    try reflexivity.
  apply valid_finite in Hx as (Hcx & Hmx & Hex).
  apply valid_finite in Hy as (Hcy & Hmy & Hey).
  unfold SFsub, cond_Zopp.
  pose proof (shl_align_min mx ex ey) as Ha.
  destruct (Zpos (fst (shl_align mx ex (Z.min ex ey)))
            - Zpos (fst (shl_align my ey (Z.min ex ey)))) as [|M|M] eqn:HD.
  - reflexivity.
  - cbn [binary_normalize].
    apply le_finito_ltb, round_down; [exact Hcx|lia|lia|lia|lia].
  - cbn [binary_normalize].
    pose proof (binary_round_signo true M (Z.min ex ey)) as Hs.
    destruct (binary_round prec emax true M (Z.min ex ey)) as [[]|[]| |[]];
      cbn in Hs; try discriminate; try easy.
Qed.

Lemma SFltb_positivos m1 e1 m2 e2 :
  SFltb (S754_finite false m1 e1) (S754_finite false m2 e2) = true ->
  match Z.compare e1 e2 with
  | Lt => Lt
  | Gt => Gt
  | Eq => Pos.compare_cont Eq m1 m2
  end = Lt.
Proof.
  unfold SFltb. cbn.
  destruct (e1 ?= e2); try easy. now destruct (Pos.compare_cont Eq m1 m2).
Qed.

Lemma SFltb_negativos m1 e1 m2 e2 :
  SFltb (S754_finite true m1 e1) (S754_finite true m2 e2) = true ->
  match Z.compare e1 e2 with
  | Lt => Lt
  | Gt => Gt
  | Eq => Pos.compare_cont Eq m1 m2
  end = Gt.
Proof.
  unfold SFltb. cbn.
  destruct (e1 ?= e2); try easy. now destruct (Pos.compare_cont Eq m1 m2).
Qed.

(** The difference of a float and a greater one is not positive. *)
Lemma SFsub_lt x y :
  SpecFloat.valid_binary prec emax x = true ->
  SpecFloat.valid_binary prec emax y = true ->
  SFltb x y = true ->
  SFltb (S754_zero false) (SFsub prec emax x y) = false.
Proof.
  destruct x as [[]|[]| |[] mx ex]; destruct y as [[]|[]| |[] my ey];
    intros Hx Hy Hlt; try discriminate; try reflexivity;
    apply valid_finite in Hx as (Hcx & Hmx & Hex);
    apply valid_finite in Hy as (Hcy & Hmy & Hey);
    unfold SFsub, cond_Zopp; apply binary_normalize_no_positivo;
    pose proof (shl_align_min mx ex ey) as Ha;
    pose proof (shl_align_min' my ex ey) as Hb;
    pose proof (compare_canonico mx ex my ey Hcx Hcy) as Hc;
    rewrite <- Ha, <- Hb in Hc.
  - (* both negative *)
    rewrite (SFltb_negativos _ _ _ _ Hlt) in Hc. symmetry in Hc.
    match type of Hc with (?a ?= ?b) = Gt => change (a > b) in Hc end.
    change (IntDef.Z.min ex ey) with (Z.min ex ey). clear - Hc. lia.
  - (* x negative, y positive *)
    clear. lia.
  - (* both positive *)
    rewrite (SFltb_positivos _ _ _ _ Hlt) in Hc. symmetry in Hc.
    match type of Hc with (?a ?= ?b) = Lt => change (a < b) in Hc end.
    change (IntDef.Z.min ex ey) with (Z.min ex ey). clear - Hc. lia.
Qed.

(** *** A value below a float, and a value that needs no rounding *)

(** Rounding a value that is below a float in canonical form does not give
    more than that float. *)
Lemma round_down_aux mx ex M e lx :
  fexp (Zpos (digits2_pos mx) + ex) = ex -> ex <= emax - prec ->
  0 <= M -> e <= ex -> M < Zpos mx * 2 ^ (ex - e) ->
  le_finito (binary_round_aux prec emax false M e lx) mx ex.
Proof.
  intros Hcan Hmax HM Hle Hval.
  destruct (binary_round_aux_spec false M e lx HM) as (m1 & Hm1 & ->).
  set (F := Z.max e (fexp (Zdigits2 M + e))) in *.
  assert (F <= ex) as HexF.
  { assert (fexp (Zdigits2 M + e) <= ex); [|lia].
    rewrite <- Hcan. apply fexp_mono.
    destruct M as [|p|p]; [cbn [Zdigits2]; lia| |lia]. cbn [Zdigits2].
    apply (digits_le p mx e ex e); try lia. rewrite Z.sub_diag, Z.pow_0_r. lia. }
  assert (e <= F) as HeF by lia.
  assert (0 <= M / 2 ^ (F - e)) as Hq0
    by (apply Z.div_pos; [lia|apply pow2_pos'; lia]).
  assert (M / 2 ^ (F - e) < Zpos mx * 2 ^ (ex - F)) as Hq.
  { apply Z.div_lt_upper_bound; [apply pow2_pos'; lia|].
    replace (2 ^ (F - e) * (Zpos mx * 2 ^ (ex - F)))
      with (Zpos mx * 2 ^ (ex - e)); [lia|].
    replace (ex - e) with ((F - e) + (ex - F)) by lia.
    rewrite Z.pow_add_r by lia. ring. }
  cbv zeta. destruct m1 as [|p1|p1]; try lia; [exact I|]. cbn [Zdigits2].
  set (e2 := Z.max F (fexp (Zpos (digits2_pos p1) + F))).
  assert (e2 <= ex) as He2.
  { assert (fexp (Zpos (digits2_pos p1) + F) <= ex); [|lia].
    rewrite <- Hcan. apply fexp_mono.
    apply (digits_le p1 mx F ex F); try lia. rewrite Z.sub_diag, Z.pow_0_r. lia. }
  assert (0 <= Zpos p1 / 2 ^ (e2 - F)) as Hm20
    by (apply Z.div_pos; [lia|apply pow2_pos'; lia]).
  assert (Zpos p1 / 2 ^ (e2 - F) <= Zpos mx * 2 ^ (ex - e2)) as Hm2.
  { apply Z.div_le_upper_bound; [apply pow2_pos'; lia|].
    replace (2 ^ (e2 - F) * (Zpos mx * 2 ^ (ex - e2)))
      with (Zpos mx * 2 ^ (ex - F)); [lia|].
    replace (ex - F) with ((ex - e2) + (e2 - F)) by lia.
    rewrite Z.pow_add_r by lia. ring. }
  destruct (Zpos p1 / 2 ^ (e2 - F)) as [|p2|p2]; try lia; [exact I|].
  unfold redondeado. replace (e2 <=? emax - prec) with true
    by (symmetry; apply Z.leb_le; lia).
  cbn [le_finito]. destruct (Z.eq_dec e2 ex) as [Heq|Hne]; [right|left; lia].
  split; [easy|]. rewrite Heq, Z.sub_diag, Z.pow_0_r in Hm2. lia.
Qed.

Lemma shr_1_exacto mrs c :
  0 <= c -> shr_m mrs = 2 * c -> shr_r mrs = false -> shr_s mrs = false ->
  shr_1 mrs = Build_shr_record c false false.
Proof.
  destruct mrs as [m r s]. cbn [shr_m shr_r shr_s]. intros Hc -> -> ->.
  destruct c as [|q|q]; [reflexivity|reflexivity|lia].
Qed.

Lemma iter_pos_shr_1_exacto p : forall mrs c,
  0 <= c -> shr_m mrs = c * 2 ^ Zpos p ->
  shr_r mrs = false -> shr_s mrs = false ->
  SpecFloat.iter_pos shr_1 p mrs = Build_shr_record c false false.
Proof.
  induction p as [p IH|p IH|]; intros mrs c Hc Hm Hr Hs; simpl SpecFloat.iter_pos.
  - pose proof (pow2_pos' (Zpos p) ltac:(lia)) as Hp.
    assert (shr_1 mrs = Build_shr_record (c * 2 ^ Zpos p * 2 ^ Zpos p) false false)
      as ->.
    { apply shr_1_exacto; [nia| |easy|easy].
      rewrite Hm. replace (Zpos p~1) with (1 + Zpos p + Zpos p) by lia.
      rewrite !Z.pow_add_r by lia. simpl (2 ^ 1). ring. }
    rewrite (IH (Build_shr_record (c * 2 ^ Zpos p * 2 ^ Zpos p) false false)
               (c * 2 ^ Zpos p));
      [|nia|reflexivity|reflexivity|reflexivity].
    apply IH; [easy|reflexivity|reflexivity|reflexivity].
  - pose proof (pow2_pos' (Zpos p) ltac:(lia)) as Hp.
    rewrite (IH mrs (c * 2 ^ Zpos p)); [|nia| |easy|easy].
    + apply IH; [easy|reflexivity|reflexivity|reflexivity].
    + rewrite Hm. replace (Zpos p~0) with (Zpos p + Zpos p) by lia.
      rewrite !Z.pow_add_r by lia. ring.
  - apply shr_1_exacto; [easy| |easy|easy]. rewrite Hm. simpl (2 ^ 1). ring.
Qed.

(** A mantissa that only carries zeros below the exponent of a float in
    canonical form rounds to that float. *)
Lemma binary_round_aux_exacto mx ex k (M : positive) :
  fexp (Zpos (digits2_pos mx) + ex) = ex -> ex <= emax - prec ->
  0 <= k -> Zpos M = Zpos mx * 2 ^ k ->
  binary_round_aux prec emax false (Zpos M) (ex - k) loc_Exact
  = S754_finite false mx ex.
Proof.
  intros Hcan Hmax Hk HM.
  assert (Zpos (digits2_pos M) + (ex - k) = Zpos (digits2_pos mx) + ex) as Hd.
  { apply Z.le_antisymm.
    - apply (digits_le M mx (ex - k) ex (ex - k)); try lia.
      rewrite Z.sub_diag, Z.pow_0_r, HM. replace (ex - (ex - k)) with k by lia. lia.
    - apply (digits_le mx M ex (ex - k) (ex - k)); try lia.
      rewrite Z.sub_diag, Z.pow_0_r, HM. replace (ex - (ex - k)) with k by lia. lia. }
  assert (shr_fexp prec emax (Zpos M) (ex - k) loc_Exact
          = (Build_shr_record (Zpos mx) false false, ex)) as H1.
  { unfold shr_fexp. cbn [Zdigits2]. rewrite Hd, Hcan.
    replace (ex - (ex - k)) with k by lia. unfold shr.
    destruct k as [|p|p]; [|(* pos *)|lia].
    - cbn [shr_record_of_loc]. rewrite Z.pow_0_r, Z.mul_1_r in HM.
      rewrite HM, Z.sub_0_r. reflexivity.
    - rewrite (iter_pos_shr_1_exacto p _ (Zpos mx)); try easy.
      f_equal. lia. }
  assert (shr_fexp prec emax (Zpos mx) ex loc_Exact
          = (Build_shr_record (Zpos mx) false false, ex)) as H2.
  { unfold shr_fexp. cbn [Zdigits2]. rewrite Hcan, Z.sub_diag. reflexivity. }
  unfold binary_round_aux. rewrite H1.
  cbn [shr_m loc_of_shr_record round_nearest_even]. rewrite H2. cbn [shr_m].
  now rewrite (proj2 (Z.leb_le _ _) Hmax).
Qed.

(** *** Between zero and a float *)

Lemma le_finito_entre r mx ex : le_finito r mx ex -> entre_cero_y r mx ex.
Proof. destruct r as [[]|[]| |[]]; simpl; easy. Qed.

Lemma entre_cero_y_leb r mx ex :
  entre_cero_y r mx ex ->
  no_negativo r = true /\ SFleb r (S754_finite false mx ex) = true.
Proof.
  destruct r as [[]|[]| |[] p e2]; cbn; try easy. intros H. split; [easy|].
  unfold SFleb. cbn. destruct (Z.compare_spec e2 ex); [|reflexivity|lia].
  change (Pos.compare_cont Eq p mx) with (Pos.compare p mx).
  destruct (Pos.compare_spec p mx); try easy. lia.
Qed.

Lemma leb_entre_cero_y r mx ex :
  no_negativo r = true -> SFleb r (S754_finite false mx ex) = true ->
  entre_cero_y r mx ex.
Proof.
  destruct r as [[]|[]| |[] p e2]; cbn; try easy. intros _.
  unfold SFleb. cbn. destruct (Z.compare_spec e2 ex); [|lia|easy].
  change (Pos.compare_cont Eq p mx) with (Pos.compare p mx).
  destruct (Pos.compare_spec p mx); try easy; intros _; right; lia.
Qed.

(** A float that is not negative and is at most a positive finite float is
    below it or is that float. *)
Lemma leb_ltb_o_igual r mx ex :
  no_negativo r = true -> SFleb r (S754_finite false mx ex) = true ->
  SFltb r (S754_finite false mx ex) = true \/ r = S754_finite false mx ex.
Proof.
  destruct r as [[]|[]| |[] p e2]; cbn; try easy; try (now left). intros _.
  unfold SFleb, SFltb. cbn. destruct (Z.compare_spec e2 ex); [|now left|easy].
  change (Pos.compare_cont Eq p mx) with (Pos.compare p mx).
  destruct (Pos.compare_spec p mx); try easy; [|now left].
  intros _. right. now subst.
Qed.

Section Uno.
(** The float one: mantissa [pu] and exponent [eu]. *)
Variables (pu : positive) (eu : Z).
Hypothesis Hcu : fexp (Zpos (digits2_pos pu) + eu) = eu.
Hypothesis Hmu : eu <= emax - prec.
Hypothesis Hvu : Zpos pu = 2 ^ (- eu).

Lemma eu_no_positivo : eu <= 0.
Proof.
  destruct (Z.le_gt_cases eu 0) as [H|H]; [easy|].
  rewrite Z.pow_neg_r in Hvu by lia. lia.
Qed.

Lemma digits_uno : 0 < Zpos (digits2_pos pu) + eu.
Proof.
  pose proof eu_no_positivo as H0.
  pose proof (digits2_pos_bounds pu) as [_ Hu]. rewrite Hvu in Hu.
  apply Z.pow_lt_mono_r_iff in Hu; lia.
Qed.

(** The quotient of a float that is not negative by a greater one is at
    most one. *)
Lemma SFdiv_entre x my ey :
  SpecFloat.valid_binary prec emax x = true ->
  SpecFloat.valid_binary prec emax (S754_finite false my ey) = true ->
  no_negativo x = true -> SFltb x (S754_finite false my ey) = true ->
  entre_cero_y (SFdiv prec emax x (S754_finite false my ey)) pu eu.
Proof.
  destruct x as [[]|[]| |[] mx ex]; try discriminate; intros Hx Hy _ Hlt;
    try exact I.
  apply valid_finite in Hx as (Hcx & Hmx & Hex).
  apply valid_finite in Hy as (Hcy & Hmy & Hey).
  pose proof eu_no_positivo as H0. pose proof digits_uno as Hdu.
  pose proof (compare_canonico mx ex my ey Hcx Hcy) as Hc.
  rewrite (SFltb_positivos _ _ _ _ Hlt) in Hc. symmetry in Hc.
  match type of Hc with (?a ?= ?b) = Lt => change (a < b) in Hc end.
  assert (Zpos (digits2_pos mx) + ex <= Zpos (digits2_pos my) + ey) as Hd
    by (apply (digits_le mx my ex ey (Z.min ex ey)); lia).
  unfold SFdiv, SFdiv_core_binary. cbn [Zdigits2 xorb].
  change IntDef.Z.min with Z.min. change IntDef.Z.shiftl with Z.shiftl.
  change IntDef.Z.div_eucl with Z.div_eucl.
  set (e' := Z.min (fexp (Zpos (digits2_pos mx) + ex - (Zpos (digits2_pos my) + ey)))
                   (ex - ey)).
  assert (e' <= eu) as He'.
  { assert (fexp (Zpos (digits2_pos mx) + ex - (Zpos (digits2_pos my) + ey)) <= eu);
      [|lia].
    rewrite <- Hcu. apply fexp_mono. lia. }
  assert (0 <= ex - ey - e') as Hs by lia.
  set (m' := match ex - ey - e' with
             | 0 => Zpos mx
             | Zpos _ => Z.shiftl (Zpos mx) (ex - ey - e')
             | Zneg _ => 0
             end).
  assert (m' = Zpos mx * 2 ^ (ex - ey - e')) as Hm'.
  { unfold m'. destruct (ex - ey - e') as [|s|s] eqn:Es; [|now rewrite Z.shiftl_mul_pow2|lia].
    rewrite Z.pow_0_r. lia. }
  pose proof (Z_div_mod m' (Zpos my) ltac:(lia)) as Hdm.
  destruct (Z.div_eucl m' (Zpos my)) as [q r]. destruct Hdm as [Hq Hr].
  assert (m' < Zpos my * 2 ^ (- e')) as Hval.
  { rewrite Hm'.
    set (c := Z.min ex ey) in *. set (t := c - ey - e').
    assert (0 <= t) as Ht by (unfold t, c; lia).
    replace (ex - ey - e') with ((ex - c) + t) by (unfold t; lia).
    replace (- e') with ((ey - c) + t) by (unfold t; lia).
    rewrite !Z.pow_add_r by (unfold c; lia).
    pose proof (pow2_pos' t Ht). nia. }
  pose proof (pow2_pos' (- e') ltac:(lia)) as Hpe.
  assert (0 <= m') as Hm0.
  { rewrite Hm'. pose proof (pow2_pos' _ Hs). nia. }
  assert (0 <= q) as Hq0 by nia.
  apply le_finito_entre, round_down_aux; try easy.
  rewrite Hvu, <- Z.pow_add_r by lia. replace (- eu + (eu - e')) with (- e') by lia.
  nia.
Qed.

(** The product of a positive finite float and a float between zero and
    one is between zero and the former. *)
Lemma SFmul_entre mx ex q :
  SpecFloat.valid_binary prec emax (S754_finite false mx ex) = true ->
  SpecFloat.valid_binary prec emax q = true ->
  entre_cero_y q pu eu ->
  entre_cero_y (SFmul prec emax (S754_finite false mx ex) q) mx ex.
Proof.
  intros Hx Hq Hent. apply valid_finite in Hx as (Hcx & Hmx & Hex).
  pose proof eu_no_positivo as H0.
  destruct q as [sq|sq| |[] mq eq]; try easy.
  apply valid_finite in Hq as (Hcq & Hmq & Heq).
  cbn [entre_cero_y] in Hent. cbn [SFmul xorb].
  assert (eq <= eu) as Hle by lia.
  destruct (Z.eq_dec eq eu) as [He|He];
    [destruct (Pos.eq_dec mq pu) as [Hm|Hm]|].
  - (* times one *)
    subst mq eq. replace (ex + eu) with (ex - (- eu)) by lia.
    assert (binary_round_aux prec emax false (Zpos (mx * pu)) (ex - - eu) loc_Exact
            = S754_finite false mx ex) as ->.
    { apply binary_round_aux_exacto; [easy|easy|lia|].
      rewrite Pos2Z.inj_mul, Hvu. reflexivity. }
    cbn. right. lia.
  - assert (Zpos mq < 2 ^ (- eq)) as Hval.
    { subst eq. rewrite <- Hvu. assert (Zpos mq <> Zpos pu) by congruence. lia. }
    apply le_finito_entre, round_down_aux; try easy; try lia.
    replace (ex - (ex + eq)) with (- eq) by lia. rewrite Pos2Z.inj_mul. nia.
  - assert (Zpos mq < 2 ^ (- eq)) as Hval.
    { pose proof (compare_canonico mq eq pu eu Hcq Hcu) as Hc.
      replace (eq ?= eu) with Lt in Hc by (symmetry; apply Z.compare_lt_iff; lia).
      symmetry in Hc.
      match type of Hc with (?a ?= ?b) = Lt => change (a < b) in Hc end.
      replace (Z.min eq eu) with eq in Hc by lia.
      rewrite Z.sub_diag, Z.pow_0_r, Z.mul_1_r, Hvu, <- Z.pow_add_r in Hc by lia.
      now replace (- eu + (eu - eq)) with (- eq) in Hc by lia. }
    apply le_finito_entre, round_down_aux; try easy; try lia.
    replace (ex - (ex + eq)) with (- eq) by lia. rewrite Pos2Z.inj_mul. nia.
Qed.

End Uno.

(** Taking from a positive finite float a float between zero and it
    leaves a float between zero and it. *)
Lemma SFsub_entre mx ex y :
  SpecFloat.valid_binary prec emax (S754_finite false mx ex) = true ->
  SpecFloat.valid_binary prec emax y = true ->
  entre_cero_y y mx ex ->
  entre_cero_y (SFsub prec emax (S754_finite false mx ex) y) mx ex.
Proof.
  intros Hx Hy Hent. apply valid_finite in Hx as (Hcx & Hmx & Hex).
  destruct y as [sy|sy| |[] my ey]; try easy.
  - cbn. right. lia.
  - apply valid_finite in Hy as (Hcy & Hmy & Hey). cbn [entre_cero_y] in Hent.
    unfold SFsub, cond_Zopp. change IntDef.Z.min with Z.min.
    pose proof (shl_align_min mx ex ey) as Ha.
    pose proof (shl_align_min' my ex ey) as Hb.
    assert (Zpos my * 2 ^ (ey - Z.min ex ey) <= Zpos mx * 2 ^ (ex - Z.min ex ey))
      as Hval.
    { destruct (Z.eq_dec ey ex) as [He|He].
      - subst ey. rewrite Z.min_id, Z.sub_diag, Z.pow_0_r. lia.
      - pose proof (compare_canonico my ey mx ex Hcy Hcx) as Hc.
        replace (ey ?= ex) with Lt in Hc by (symmetry; apply Z.compare_lt_iff; lia).
        symmetry in Hc.
        match type of Hc with (?a ?= ?b) = Lt => change (a < b) in Hc end.
        rewrite (Z.min_comm ey ex) in Hc. lia. }
    rewrite <- Ha, <- Hb in Hval.
    destruct (Zpos (fst (shl_align mx ex (Z.min ex ey)))
              - Zpos (fst (shl_align my ey (Z.min ex ey)))) as [|M|M] eqn:HD;
      [exact I| |lia].
    cbn [binary_normalize].
    apply le_finito_entre, round_down; [exact Hcx|lia|lia|lia|lia].
Qed.

(** The same from a zero: the discount and the price are zeros. *)
Lemma SFsub_SFmul_cero sx q pu eu :
  entre_cero_y q pu eu ->
  no_negativo (SFsub prec emax (S754_zero sx) (SFmul prec emax (S754_zero sx) q))
  = true
  /\ SFleb (SFsub prec emax (S754_zero sx) (SFmul prec emax (S754_zero sx) q))
           (S754_zero sx) = true.
Proof. destruct q as [[]|[]| |[] mq eq], sx; cbn; easy. Qed.

End SpecFloatFacts.

(** ** The order of floats *)

(** The comparison of two finite floats of the same sign, by exponent and
    then by mantissa. *)
Lemma cmp_lt m1 e1 m2 e2 :
  match e1 ?= e2 with
  | Eq => Pos.compare_cont Eq m1 m2
  | Lt => Lt
  | Gt => Gt
  end = Lt <-> e1 < e2 \/ (e1 = e2 /\ Zpos m1 < Zpos m2).
Proof.
  change (Pos.compare_cont Eq m1 m2) with (Pos.compare m1 m2).
  destruct (Z.compare_spec e1 e2); destruct (Pos.compare_spec m1 m2);
    split; intros; try easy; try lia.
Qed.

Lemma cmp_gt m1 e1 m2 e2 :
  match e1 ?= e2 with
  | Eq => CompOpp (Pos.compare_cont Eq m1 m2)
  | Lt => Gt
  | Gt => Lt
  end = Lt <-> e2 < e1 \/ (e1 = e2 /\ Zpos m2 < Zpos m1).
Proof.
  change (Pos.compare_cont Eq m1 m2) with (Pos.compare m1 m2).
  destruct (Z.compare_spec e1 e2); destruct (Pos.compare_spec m1 m2);
    cbn; split; intros; try easy; try lia.
Qed.

Lemma SFltb_finitos s1 m1 e1 s2 m2 e2 :
  SFltb (S754_finite s1 m1 e1) (S754_finite s2 m2 e2) = true <->
  match s1, s2 with
  | true, false => True
  | false, true => False
  | false, false => e1 < e2 \/ (e1 = e2 /\ Zpos m1 < Zpos m2)
  | true, true => e2 < e1 \/ (e1 = e2 /\ Zpos m2 < Zpos m1)
  end.
Proof.
  unfold SFltb. cbn. destruct s1, s2; try easy.
  - rewrite <- cmp_gt.
    destruct (match e1 ?= e2 with
              | Eq => CompOpp (Pos.compare_cont Eq m1 m2)
              | Lt => Gt
              | Gt => Lt
              end); easy.
  - rewrite <- cmp_lt.
    destruct (match e1 ?= e2 with
              | Eq => Pos.compare_cont Eq m1 m2
              | Lt => Lt
              | Gt => Gt
              end); easy.
Qed.

Lemma SFltb_asym x y : SFltb x y = true -> SFltb y x = false.
Proof.
  destruct x as [s1|s1| |s1 m1 e1], y as [s2|s2| |s2 m2 e2];
    try (try destruct s1; try destruct s2; easy).
  intros H. apply SFltb_finitos in H.
  destruct (SFltb (S754_finite s2 m2 e2) (S754_finite s1 m1 e1)) eqn:H'; [|easy].
  apply SFltb_finitos in H'. destruct s1, s2; try easy; lia.
Qed.

Lemma SFltb_trans x y z : SFltb x y = true -> SFltb y z = true -> SFltb x z = true.
Proof.
  destruct x as [s1|s1| |s1 m1 e1], y as [s2|s2| |s2 m2 e2],
           z as [s3|s3| |s3 m3 e3];
    try (try destruct s1; try destruct s2; try destruct s3; easy).
  intros H1 H2. apply SFltb_finitos in H1, H2. apply SFltb_finitos.
  destruct s1, s2, s3; try easy; lia.
Qed.

(** ** The primitive floats *)

Section Primitivos.

Lemma leb_0_no_negativo x :
  (0 <=? x)%float = no_negativo (Prim2SF x).
Proof. rewrite leb_spec. apply SFleb_0. Qed.

Lemma float_add_no_negativo x y :
  (0 <=? x)%float = true -> (0 <=? y)%float = true ->
  (0 <=? x + y)%float = true.
Proof.
  rewrite !leb_0_no_negativo, add_spec. apply SFadd_no_negativo.
Qed.

Lemma float_add_ge x y :
  (0 <=? x)%float = true -> (0 <=? y)%float = true ->
  (x + y <? x)%float = false.
Proof.
  rewrite !leb_0_no_negativo, ltb_spec, add_spec.
  apply SFadd_ge; (reflexivity || apply Prim2SF_valid).
Qed.

Lemma float_sub_le x y :
  (0 <=? x)%float = true -> (0 <? y)%float = true ->
  (x <? x - y)%float = false.
Proof.
  rewrite leb_0_no_negativo, !ltb_spec, sub_spec.
  apply SFsub_le; (reflexivity || apply Prim2SF_valid).
Qed.

Lemma float_sub_lt x y :
  (x <? y)%float = true -> (0 <? x - y)%float = false.
Proof.
  rewrite !ltb_spec, sub_spec.
  apply SFsub_lt; (reflexivity || apply Prim2SF_valid).
Qed.

Lemma leb_0_not_ltb x : (0 <=? x)%float = true -> (x <? 0)%float = false.
Proof.
  rewrite leb_spec, ltb_spec. change (Prim2SF 0) with (S754_zero false).
  now destruct (Prim2SF x) as [[]|[]| |[]].
Qed.

Lemma ltb_0_leb x : (0 <? x)%float = true -> (0 <=? x)%float = true.
Proof.
  rewrite leb_spec, ltb_spec. change (Prim2SF 0) with (S754_zero false).
  now destruct (Prim2SF x) as [[]|[]| |[]].
Qed.

Lemma SF2Prim_no_negativo s :
  no_negativo s = true -> no_negativo (Prim2SF (SF2Prim s)) = true.
Proof.
  destruct s as [[]|[]| |[] m e]; try discriminate; intros _; try reflexivity.
  unfold SF2Prim. rewrite Z_ldexp_spec, of_uint63_spec.
  pose proof (Uint63.to_Z_bounded (Uint63.of_Z (Zpos m))) as [Hn _].
  pose proof (binary_normalize_no_negativo prec emax _ 0 Hn) as H.
  destruct (binary_normalize prec emax _ 0 false) as [[]|[]| |[] mx ex];
    try discriminate; try reflexivity.
  unfold SFldexp. apply con_signo_false. apply binary_round_signo.
Qed.

Lemma float_of_int_no_negativo n :
  0 <= n -> (0 <=? float_of_int n)%float = true.
Proof.
  intros Hn. rewrite leb_0_no_negativo. apply SF2Prim_no_negativo.
  now apply binary_normalize_no_negativo.
Qed.

Lemma float_mul_no_negativo x y my ey :
  (0 <=? x)%float = true -> Prim2SF y = S754_finite false my ey ->
  (0 <=? x * y)%float = true.
Proof.
  rewrite !leb_0_no_negativo, mul_spec. intros Hx ->.
  now apply SFmul_no_negativo.
Qed.

(** A discount: a part [p] per cent of a price [x] that is finite and not
    negative, taken from it, leaves a price that is not negative and not
    above [x]. *)
Lemma float_descuento x p :
  (0 <=? x)%float = true -> (x <? infinity)%float = true ->
  (0 <=? p)%float = true -> (p <=? 100)%float = true ->
  (0 <=? x - x * (p / 100))%float = true
  /\ (x - x * (p / 100) <=? x)%float = true.
Proof.
  intros Hx Hfin Hp Hp100.
  rewrite leb_0_no_negativo in Hx, Hp. rewrite ltb_spec in Hfin.
  rewrite leb_spec in Hp100.
  change (Prim2SF infinity) with (S754_infinity false) in Hfin.
  change (Prim2SF 100) with (S754_finite false 7036874417766400 (-46)) in Hp100.
  rewrite leb_0_no_negativo, leb_spec.
  assert (SpecFloat.valid_binary prec emax (Prim2SF (p / 100)) = true) as Hvq
    by apply Prim2SF_valid.
  assert (SpecFloat.valid_binary prec emax (Prim2SF (x * (p / 100))) = true) as Hvd
    by apply Prim2SF_valid.
  pose proof (Prim2SF_valid x) as Hvx. pose proof (Prim2SF_valid p) as Hvp.
  rewrite sub_spec. rewrite mul_spec in *. rewrite div_spec in *.
  change (Prim2SF 100) with (S754_finite false 7036874417766400 (-46)) in *.
  unfold SF64sub, SF64mul, SF64div in *.
  assert (entre_cero_y
            (SFdiv prec emax (Prim2SF p) (S754_finite false 7036874417766400 (-46)))
            4503599627370496 (-52)) as Hq.
  { destruct (leb_ltb_o_igual _ _ _ Hp Hp100) as [Hlt| ->].
    - apply (SFdiv_entre prec emax eq_refl 4503599627370496 (-52));
        first [assumption|reflexivity|vm_compute; discriminate].
    - vm_compute. right. split; [reflexivity|discriminate]. }
  destruct (Prim2SF x) as [sx|[]| |[] mx ex]; try discriminate.
  - apply (SFsub_SFmul_cero prec emax sx _ 4503599627370496 (-52) Hq).
  - apply entre_cero_y_leb. apply (SFsub_entre prec emax eq_refl); try assumption.
    apply (SFmul_entre prec emax eq_refl 4503599627370496 (-52));
      first [assumption|reflexivity|vm_compute; discriminate].
Qed.

Lemma float_ltb_asym x y : (x <? y)%float = true -> (y <? x)%float = false.
Proof. rewrite !ltb_spec. apply SFltb_asym. Qed.

Lemma float_ltb_trans x y z :
  (x <? y)%float = true -> (y <? z)%float = true -> (x <? z)%float = true.
Proof. rewrite !ltb_spec. apply SFltb_trans. Qed.

Lemma float_ltb_nan x : (nan <? x)%float = false /\ (x <? nan)%float = false.
Proof.
  rewrite !ltb_spec. change (Prim2SF nan) with S754_nan.
  split; [reflexivity|]. now destruct (Prim2SF x) as [[]|[]| |[]].
Qed.

End Primitivos.

(* ===================================================================== *)
(** * Properties of the library example *)
(* ===================================================================== *)

(** ** Running the monad *)

Lemma bind_Ok {A B} (m : M A) (k : A → M B) w a w1 :
  m w = Ok (a, w1) → bind m k w = k a w1.
Proof. intros H. unfold bind. by rewrite H. Qed.

Lemma bind_Ok_inv {A B} (m : M A) (k : A → M B) w b w' :
  bind m k w = Ok (b, w') → ∃ a w1, m w = Ok (a, w1) ∧ k a w1 = Ok (b, w').
Proof.
  unfold bind. destruct (m w) as [[a w1]|e]; [|discriminate]. eauto.
Qed.

Lemma leer_libro_Ok w r l : libros w !! r = Some l → leer_libro r w = Ok (l, w).
Proof. intros H. unfold leer_libro. by rewrite H. Qed.

Lemma leer_usuario_Ok w r u : usuarios w !! r = Some u → leer_usuario r w = Ok (u, w).
Proof. intros H. unfold leer_usuario. by rewrite H. Qed.

Lemma leer_lista_Ok w r l : listas w !! r = Some l → leer_lista r w = Ok (l, w).
Proof. intros H. unfold leer_lista. by rewrite H. Qed.

Lemma leer_libro_inv w r l w' :
  leer_libro r w = Ok (l, w') → libros w !! r = Some l ∧ w' = w.
Proof. unfold leer_libro. destruct (libros w !! r); naive_solver. Qed.

Lemma leer_usuario_inv w r u w' :
  leer_usuario r w = Ok (u, w') → usuarios w !! r = Some u ∧ w' = w.
Proof. unfold leer_usuario. destruct (usuarios w !! r); naive_solver. Qed.

Lemma leer_lista_inv w r l w' :
  leer_lista r w = Ok (l, w') → listas w !! r = Some l ∧ w' = w.
Proof. unfold leer_lista. destruct (listas w !! r); naive_solver. Qed.

Lemma prestar_disponible w self usuario l :
  libros w !! self = Some l → _disponible l = true →
  prestar self usuario w
  = Ok (true, con_libros <[self := set_prestamo l false (Some (ahora w)) (Some usuario)]> (tras_lectura w)).
Proof.
  intros Hl Hd. unfold prestar.
  rewrite (bind_Ok _ _ _ _ _ (leer_libro_Ok _ _ _ Hl)), Hd. reflexivity.
Qed.

Lemma prestar_no_disponible w self usuario l :
  libros w !! self = Some l → _disponible l = false →
  prestar self usuario w = Ok (false, w).
Proof.
  intros Hl Hd. unfold prestar.
  rewrite (bind_Ok _ _ _ _ _ (leer_libro_Ok _ _ _ Hl)), Hd. reflexivity.
Qed.

Lemma prestar_inv w self usuario b w' :
  prestar self usuario w = Ok (b, w') →
  ∃ l, libros w !! self = Some l ∧ b = _disponible l
       ∧ w' = (if b then con_libros <[self := set_prestamo l false (Some (ahora w)) (Some usuario)]> (tras_lectura w)
               else w).
Proof.
  intros H. pose proof H as H'. unfold prestar in H'.
  apply bind_Ok_inv in H' as (l & w1 & [Hl ->]%leer_libro_inv & _).
  exists l. split; [done|].
  destruct (_disponible l) eqn:Hd.
  - rewrite (prestar_disponible _ _ _ _ Hl Hd) in H. by injection H as <- <-.
  - rewrite (prestar_no_disponible _ _ _ _ Hl Hd) in H. by injection H as <- <-.
Qed.

(** C4.  [prestar] succeeds exactly when the book is available.  Then the
    call returns [True] and the book, read back from the store, is
    unavailable, has the clock reading as loan timestamp and the given user
    as holder, and is otherwise as it was; nothing else changes but the
    clock, which was read once.  On a book on loan the call returns
    [False], raises nothing and changes nothing; so a second [prestar]
    right after a first one returns [False], and the book still has the
    holder and the timestamp of the first. *)
Theorem C4_prestar (w : Mundo) (self usuario : ref) (l : Libro) :
  libros w !! self = Some l →
  (_disponible l = true →
     prestar self usuario w
     = Ok (true, con_libros <[self := set_prestamo l false (Some (ahora w)) (Some usuario)]> (tras_lectura w)))
  ∧ (_disponible l = true →
       ∃ w1 l1,
         prestar self usuario w = Ok (true, w1)
         ∧ libros w1 !! self = Some l1
         ∧ _disponible l1 = false
         ∧ _fecha_prestamo l1 = Some (ahora w)
         ∧ _usuario_actual l1 = Some usuario
         ∧ clase_libro l1 = clase_libro l ∧ _titulo l1 = _titulo l
         ∧ _autor l1 = _autor l ∧ _isbn l1 = _isbn l
         ∧ _año_publicacion l1 = _año_publicacion l
         ∧ (∀ r, r ≠ self → libros w1 !! r = libros w !! r)
         ∧ usuarios w1 = usuarios w ∧ listas w1 = listas w
         ∧ reloj w1 = reloj w ∧ lecturas w1 = S (lecturas w))
  ∧ (_disponible l = false → prestar self usuario w = Ok (false, w))
  ∧ (∀ b w1 otro, prestar self usuario w = Ok (b, w1) →
       prestar self otro w1 = Ok (false, w1))
  ∧ (_disponible l = true → ∀ otro,
       ∃ w1 w2 l2,
         prestar self usuario w = Ok (true, w1)
         ∧ prestar self otro w1 = Ok (false, w2)
         ∧ libros w2 !! self = Some l2
         ∧ _disponible l2 = false
         ∧ _fecha_prestamo l2 = Some (ahora w)
         ∧ _usuario_actual l2 = Some usuario).
Proof.
  intros Hl. split; [|split; [|split; [|split]]].
  - by apply prestar_disponible.
  - intros Hd. eexists _, _. split; [by apply prestar_disponible|].
    split; [apply lookup_insert_eq|].
    repeat (split; [reflexivity|]).
    split; [|done]. intros r Hr. simpl. by rewrite lookup_insert_ne.
  - by apply prestar_no_disponible.
  - intros b w1 otro H.
    destruct (_disponible l) eqn:Hd.
    + rewrite (prestar_disponible _ _ _ _ Hl Hd) in H. injection H as <- <-.
      eapply prestar_no_disponible; [apply lookup_insert_eq|done].
    + rewrite (prestar_no_disponible _ _ _ _ Hl Hd) in H. injection H as <- <-.
      by apply (prestar_no_disponible _ _ _ _ Hl Hd).
  - intros Hd otro. eexists _, _, _.
    split; [by apply prestar_disponible|].
    split; [eapply prestar_no_disponible; [apply lookup_insert_eq|done]|].
    split; [apply lookup_insert_eq|]. done.
Qed.

Lemma devolver_prestado w self l f :
  libros w !! self = Some l → _disponible l = false → _fecha_prestamo l = Some f →
  devolver self w
  = Ok ((Z.max 0 (days (ahora w - f) - calcular_dias_prestamo l), _usuario_actual l),
        con_libros <[self := set_prestamo l true None None]> (tras_lectura w)).
Proof.
  intros Hl Hd Hf. cbv [devolver bind leer_libro]. rewrite Hl, Hd. simpl.
  cbv [now bind]. rewrite Hf. reflexivity.
Qed.

Lemma devolver_disponible w self l :
  libros w !! self = Some l → _disponible l = true →
  devolver self w = Ok ((0, None), w).
Proof.
  intros Hl Hd. cbv [devolver bind leer_libro]. rewrite Hl, Hd. reflexivity.
Qed.

(** C1.  [devolver] on a book on loan since [f], when the clock reads [N]
    whole days after [f]: it returns [max(0, N - allowed)] with the user who
    held the book, where allowed is 14 days for a [LibroFisico] and 7 for a
    [LibroDigital], and the book is available again, with no timestamp and no
    holder.  On a book that is not on loan it returns [(0, None)], raises
    nothing and changes nothing. *)
Theorem C1_devolver (w : Mundo) (self : ref) (l : Libro) :
  libros w !! self = Some l →
  (∀ f N, _disponible l = false → _fecha_prestamo l = Some f →
     days (ahora w - f) = N →
     ∃ w', devolver self w
           = Ok ((Z.max 0 (N - match clase_libro l with
                               | LibroFisico => 14
                               | LibroDigital => 7
                               end),
                  _usuario_actual l), w')
       ∧ (N ≤ calcular_dias_prestamo l →
            Z.max 0 (N - calcular_dias_prestamo l) = 0)
       ∧ (calcular_dias_prestamo l < N →
            Z.max 0 (N - calcular_dias_prestamo l) = N - calcular_dias_prestamo l)
       ∧ ∃ l', libros w' !! self = Some l'
           ∧ _disponible l' = true ∧ _fecha_prestamo l' = None
           ∧ _usuario_actual l' = None)
  ∧ (_disponible l = true → devolver self w = Ok ((0, None), w)).
Proof.
  intros Hl. split.
  - intros f N Hd Hf <-. eexists. split; [|split; [|split]].
    + rewrite (devolver_prestado _ _ _ _ Hl Hd Hf). unfold calcular_dias_prestamo.
      reflexivity.
    + lia.
    + lia.
    + eexists. split; [apply lookup_insert_eq|done].
  - by apply devolver_disponible.
Qed.

(** ** Eligibility and borrowing *)

Lemma puede_prestar_Ok w self u l :
  usuarios w !! self = Some u → listas w !! _libros_prestados u = Some l →
  puede_prestar self w = Ok (elegible u l, w).
Proof.
  intros Hu Hl. cbv [puede_prestar bind leer_usuario leer_lista]. by rewrite Hu, Hl.
Qed.

Lemma puede_prestar_inv w self b w' :
  puede_prestar self w = Ok (b, w') →
  w' = w ∧ ∃ u l, usuarios w !! self = Some u
                  ∧ listas w !! _libros_prestados u = Some l ∧ b = elegible u l.
Proof.
  intros H. unfold puede_prestar in H.
  apply bind_Ok_inv in H as (u & w1 & [Hu ->]%leer_usuario_inv & H).
  apply bind_Ok_inv in H as (l & w1 & [Hl ->]%leer_lista_inv & H).
  cbv [ret] in H. injection H as <- <-. eauto 6.
Qed.

(** A float compares equal to [0] exactly when it is one of the two zeros. *)
Lemma float_eqb_0 (x : float) :
  (x =? 0)%float = true ↔ x = 0%float ∨ x = (-0)%float.
Proof.
  rewrite FloatAxioms.eqb_spec.
  change (Prim2SF 0) with (S754_zero false). split.
  - intros H. rewrite <- (SF2Prim_Prim2SF x).
    destruct (Prim2SF x) as [[]|[]| |[]]; try discriminate; auto.
  - by intros [-> | ->].
Qed.

(** C5.  [puede_prestar] returns [True] if and only if the user holds
    strictly fewer books than the limit of their class (3 for [Estudiante],
    10 for [Profesor]) and the accrued fine is exactly zero; with any other
    fine it returns [False].  It changes nothing. *)
Theorem C5_puede_prestar (w : Mundo) (self : ref) (u : Usuario) (l : list ref) :
  usuarios w !! self = Some u → listas w !! _libros_prestados u = Some l →
  ∃ b, puede_prestar self w = Ok (b, w)
     ∧ (b = true ↔
          Z.of_nat (length l) < match clase_usuario u with
                                | Estudiante => 3
                                | Profesor => 10
                                end
          ∧ (_multa_acumulada u = 0%float ∨ _multa_acumulada u = (-0)%float))
     ∧ ((_multa_acumulada u =? 0)%float = false → b = false).
Proof.
  intros Hu Hl. exists (elegible u l). split; [by apply puede_prestar_Ok|].
  unfold elegible, limite_prestamos. split.
  - rewrite andb_true_iff, Z.ltb_lt, float_eqb_0. done.
  - intros ->. apply andb_false_r.
Qed.

Lemma prestar_libro_no_elegible w self libro :
  puede_prestar self w = Ok (false, w) → prestar_libro self libro w = Ok (false, w).
Proof. intros H. unfold prestar_libro. by rewrite (bind_Ok _ _ _ _ _ H). Qed.

Lemma prestar_libro_elegible w self libro u l b :
  usuarios w !! self = Some u → listas w !! _libros_prestados u = Some l →
  libros w !! libro = Some b → elegible u l = true →
  prestar_libro self libro w
  = if _disponible b then Ok (true, tras_prestar_libro w self libro u l b)
    else Ok (false, w).
Proof.
  intros Hu Hl Hb He. unfold prestar_libro.
  rewrite (bind_Ok _ _ _ _ _ (puede_prestar_Ok _ _ _ _ Hu Hl)), He.
  destruct (_disponible b) eqn:Hd.
  - rewrite (bind_Ok _ _ _ _ _ (prestar_disponible _ _ _ _ Hb Hd)).
    cbv [bind leer_usuario leer_lista escribir_lista leer_libro now ret
         escribir_usuario con_libros con_listas con_usuarios tras_lectura ahora].
    simpl. rewrite Hu. simpl. rewrite Hl. simpl. rewrite lookup_insert_eq.
    reflexivity.
  - by rewrite (bind_Ok _ _ _ _ _ (prestar_no_disponible _ _ _ _ Hb Hd)).
Qed.

Lemma prestar_libro_inv w self libro r w' :
  prestar_libro self libro w = Ok (r, w') →
  ∃ u l, usuarios w !! self = Some u ∧ listas w !! _libros_prestados u = Some l
    ∧ (if r
       then elegible u l = true
            ∧ ∃ b, libros w !! libro = Some b ∧ _disponible b = true
                   ∧ w' = tras_prestar_libro w self libro u l b
       else w' = w).
Proof.
  intros H. pose proof H as H'. unfold prestar_libro in H'.
  apply bind_Ok_inv in H' as (e & w1 & Hp & H').
  pose proof Hp as Hp'.
  apply puede_prestar_inv in Hp' as (-> & u & l & Hu & Hl & ->).
  exists u, l. split; [done|split; [done|]].
  destruct (elegible u l) eqn:He.
  - apply bind_Ok_inv in H' as (p & w1 & (b & Hb & -> & _)%prestar_inv & _).
    rewrite (prestar_libro_elegible _ _ _ _ _ _ Hu Hl Hb He) in H.
    destruct (_disponible b) eqn:Hd; injection H as <- <-; eauto.
  - rewrite (prestar_libro_no_elegible _ _ _ Hp) in H. by injection H as <- <-.
Qed.

Lemma lookup_tras_prestar_libro w self libro u l b :
  usuarios (tras_prestar_libro w self libro u l b) !! self
  = Some (set_historial u
            (_historial_prestamos u ++
               [mkPrestamo (_titulo b) (_isbn b) (reloj w (S (lecturas w)))
                           (obtener_tipo b) false None None]))
  ∧ listas (tras_prestar_libro w self libro u l b) !! _libros_prestados u
    = Some (l ++ [libro]).
Proof. split; apply lookup_insert_eq. Qed.

(** C3.  [prestar_libro] returns [True] only if [puede_prestar] holds and
    the book's own [prestar] succeeds.  Eligibility is checked first: for a
    user who may not borrow the call returns [False] and the world, so the
    book, the held list and the history, is unchanged.  In particular a
    student who holds three books is refused, and so is the fourth loan
    after three successful ones by a student who held nothing. *)
Theorem C3_prestar_libro (w : Mundo) (self libro : ref) :
  (∀ w', prestar_libro self libro w = Ok (true, w') →
     puede_prestar self w = Ok (true, w)
     ∧ ∃ w1, prestar libro self w = Ok (true, w1))
  ∧ (puede_prestar self w = Ok (false, w) →
     prestar_libro self libro w = Ok (false, w))
  ∧ (∀ u l, usuarios w !! self = Some u → clase_usuario u = Estudiante →
       listas w !! _libros_prestados u = Some l → length l = 3%nat →
       prestar_libro self libro w = Ok (false, w))
  ∧ (∀ u b1 b2 b3 w1 w2 w3,
       usuarios w !! self = Some u → clase_usuario u = Estudiante →
       listas w !! _libros_prestados u = Some [] →
       prestar_libro self b1 w = Ok (true, w1) →
       prestar_libro self b2 w1 = Ok (true, w2) →
       prestar_libro self b3 w2 = Ok (true, w3) →
       prestar_libro self libro w3 = Ok (false, w3)
       ∧ listas w3 !! _libros_prestados u = Some [b1; b2; b3]).
Proof.
  split; [|split; [|split]].
  - intros w' H.
    apply prestar_libro_inv in H as (u & l & Hu & Hl & He & b & Hb & Hd & _).
    split.
    + rewrite (puede_prestar_Ok _ _ _ _ Hu Hl). by rewrite He.
    + eexists. by apply prestar_disponible.
  - apply prestar_libro_no_elegible.
  - intros u l Hu Hc Hl Hlen. apply prestar_libro_no_elegible.
    rewrite (puede_prestar_Ok _ _ _ _ Hu Hl).
    unfold elegible, limite_prestamos. by rewrite Hc, Hlen.
  - intros u b1 b2 b3 w1 w2 w3 Hu Hc Hl H1 H2 H3.
    apply prestar_libro_inv in H1 as (u0 & l0 & Hu0 & Hl0 & _ & c1 & _ & _ & ->).
    rewrite Hu in Hu0. injection Hu0 as <-. rewrite Hl in Hl0. injection Hl0 as <-.
    destruct (lookup_tras_prestar_libro w self b1 u [] c1) as [Hu1 Hl1].
    apply prestar_libro_inv in H2 as (u1 & l1 & Hu1' & Hl1' & _ & c2 & _ & _ & ->).
    rewrite Hu1 in Hu1'. injection Hu1' as <-. simpl in Hl1, Hl1'.
    rewrite Hl1 in Hl1'. injection Hl1' as <-.
    match type of H3 with
    | context [tras_prestar_libro ?w0 self b2 ?u0 ?l0 c2] =>
        destruct (lookup_tras_prestar_libro w0 self b2 u0 l0 c2) as [Hu2 Hl2]
    end.
    apply prestar_libro_inv in H3 as (u2 & l2 & Hu2' & Hl2' & _ & c3 & _ & _ & ->).
    rewrite Hu2 in Hu2'. injection Hu2' as <-. simpl in Hl2, Hl2'.
    rewrite Hl2 in Hl2'. injection Hl2' as <-.
    match goal with
    | |- context [tras_prestar_libro ?w0 self b3 ?u0 ?l0 c3] =>
        destruct (lookup_tras_prestar_libro w0 self b3 u0 l0 c3) as [Hu3 Hl3]
    end.
    simpl in Hl3. split; [|exact Hl3].
    apply prestar_libro_no_elegible.
    rewrite (puede_prestar_Ok _ _ _ _ Hu3 Hl3).
    unfold elegible, limite_prestamos. simpl. by rewrite Hc.
Qed.

(** ** Returning a book *)

Lemma devolver_inv w self d quien w1 :
  devolver self w = Ok ((d, quien), w1) →
  ∃ l, libros w !! self = Some l
    ∧ ((_disponible l = true ∧ d = 0 ∧ quien = None ∧ w1 = w)
       ∨ (_disponible l = false ∧ ∃ f, _fecha_prestamo l = Some f
            ∧ d = Z.max 0 (days (ahora w - f) - calcular_dias_prestamo l)
            ∧ quien = _usuario_actual l
            ∧ w1 = con_libros <[self := set_prestamo l true None None]> (tras_lectura w))).
Proof.
  intros H. pose proof H as H'. unfold devolver in H'.
  apply bind_Ok_inv in H' as (l & w0 & [Hl ->]%leer_libro_inv & H').
  exists l. split; [done|]. destruct (_disponible l) eqn:Hd.
  - left. rewrite (devolver_disponible _ _ _ Hl Hd) in H. by injection H as <- <- <-.
  - right. split; [done|]. destruct (_fecha_prestamo l) as [f|] eqn:Hf.
    + exists f. rewrite (devolver_prestado _ _ _ _ Hl Hd Hf) in H.
      by injection H as <- <- <-.
    + simpl in H'. cbv [bind now raise] in H'. discriminate.
Qed.

Lemma remove_elem_of x l :
  x ∈ l → ∃ l', remove x l = Some l' ∧ length l = S (length l').
Proof.
  induction l as [|y l IH]; [by intros ?%elem_of_nil|].
  intros Hx. simpl. destruct (decide (x = y)) as [->|Hne]; [eauto|].
  apply elem_of_cons in Hx as [?|Hx]; [done|].
  destruct (IH Hx) as (l' & -> & ->). simpl. eauto.
Qed.

(** [l.remove(x)] takes out the first occurrence of [x], and only it. *)
Lemma remove_Some_inv x l l' :
  remove x l = Some l' →
  ∃ l1 l2, l = l1 ++ x :: l2 ∧ l' = l1 ++ l2 ∧ (x ∉ l1).
Proof.
  revert l'. induction l as [|y l IH]; [discriminate|]. intros l'. simpl.
  destruct (decide (x = y)) as [->|Hne].
  - intros [= <-]. exists [], l. split; [done|]. split; [done|]. apply not_elem_of_nil.
  - destruct (remove x l) as [l0|]; [|discriminate]. intros [= <-].
    destruct (IH l0 eq_refl) as (l1 & l2 & -> & -> & Hx).
    exists (y :: l1), l2. split; [done|]. split; [done|].
    intros [?|?]%elem_of_cons; [congruence|done].
Qed.


Lemma buscar_Some isbn h i :
  buscar isbn h = Some i →
  (∃ p, h !! i = Some p ∧ abierto isbn p = true)
  ∧ ∀ k q, (k < i)%nat → h !! k = Some q → abierto isbn q = false.
Proof.
  revert i. induction h as [|p h IH]; [discriminate|]. intros i. simpl.
  destruct (abierto isbn p) eqn:Hp.
  - intros [= <-]. split; [eauto|]. intros k q Hk. lia.
  - destruct (buscar isbn h) as [i'|]; [|discriminate]. intros [= <-].
    destruct (IH i' eq_refl) as [Hi' Hlt]. split; [done|].
    intros [|k] q Hk; simpl; [congruence|]. apply Hlt. lia.
Qed.

Lemma buscar_None isbn h :
  buscar isbn h = None → ∀ p, p ∈ h → abierto isbn p = false.
Proof.
  induction h as [|q h IH]; [by intros _ p ?%elem_of_nil|]. simpl.
  destruct (abierto isbn q) eqn:Hq; [discriminate|].
  destruct (buscar isbn h); [discriminate|]. intros _ p.
  intros [->|Hp]%elem_of_cons; auto.
Qed.

Lemma buscar_reverse_Some isbn h i :
  buscar isbn (reverse h) = Some i →
  (i < length h)%nat ∧ ultimo_abierto isbn h (length h - 1 - i).
Proof.
  intros [(p & Hp & Ha) Hlt]%buscar_Some.
  apply reverse_lookup_Some in Hp as [Hp Hi]. split; [done|]. split.
  - exists p. split; [|done]. by replace (length h - 1 - i)%nat with (length h - S i)%nat by lia.
  - intros k q Hk Hq. pose proof (lookup_lt_Some _ _ _ Hq) as Hkl.
    apply (Hlt (length h - S k)%nat q); [lia|].
    apply reverse_lookup_Some. split; [|lia].
    by replace (length h - S (length h - S k))%nat with k by lia.
Qed.

Lemma buscar_reverse_None isbn h :
  buscar isbn (reverse h) = None → ∀ p, p ∈ h → abierto isbn p = false.
Proof.
  intros H p Hp. apply (buscar_None _ _ H). by apply elem_of_reverse.
Qed.


Lemma actualizar_historial_Ok isbn dias h w :
  actualizar_historial isbn dias h w
  = Ok (historial_cerrado isbn (ahora w) dias h, tras_historial isbn h w).
Proof.
  unfold actualizar_historial, historial_cerrado, tras_historial.
  by destruct (buscar isbn (reverse h)).
Qed.


Lemma devolver_libro_tenido w self libro u l d quien w1 :
  usuarios w !! self = Some u → listas w !! _libros_prestados u = Some l →
  libro ∈ l → devolver libro w = Ok ((d, quien), w1) →
  ∃ l' b, remove libro l = Some l' ∧ libros w !! libro = Some b
    ∧ devolver_libro self libro w
      = Ok (multa_por u d, tras_devolver_libro w1 self u l' (_isbn b) d).
Proof.
  intros Hu Hl Hin Hd.
  destruct (remove_elem_of _ _ Hin) as (l' & Hr & _).
  pose proof Hd as (b & Hb & Hcases)%devolver_inv.
  exists l', b. split; [done|split; [done|]].
  assert (∃ b1, libros w1 !! libro = Some b1 ∧ _isbn b1 = _isbn b) as (b1 & Hb1 & Hisbn).
  { destruct Hcases as [(_ & _ & _ & ->)|(_ & f & _ & _ & _ & ->)]; [eauto|].
    eexists. split; [apply lookup_insert_eq|done]. }
  unfold devolver_libro.
  rewrite (bind_Ok _ _ _ _ _ (leer_usuario_Ok _ _ _ Hu)).
  rewrite (bind_Ok _ _ _ _ _ (leer_lista_Ok _ _ _ Hl)).
  rewrite bool_decide_eq_true_2 by done.
  rewrite (bind_Ok _ _ _ _ _ Hd), Hr. simpl.
  cbv [bind ret escribir_lista leer_libro]. simpl. rewrite Hb1, Hisbn.
  rewrite actualizar_historial_Ok.
  unfold tras_devolver_libro, usuario_tras_devolver, multa_por, tras_historial.
  destruct (0 <? d);
    destruct (buscar (_isbn b) (reverse (_historial_prestamos u))); reflexivity.
Qed.

Lemma devolver_libro_no_tenido w self libro u l :
  usuarios w !! self = Some u → listas w !! _libros_prestados u = Some l →
  libro ∉ l → devolver_libro self libro w = Ok (0%float, w).
Proof.
  intros Hu Hl Hin. unfold devolver_libro.
  rewrite (bind_Ok _ _ _ _ _ (leer_usuario_Ok _ _ _ Hu)).
  rewrite (bind_Ok _ _ _ _ _ (leer_lista_Ok _ _ _ Hl)).
  by rewrite bool_decide_eq_false_2.
Qed.

(** ** Paying a fine *)

Lemma pagar_multa_Ok w self u cantidad :
  usuarios w !! self = Some u →
  pagar_multa self cantidad w
  = if (0 <? cantidad)%float
    then Ok (max0 (_multa_acumulada u - cantidad),
             con_usuarios
               <[self := set_multa u (max0 (_multa_acumulada u - cantidad))]> w)
    else Ok (_multa_acumulada u, w).
Proof.
  intros Hu. unfold pagar_multa.
  rewrite (bind_Ok _ _ _ _ _ (leer_usuario_Ok _ _ _ Hu)).
  by destruct (0 <? cantidad)%float.
Qed.

Lemma multa_acumulada_Ok w self u :
  usuarios w !! self = Some u → multa_acumulada self w = Ok (_multa_acumulada u, w).
Proof.
  intros Hu. unfold multa_acumulada.
  by rewrite (bind_Ok _ _ _ _ _ (leer_usuario_Ok _ _ _ Hu)).
Qed.

(** ** The scenario of the late student *)

Lemma historial_cerrado_snoc isbn t dias h p :
  abierto isbn p = true →
  historial_cerrado isbn t dias (h ++ [p]) = h ++ [cerrar t dias p].
Proof.
  intros Hp. unfold historial_cerrado. rewrite reverse_snoc. simpl. rewrite Hp.
  rewrite length_app. simpl.
  replace (length h + 1 - 1 - 0)%nat with (length h + 0)%nat by lia.
  by rewrite alter_app_r.
Qed.

Lemma elegible_inv u l :
  elegible u l = true →
  Z.of_nat (length l) < limite_prestamos u
  ∧ (_multa_acumulada u = 0%float ∨ _multa_acumulada u = (-0)%float).
Proof.
  unfold elegible. rewrite andb_true_iff, Z.ltb_lt, float_eqb_0. done.
Qed.




(** ** What each call does to the world *)

Lemma devolver_libro_inv w self libro x w' :
  devolver_libro self libro w = Ok (x, w') →
  ∃ u l, usuarios w !! self = Some u ∧ listas w !! _libros_prestados u = Some l
    ∧ (((libro ∉ l) ∧ x = 0%float ∧ w' = w)
       ∨ (libro ∈ l ∧ ∃ d quien w1 l' b,
            devolver libro w = Ok ((d, quien), w1)
            ∧ remove libro l = Some l' ∧ libros w !! libro = Some b
            ∧ x = multa_por u d
            ∧ w' = tras_devolver_libro w1 self u l' (_isbn b) d)).
Proof.
  intros H. pose proof H as H'. unfold devolver_libro in H'.
  apply bind_Ok_inv in H' as (u & w0 & [Hu ->]%leer_usuario_inv & H').
  apply bind_Ok_inv in H' as (l & w0 & [Hl ->]%leer_lista_inv & H').
  exists u, l. split; [done|split; [done|]].
  destruct (decide (libro ∈ l)) as [Hin|Hin].
  - right. split; [done|]. rewrite bool_decide_eq_true_2 in H' by done.
    apply bind_Ok_inv in H' as ([d quien] & w1 & Hd & _).
    destruct (devolver_libro_tenido _ _ _ _ _ _ _ _ Hu Hl Hin Hd)
      as (l' & b & Hr & Hb & Hdl).
    rewrite Hdl in H. injection H as <- <-. eauto 10.
  - left. rewrite (devolver_libro_no_tenido _ _ _ _ _ Hu Hl Hin) in H.
    by injection H as <- <-.
Qed.

Lemma pagar_multa_inv w self cantidad x w' :
  pagar_multa self cantidad w = Ok (x, w') →
  ∃ u, usuarios w !! self = Some u
    ∧ (((0 <? cantidad)%float = true
        ∧ x = max0 (_multa_acumulada u - cantidad)
        ∧ w' = con_usuarios <[self := set_multa u x]> w)
       ∨ ((0 <? cantidad)%float = false ∧ x = _multa_acumulada u ∧ w' = w)).
Proof.
  intros H. pose proof H as H'. unfold pagar_multa in H'.
  apply bind_Ok_inv in H' as (u & w0 & [Hu ->]%leer_usuario_inv & _).
  exists u. split; [done|]. rewrite (pagar_multa_Ok _ _ _ _ Hu) in H.
  destruct (0 <? cantidad)%float; injection H as <- <-; auto.
Qed.

Lemma libros_prestados_inv w self r w' :
  libros_prestados self w = Ok (r, w') →
  ∃ u l, usuarios w !! self = Some u ∧ listas w !! _libros_prestados u = Some l
    ∧ r = fresh (dom (listas w)) ∧ w' = con_listas <[r := l]> w.
Proof.
  intros H. unfold libros_prestados in H.
  apply bind_Ok_inv in H as (u & w0 & [Hu ->]%leer_usuario_inv & H).
  apply bind_Ok_inv in H as (l & w0 & [Hl ->]%leer_lista_inv & H).
  cbv [nueva_lista] in H. injection H as <- <-. eauto 6.
Qed.

Lemma multa_acumulada_inv w self x w' :
  multa_acumulada self w = Ok (x, w') →
  w' = w ∧ ∃ u, usuarios w !! self = Some u ∧ x = _multa_acumulada u.
Proof.
  intros H. unfold multa_acumulada in H.
  apply bind_Ok_inv in H as (u & w0 & [Hu ->]%leer_usuario_inv & H).
  cbv [ret] in H. injection H as <- <-. eauto.
Qed.

Lemma Usuario_init_Ok w c nombre identificacion email :
  Usuario_init c nombre identificacion email w
  = Ok (fresh (dom (usuarios w)), tras_Usuario_init w c nombre identificacion email).
Proof. reflexivity. Qed.

Lemma Libro_init_Ok w c titulo autor isbn año :
  Libro_init c titulo autor isbn año w
  = Ok (fresh (dom (libros w)),
        con_libros <[fresh (dom (libros w)) :=
                       mkLibro c titulo autor isbn año true None None]> w).
Proof. reflexivity. Qed.

Lemma fresh_lookup_None {A} (m : gmap ref A) : m !! fresh (dom m) = None.
Proof. apply not_elem_of_dom. apply is_fresh. Qed.

Lemma ejecutar_todas_inv c cs vs w w' :
  ejecutar_todas (c :: cs) w = Ok (vs, w') →
  ∃ v vs' w1, ejecutar c w = Ok (v, w1) ∧ ejecutar_todas cs w1 = Ok (vs', w')
              ∧ vs = v :: vs'.
Proof.
  simpl. intros H.
  apply bind_Ok_inv in H as (v & w1 & Hc & H).
  apply bind_Ok_inv in H as (vs' & w2 & Hcs & H).
  cbv [ret] in H. injection H as <- <-. eauto 6.
Qed.

(** A property of worlds kept by every call is kept by every run. *)
Lemma ejecutar_todas_ind (P : Mundo → Prop) :
  (∀ c v w w', P w → ejecutar c w = Ok (v, w') → P w') →
  ∀ cs vs w w', P w → ejecutar_todas cs w = Ok (vs, w') → P w'.
Proof.
  intros Hstep cs. induction cs as [|c cs IH]; intros vs w w' HP H.
  - cbv [ejecutar_todas ret] in H. by injection H as <- <-.
  - apply ejecutar_todas_inv in H as (v & vs' & w1 & Hc & Hcs & _).
    eapply IH; [|exact Hcs]. eapply Hstep; eauto.
Qed.

(** ** The invariant of books *)

Lemma inv_libro_spec l :
  inv_libro l = true ↔
  (is_Some (_fecha_prestamo l) ↔ is_Some (_usuario_actual l))
  ∧ (is_Some (_fecha_prestamo l) ↔ _disponible l = false).
Proof.
  unfold inv_libro.
  destruct (_disponible l), (_fecha_prestamo l) as [f|], (_usuario_actual l) as [q|];
    rewrite ?is_Some_alt; intuition (discriminate || eauto).
Qed.

Lemma inv_libros_mismos w w' :
  libros w' = libros w → inv_libros w → inv_libros w'.
Proof. unfold inv_libros. by intros ->. Qed.

Lemma inv_libros_insert w w' r l :
  libros w' = <[r := l]> (libros w) → inv_libro l = true →
  inv_libros w → inv_libros w'.
Proof.
  unfold inv_libros. intros -> Hl Hw r' l'.
  destruct (decide (r = r')) as [->|Hne].
  - rewrite lookup_insert_eq. by intros [= <-].
  - rewrite lookup_insert_ne by done. apply Hw.
Qed.

Lemma prestar_inv_libros w self usuario b w' :
  prestar self usuario w = Ok (b, w') → inv_libros w → inv_libros w'.
Proof.
  intros (l & Hl & -> & ->)%prestar_inv. destruct (_disponible l); [|done].
  by apply (inv_libros_insert w _ self
              (set_prestamo l false (Some (ahora w)) (Some usuario))).
Qed.

Lemma devolver_inv_libros w self r w' :
  devolver self w = Ok (r, w') → inv_libros w → inv_libros w'.
Proof.
  destruct r as [d quien].
  intros (l & Hl & [(_ & _ & _ & ->)|(_ & f & _ & _ & _ & ->)])%devolver_inv; [done|].
  by apply (inv_libros_insert w _ self (set_prestamo l true None None)).
Qed.

Lemma ejecutar_inv_libros c v w w' :
  inv_libros w → ejecutar c w = Ok (v, w') → inv_libros w'.
Proof.
  intros Hw H. destruct c; simpl in H;
    apply bind_Ok_inv in H as (x & w1 & H & Hret);
    cbv [ret] in Hret; injection Hret as _ <-.
  - rewrite Libro_init_Ok in H. injection H as _ <-.
    by eapply inv_libros_insert.
  - rewrite Usuario_init_Ok in H. injection H as _ <-. by eapply inv_libros_mismos.
  - by eapply prestar_inv_libros.
  - by eapply devolver_inv_libros.
  - by apply puede_prestar_inv in H as [-> _].
  - apply prestar_libro_inv in H as (u & l & _ & _ & H). destruct x.
    + destruct H as (_ & b & Hb & Hd & ->).
      by apply (inv_libros_insert w _ libro
                  (set_prestamo b false (Some (ahora w)) (Some usuario))).
    + by subst.
  - apply devolver_libro_inv in H as (u & l & _ & _ & [(_ & _ & ->)|(_ & H)]); [done|].
    destruct H as (d & quien & w0 & l' & b & Hd & _ & _ & _ & ->).
    apply (inv_libros_mismos w0); [done|]. by eapply devolver_inv_libros.
  - by apply pagar_multa_inv in H as (u & _ & [(_ & _ & ->)|(_ & _ & ->)]).
  - by apply libros_prestados_inv in H as (u & l & _ & _ & _ & ->).
  - by apply multa_acumulada_inv in H as [-> _].
Qed.

(** C7.  The timestamp and the holder of a book are both set or both
    absent, and they are set exactly when the book is not available
    ([inv_libro]).  A freshly constructed book is available with both
    absent, and every call, so every run from the empty world, keeps the
    invariant of every book. *)
Theorem C7_inv_libros :
  (∀ l, inv_libro l = true ↔
        (is_Some (_fecha_prestamo l) ↔ is_Some (_usuario_actual l))
        ∧ (is_Some (_fecha_prestamo l) ↔ _disponible l = false))
  ∧ (∀ w c titulo autor isbn año, ∃ r w' l,
       Libro_init c titulo autor isbn año w = Ok (r, w')
       ∧ libros w !! r = None ∧ libros w' !! r = Some l
       ∧ _disponible l = true ∧ _fecha_prestamo l = None ∧ _usuario_actual l = None)
  ∧ (∀ c v w w', inv_libros w → ejecutar c w = Ok (v, w') → inv_libros w')
  ∧ (∀ cs vs w w', inv_libros w → ejecutar_todas cs w = Ok (vs, w') → inv_libros w')
  ∧ (∀ reloj cs vs w', ejecutar_todas cs (mundo_vacio reloj) = Ok (vs, w') →
       inv_libros w').
Proof.
  split; [exact inv_libro_spec|]. split; [|split; [|split]].
  - intros w c titulo autor isbn año. eexists _, _, _.
    split; [apply Libro_init_Ok|]. split; [apply fresh_lookup_None|].
    split; [apply lookup_insert_eq|done].
  - exact ejecutar_inv_libros.
  - exact (ejecutar_todas_ind inv_libros ejecutar_inv_libros).
  - intros reloj cs vs w'.
    apply (ejecutar_todas_ind inv_libros ejecutar_inv_libros). by intros r l.
Qed.

(** ** Fines *)

Lemma max0_no_negativo x : (0 <=? max0 x)%float = true.
Proof.
  unfold max0. destruct (0 <? x)%float eqn:H; [by apply ltb_0_leb|reflexivity].
Qed.

Lemma float_ltb_irrefl x : (x <? x)%float = false.
Proof.
  rewrite ltb_spec. unfold SFltb.
  destruct (Prim2SF x) as [[]|[]| |[] m e]; try reflexivity; cbn;
    rewrite Z.compare_refl;
    change (Pos.compare_cont Eq m m) with (Pos.compare m m);
    by rewrite Pos.compare_refl.
Qed.

Lemma multa_por_no_negativa u dias : (0 <=? multa_por u dias)%float = true.
Proof.
  unfold multa_por. destruct (0 <? dias) eqn:Hd; [|reflexivity].
  apply Z.ltb_lt in Hd.
  unfold calcular_multa_por_dia.
  destruct (clase_usuario u);
    (eapply float_mul_no_negativo;
     [apply float_of_int_no_negativo; lia|vm_compute; reflexivity]).
Qed.

(** C6.  [pagar_multa] only takes a positive amount: with any other amount
    it changes nothing and returns the fine as it is.  With a positive
    amount [P] the fine [B] becomes [max(0, B - P)]: the fine of the user,
    read back from the store after the call, is [B - P] when that is
    positive and [0] otherwise; it is never negative and is exactly [0]
    when [P > B] (what is paid in excess is neither refunded nor refused).
    The call returns the new fine, and changes nothing else. *)
Theorem C6_pagar_multa (w : Mundo) (self : ref) (u : Usuario) :
  usuarios w !! self = Some u →
  (∀ P, (0 <? P)%float = false →
     pagar_multa self P w = Ok (_multa_acumulada u, w))
  ∧ (∀ P, (0 <? P)%float = true →
       let restante := max0 (_multa_acumulada u - P) in
       pagar_multa self P w
       = Ok (restante, con_usuarios <[self := set_multa u restante]> w)
       ∧ (0 <=? restante)%float = true
       ∧ ((0 <? _multa_acumulada u - P)%float = true →
            restante = (_multa_acumulada u - P)%float)
       ∧ ((_multa_acumulada u <? P)%float = true → restante = 0%float))
  ∧ (∀ P, (0 <? P)%float = true →
       ∃ w' u',
         pagar_multa self P w = Ok (_multa_acumulada u', w')
         ∧ usuarios w' !! self = Some u'
         ∧ (0 <=? _multa_acumulada u')%float = true
         ∧ ((0 <? _multa_acumulada u - P)%float = true →
              _multa_acumulada u' = (_multa_acumulada u - P)%float)
         ∧ ((0 <? _multa_acumulada u - P)%float = false →
              _multa_acumulada u' = 0%float)
         ∧ ((_multa_acumulada u <? P)%float = true →
              _multa_acumulada u' = 0%float)
         ∧ clase_usuario u' = clase_usuario u
         ∧ _libros_prestados u' = _libros_prestados u
         ∧ _historial_prestamos u' = _historial_prestamos u
         ∧ (∀ r, r ≠ self → usuarios w' !! r = usuarios w !! r)
         ∧ libros w' = libros w ∧ listas w' = listas w
         ∧ reloj w' = reloj w ∧ lecturas w' = lecturas w).
Proof.
  intros Hu. split; [|split].
  - intros P HP. by rewrite (pagar_multa_Ok _ _ _ _ Hu), HP.
  - intros P HP restante. split; [|split; [|split]].
    + by rewrite (pagar_multa_Ok _ _ _ _ Hu), HP.
    + apply max0_no_negativo.
    + intros H. unfold restante, max0. by rewrite H.
    + intros H. unfold restante, max0. by rewrite (float_sub_lt _ _ H).
  - intros P HP.
    exists (con_usuarios
              <[self := set_multa u (max0 (_multa_acumulada u - P))]> w),
           (set_multa u (max0 (_multa_acumulada u - P))).
    split; [rewrite (pagar_multa_Ok _ _ _ _ Hu), HP; reflexivity|].
    split; [apply lookup_insert_eq|].
    split; [apply max0_no_negativo|].
    split; [intros H; simpl; unfold max0; by rewrite H|].
    split; [intros H; simpl; unfold max0; by rewrite H|].
    split; [intros H; simpl; unfold max0; by rewrite (float_sub_lt _ _ H)|].
    repeat (split; [reflexivity|]).
    split; [|done]. intros r Hr. simpl. by rewrite lookup_insert_ne.
Qed.

(** ** The invariant of users *)

Lemma inv_usuarios_vacio reloj : inv_usuarios (mundo_vacio reloj).
Proof. split; intros r; intros; simpl in *; by rewrite lookup_empty in *. Qed.

(** The users and the lists they own are the same. *)
Lemma inv_usuarios_mismos w w' :
  usuarios w' = usuarios w → listas w' = listas w →
  inv_usuarios w → inv_usuarios w'.
Proof. unfold inv_usuarios, inv_usuario. by intros -> ->. Qed.

(** A list object is created, which no user owns. *)
Lemma inv_usuarios_lista_nueva w w' l :
  usuarios w' = usuarios w →
  listas w' = <[fresh (dom (listas w)) := l]> (listas w) →
  inv_usuarios w → inv_usuarios w'.
Proof.
  unfold inv_usuarios, inv_usuario. intros -> -> [Hinv Hinj]. split; [|done].
  intros r u Hu. destruct (Hinv r u Hu) as (l0 & Hl0 & Hrest).
  exists l0. split; [|done]. rewrite lookup_insert_ne; [done|].
  intros Heq. rewrite <- Heq, fresh_lookup_None in Hl0. done.
Qed.

(** The user [self] is updated, with the list they own. *)
Lemma inv_usuarios_actualiza w w' self u u' l' :
  usuarios w !! self = Some u →
  usuarios w' = <[self := u']> (usuarios w) →
  listas w' = <[_libros_prestados u := l']> (listas w) →
  _libros_prestados u' = _libros_prestados u →
  Z.of_nat (length l') ≤ limite_prestamos u' →
  (0 <=? _multa_acumulada u')%float = true →
  inv_usuarios w → inv_usuarios w'.
Proof.
  unfold inv_usuarios, inv_usuario.
  intros Hu -> -> Hlp Hlen Hmulta [Hinv Hinj]. split.
  - intros r v. destruct (decide (self = r)) as [<-|Hne].
    + rewrite lookup_insert_eq. intros [= <-]. exists l'. rewrite Hlp.
      by rewrite lookup_insert_eq.
    + rewrite lookup_insert_ne by done. intros Hv.
      destruct (Hinv r v Hv) as (l0 & Hl0 & Hrest). exists l0.
      split; [|done]. rewrite lookup_insert_ne; [done|].
      intros Heq. apply Hne. by apply (Hinj self r u v).
  - intros r1 r2 u1 u2.
    destruct (decide (self = r1)) as [<-|Hne1];
      destruct (decide (self = r2)) as [<-|Hne2]; [done|..];
      rewrite ?lookup_insert_eq, ?lookup_insert_ne by done.
    + intros [= <-] H2. rewrite Hlp. by apply Hinj.
    + intros H1 [= <-]. rewrite Hlp. by apply Hinj.
    + apply Hinj.
Qed.

(** The same, when the list is not touched. *)
Lemma inv_usuarios_actualiza_usuario w w' self u u' :
  usuarios w !! self = Some u →
  usuarios w' = <[self := u']> (usuarios w) → listas w' = listas w →
  _libros_prestados u' = _libros_prestados u →
  limite_prestamos u' = limite_prestamos u →
  (0 <=? _multa_acumulada u')%float = true →
  inv_usuarios w → inv_usuarios w'.
Proof.
  intros Hu Hus Hls Hlp Hlim Hmulta Hinv.
  destruct (proj1 Hinv self u Hu) as (l & Hl & Hlen & _).
  apply (inv_usuarios_actualiza w w' self u u' l); try done.
  - by rewrite insert_id.
  - by rewrite Hlim.
Qed.

Lemma inv_usuarios_Usuario_init w c nombre identificacion email :
  inv_usuarios w → inv_usuarios (tras_Usuario_init w c nombre identificacion email).
Proof.
  unfold inv_usuarios, inv_usuario. intros [Hinv Hinj].
  assert (∀ r u, usuarios w !! r = Some u →
            _libros_prestados u ≠ fresh (dom (listas w))) as Hfresh.
  { intros r u Hu Heq. destruct (Hinv r u Hu) as (l & Hl & _).
    by rewrite Heq, fresh_lookup_None in Hl. }
  split.
  - intros r u. simpl. destruct (decide (fresh (dom (usuarios w)) = r)) as [<-|Hne].
    + rewrite lookup_insert_eq. intros [= <-]. exists []. simpl.
      rewrite lookup_insert_eq. by destruct c.
    + rewrite lookup_insert_ne by done. intros Hu.
      destruct (Hinv r u Hu) as (l & Hl & Hrest). exists l. split; [|done].
      rewrite lookup_insert_ne; [done|]. intros Heq. by apply (Hfresh r u).
  - intros r1 r2 u1 u2. simpl.
    destruct (decide (fresh (dom (usuarios w)) = r1)) as [<-|Hne1];
      destruct (decide (fresh (dom (usuarios w)) = r2)) as [<-|Hne2]; [done|..];
      rewrite ?lookup_insert_eq, ?lookup_insert_ne by done.
    + intros [= <-] H2 Heq. simpl in Heq. by destruct (Hfresh r2 u2).
    + intros H1 [= <-] Heq. simpl in Heq. by destruct (Hfresh r1 u1).
    + apply Hinj.
Qed.

Lemma devolver_mismos_usuarios w self r w' :
  devolver self w = Ok (r, w') → usuarios w' = usuarios w ∧ listas w' = listas w.
Proof.
  destruct r as [d quien].
  by intros (l & _ & [(_ & _ & _ & ->)|(_ & f & _ & _ & _ & ->)])%devolver_inv.
Qed.

Lemma ejecutar_inv_usuarios c v w w' :
  inv_usuarios w → ejecutar c w = Ok (v, w') → inv_usuarios w'.
Proof.
  intros Hw H. destruct c; simpl in H;
    apply bind_Ok_inv in H as (x & w1 & H & Hret);
    cbv [ret] in Hret; injection Hret as _ <-.
  - rewrite Libro_init_Ok in H. injection H as _ <-. by eapply inv_usuarios_mismos.
  - rewrite Usuario_init_Ok in H. injection H as _ <-.
    by apply inv_usuarios_Usuario_init.
  - apply prestar_inv in H as (l & _ & _ & ->).
    destruct x; [|done]. by eapply inv_usuarios_mismos.
  - apply devolver_mismos_usuarios in H as [? ?]. by eapply inv_usuarios_mismos.
  - by apply puede_prestar_inv in H as [-> _].
  - apply prestar_libro_inv in H as (u & l & Hu & Hl & H). destruct x; [|by subst].
    destruct H as ((Hlim & _)%elegible_inv & b & _ & _ & ->).
    eapply (inv_usuarios_actualiza w _ usuario u _ (l ++ [libro]) Hu);
      [reflexivity|reflexivity|done| | |done].
    + rewrite length_app. simpl. unfold limite_prestamos in *. simpl. lia.
    + by destruct (proj1 Hw usuario u Hu) as (? & _ & _ & ?).
  - apply devolver_libro_inv in H as (u & l & Hu & Hl & [(_ & _ & ->)|(Hin & H)]);
      [done|].
    destruct H as (d & quien & w0 & l' & b & Hd & Hr & _ & _ & ->).
    apply devolver_mismos_usuarios in Hd as [Hus Hls].
    destruct (proj1 Hw usuario u Hu) as (l0 & Hl0 & Hlen & Hmulta).
    rewrite Hl in Hl0. injection Hl0 as <-.
    destruct (remove_elem_of _ _ Hin) as (l'' & Hr' & Hlen').
    rewrite Hr in Hr'. injection Hr' as <-.
    eapply (inv_usuarios_actualiza w _ usuario u _ l' Hu); [| | | | |done].
    + simpl. by rewrite Hus.
    + simpl. by rewrite Hls.
    + unfold usuario_tras_devolver. by destruct (0 <? d).
    + unfold usuario_tras_devolver, limite_prestamos in *.
      destruct (0 <? d); simpl; lia.
    + unfold usuario_tras_devolver. destruct (0 <? d); simpl; [|done].
      apply float_add_no_negativo; [done|apply multa_por_no_negativa].
  - apply pagar_multa_inv in H as (u & Hu & [(_ & -> & ->)|(_ & _ & ->)]); [|done].
    eapply (inv_usuarios_actualiza_usuario w _ usuario u _ Hu);
      [reflexivity|reflexivity|done|done| |done].
    apply max0_no_negativo.
  - apply libros_prestados_inv in H as (u & l & _ & _ & -> & ->).
    by apply (inv_usuarios_lista_nueva w _ l).
  - by apply multa_acumulada_inv in H as [-> _].
Qed.

(** How a call can change the fine of a user: it grows only by the fine of
    a late return, and shrinks only by a payment. *)
Lemma ejecutar_multa c v w w' r u u' :
  inv_usuarios w → ejecutar c w = Ok (v, w') →
  usuarios w !! r = Some u → usuarios w' !! r = Some u' →
  ((_multa_acumulada u <? _multa_acumulada u')%float = true →
     ∃ libro d quien w1,
       c = DevolverLibro r libro ∧ devolver libro w = Ok ((d, quien), w1) ∧ 0 < d
       ∧ _multa_acumulada u'
         = (_multa_acumulada u + float_of_int d * calcular_multa_por_dia u)%float)
  ∧ ((_multa_acumulada u' <? _multa_acumulada u)%float = true →
       ∃ P, c = PagarMulta r P ∧ (0 <? P)%float = true
            ∧ _multa_acumulada u' = max0 (_multa_acumulada u - P)).
Proof.
  intros Hw H Hu Hu'.
  destruct (proj1 Hw r u Hu) as (l0 & Hl0 & _ & Hmulta).
  assert (_multa_acumulada u' = _multa_acumulada u →
          ((_multa_acumulada u <? _multa_acumulada u')%float = true →
             ∃ libro d quien w1,
               c = DevolverLibro r libro ∧ devolver libro w = Ok ((d, quien), w1)
               ∧ 0 < d
               ∧ _multa_acumulada u'
                 = (_multa_acumulada u
                    + float_of_int d * calcular_multa_por_dia u)%float)
          ∧ ((_multa_acumulada u' <? _multa_acumulada u)%float = true →
               ∃ P, c = PagarMulta r P ∧ (0 <? P)%float = true
                    ∧ _multa_acumulada u' = max0 (_multa_acumulada u - P)))
    as Higual.
  { intros ->. rewrite float_ltb_irrefl. split; discriminate. }
  destruct c; simpl in H;
    apply bind_Ok_inv in H as (x & w1 & H & Hret);
    cbv [ret] in Hret; injection Hret as _ <-.
  - rewrite Libro_init_Ok in H. injection H as _ <-. simpl in Hu'.
    apply Higual. congruence.
  - rewrite Usuario_init_Ok in H. injection H as _ <-. simpl in Hu'.
    rewrite lookup_insert_ne in Hu'; [apply Higual; congruence|].
    intros Heq. by rewrite <- Heq, fresh_lookup_None in Hu.
  - apply prestar_inv in H as (l & _ & _ & ->).
    destruct x; simpl in Hu'; apply Higual; congruence.
  - apply devolver_mismos_usuarios in H as [Hus _]. rewrite Hus in Hu'.
    apply Higual. congruence.
  - apply puede_prestar_inv in H as [-> _]. apply Higual. congruence.
  - apply prestar_libro_inv in H as (u0 & l & Hu0 & Hl & H). destruct x.
    + destruct H as (_ & b & _ & _ & ->). simpl in Hu'.
      destruct (decide (usuario = r)) as [->|Hne].
      * rewrite lookup_insert_eq in Hu'. injection Hu' as <-.
        apply Higual. simpl. congruence.
      * rewrite lookup_insert_ne in Hu' by done. apply Higual. congruence.
    + subst. apply Higual. congruence.
  - apply devolver_libro_inv in H as (u0 & l & Hu0 & Hl & [(_ & _ & ->)|(Hin & H)]);
      [apply Higual; congruence|].
    destruct H as (d & quien & w0 & l' & b & Hd & Hr & _ & _ & ->).
    pose proof (devolver_mismos_usuarios _ _ _ _ Hd) as [Hus _].
    simpl in Hu'. rewrite Hus in Hu'.
    destruct (decide (usuario = r)) as [->|Hne];
      [|rewrite lookup_insert_ne in Hu' by done; apply Higual; congruence].
    rewrite lookup_insert_eq in Hu'. injection Hu' as <-.
    rewrite Hu in Hu0. injection Hu0 as <-.
    unfold usuario_tras_devolver in *.
    destruct (0 <? d) eqn:Hpos; [clear Higual|by apply Higual].
    simpl. unfold multa_por. rewrite Hpos. split.
    + intros _. exists libro, d, quien, w0. apply Z.ltb_lt in Hpos. done.
    + intros Hlt. rewrite float_add_ge in Hlt; [done..|].
      pose proof (multa_por_no_negativa u d) as Hmp.
      unfold multa_por in Hmp. by rewrite Hpos in Hmp.
  - apply pagar_multa_inv in H as (u0 & Hu0 & [(HP & -> & ->)|(_ & _ & ->)]);
      [|apply Higual; congruence].
    simpl in Hu'.
    destruct (decide (usuario = r)) as [->|Hne];
      [|rewrite lookup_insert_ne in Hu' by done; apply Higual; congruence].
    rewrite lookup_insert_eq in Hu'. injection Hu' as <-.
    rewrite Hu in Hu0. injection Hu0 as <-. simpl. split; [|by eauto].
    intros Hlt. unfold max0 in Hlt.
    destruct (0 <? _multa_acumulada u - cantidad)%float.
    + by rewrite float_sub_le in Hlt.
    + by rewrite leb_0_not_ltb in Hlt.
  - apply libros_prestados_inv in H as (u0 & l & _ & _ & _ & ->).
    apply Higual. simpl in Hu'. congruence.
  - apply multa_acumulada_inv in H as [-> _]. apply Higual. congruence.
Qed.

(** C8.  Every user holds at most as many books as the limit of their class
    allows and owes a fine that is not negative: this holds when nothing
    exists yet and every call, so every run, keeps it.  Along a run the fine
    of a user grows only in [devolver_libro], by the fine of a late return,
    and shrinks only in [pagar_multa], by an explicit payment. *)
Theorem C8_inv_usuarios :
  (∀ w r u, inv_usuarios w → usuarios w !! r = Some u →
     ∃ l, listas w !! _libros_prestados u = Some l
          ∧ Z.of_nat (length l) ≤ match clase_usuario u with
                                   | Estudiante => 3
                                   | Profesor => 10
                                   end
          ∧ (0 <=? _multa_acumulada u)%float = true)
  ∧ (∀ reloj, inv_usuarios (mundo_vacio reloj))
  ∧ (∀ c v w w', inv_usuarios w → ejecutar c w = Ok (v, w') → inv_usuarios w')
  ∧ (∀ cs vs w w', inv_usuarios w → ejecutar_todas cs w = Ok (vs, w') →
       inv_usuarios w')
  ∧ (∀ reloj cs vs w', ejecutar_todas cs (mundo_vacio reloj) = Ok (vs, w') →
       inv_usuarios w')
  ∧ (∀ c v w w' r u u', inv_usuarios w → ejecutar c w = Ok (v, w') →
       usuarios w !! r = Some u → usuarios w' !! r = Some u' →
       ((_multa_acumulada u <? _multa_acumulada u')%float = true →
          ∃ libro d quien w1,
            c = DevolverLibro r libro
            ∧ devolver libro w = Ok ((d, quien), w1) ∧ 0 < d
            ∧ _multa_acumulada u'
              = (_multa_acumulada u
                 + float_of_int d * calcular_multa_por_dia u)%float)
       ∧ ((_multa_acumulada u' <? _multa_acumulada u)%float = true →
            ∃ P, c = PagarMulta r P ∧ (0 <? P)%float = true
                 ∧ _multa_acumulada u' = max0 (_multa_acumulada u - P))).
Proof.
  split; [|split; [|split; [|split; [|split]]]].
  - intros w r u [Hinv _] Hu. exact (Hinv r u Hu).
  - exact inv_usuarios_vacio.
  - exact ejecutar_inv_usuarios.
  - exact (ejecutar_todas_ind inv_usuarios ejecutar_inv_usuarios).
  - intros reloj cs vs w'.
    apply (ejecutar_todas_ind inv_usuarios ejecutar_inv_usuarios).
    apply inv_usuarios_vacio.
  - exact ejecutar_multa.
Qed.

(** ** The list that [libros_prestados] returns *)

Section Ajena.
Variables (r : ref) (x : list ref).

Lemma ajena_bind {A B} (m : M A) (k : A → M B) w :
  ajena r x m w → (∀ a w1, m w = Ok (a, w1) → ajena r x (k a) w1) →
  ajena r x (bind m k) w.
Proof.
  intros Hm Hk Hlibre. destruct (Hm Hlibre) as [Heq Hl]. unfold bind.
  rewrite Heq. destruct (m w) as [[a w1]|e] eqn:Hmw; [|done]. simpl.
  destruct (Hk a w1 eq_refl (Hl a w1 eq_refl)) as [Heq' Hl']. split; [done|].
  exact Hl'.
Qed.

Lemma ajena_ret {A} (a : A) w : ajena r x (ret a) w.
Proof. intros Hlibre. split; [done|]. by intros ? ? [= _ <-]. Qed.

Lemma ajena_raise {A} e w : ajena r x (@raise A e) w.
Proof. intros Hlibre. split; [done|]. intros ? ?. discriminate. Qed.

Lemma ajena_now w : ajena r x now w.
Proof. intros Hlibre. split; [done|]. by intros ? ? [= _ <-]. Qed.

Lemma ajena_leer_libro k w : ajena r x (leer_libro k) w.
Proof.
  intros Hlibre. unfold leer_libro. simpl.
  destruct (libros w !! k); split; try done. by intros ? ? [= _ <-].
Qed.

Lemma ajena_leer_usuario k w : ajena r x (leer_usuario k) w.
Proof.
  intros Hlibre. unfold leer_usuario. simpl.
  destruct (usuarios w !! k); split; try done. by intros ? ? [= _ <-].
Qed.

Lemma ajena_leer_lista k u w :
  usuarios w !! k = Some u → ajena r x (leer_lista (_libros_prestados u)) w.
Proof.
  intros Hu Hlibre. pose proof (proj2 Hlibre k u Hu) as Hne.
  unfold leer_lista. simpl. rewrite lookup_insert_ne by done.
  destruct (listas w !! _libros_prestados u); split; try done.
  by intros ? ? [= _ <-].
Qed.

Lemma ajena_escribir_libro k l w : ajena r x (escribir_libro k l) w.
Proof. intros Hlibre. split; [done|]. by intros ? ? [= _ <-]. Qed.

Lemma ajena_nuevo_libro l w : ajena r x (nuevo_libro l) w.
Proof. intros Hlibre. split; [done|]. by intros ? ? [= _ <-]. Qed.

Lemma ajena_escribir_usuario k u u' w :
  usuarios w !! k = Some u → _libros_prestados u' = _libros_prestados u →
  ajena r x (escribir_usuario k u') w.
Proof.
  intros Hu Hlp [Hr Hlibre]. split; [done|]. intros ? ? [= _ <-].
  split; [done|]. intros k' v. simpl.
  destruct (decide (k = k')) as [<-|Hne].
  - rewrite lookup_insert_eq. intros [= <-]. rewrite Hlp. by apply (Hlibre k).
  - rewrite lookup_insert_ne by done. apply Hlibre.
Qed.

Lemma ajena_escribir_lista k u l w :
  usuarios w !! k = Some u → ajena r x (escribir_lista (_libros_prestados u) l) w.
Proof.
  intros Hu [Hr Hlibre]. pose proof (Hlibre k u Hu) as Hne. split.
  - unfold escribir_lista, mutar_lista, con_listas. simpl.
    by rewrite insert_insert_ne.
  - intros ? ? [= _ <-]. split; [|done]. simpl. by rewrite lookup_insert_ne.
Qed.

Lemma dom_mutar_lista w :
  libre r w → dom (listas (mutar_lista r x w)) = dom (listas w).
Proof.
  intros [Hr _]. simpl. rewrite dom_insert_L.
  apply elem_of_dom in Hr. apply subseteq_union_1_L.
  by apply singleton_subseteq_l.
Qed.

Lemma fresh_libre w : libre r w → fresh (dom (listas w)) ≠ r.
Proof.
  intros [Hr _] Heq. rewrite <- Heq, fresh_lookup_None in Hr.
  by destruct Hr.
Qed.

Lemma ajena_nueva_lista l w : ajena r x (nueva_lista l) w.
Proof.
  intros Hlibre. pose proof (fresh_libre w Hlibre) as Hne.
  unfold nueva_lista. rewrite (dom_mutar_lista w Hlibre). split.
  - unfold mutar_lista, con_listas. simpl. by rewrite insert_insert_ne.
  - intros ? ? [= _ <-]. destruct Hlibre as [Hr Hlibre]. split; [|done].
    simpl. by rewrite lookup_insert_ne.
Qed.

Lemma ajena_nuevo_usuario u w :
  _libros_prestados u ≠ r → ajena r x (nuevo_usuario u) w.
Proof.
  intros Hlp [Hr Hlibre]. split; [done|]. intros ? ? [= _ <-].
  split; [done|]. intros k' v. simpl.
  destruct (decide (fresh (dom (usuarios w)) = k')) as [<-|Hne].
  - rewrite lookup_insert_eq. by intros [= <-].
  - rewrite lookup_insert_ne by done. apply Hlibre.
Qed.

End Ajena.

Section AjenaMetodos.
Variables (r : ref) (x : list ref).

Lemma ajena_prestar self usuario w : ajena r x (prestar self usuario) w.
Proof.
  unfold prestar. apply ajena_bind; [apply ajena_leer_libro|]. intros l w1 _.
  destruct (_disponible l); [|apply ajena_ret].
  apply ajena_bind; [apply ajena_now|]. intros t w2 _.
  apply ajena_bind; [apply ajena_escribir_libro|]. intros _ w3 _. apply ajena_ret.
Qed.

Lemma ajena_devolver self w : ajena r x (devolver self) w.
Proof.
  unfold devolver. apply ajena_bind; [apply ajena_leer_libro|]. intros l w1 _.
  destruct (negb (_disponible l)); [|apply ajena_ret].
  apply ajena_bind; [apply ajena_now|]. intros t w2 _.
  apply ajena_bind.
  { destruct (_fecha_prestamo l); [apply ajena_ret|apply ajena_raise]. }
  intros f w3 _.
  apply ajena_bind; [apply ajena_escribir_libro|]. intros _ w4 _. apply ajena_ret.
Qed.

Lemma ajena_puede_prestar self w : ajena r x (puede_prestar self) w.
Proof.
  unfold puede_prestar. apply ajena_bind; [apply ajena_leer_usuario|].
  intros u w1 [Hu Hw1]%leer_usuario_inv. subst w1.
  apply ajena_bind; [by eapply ajena_leer_lista|]. intros l w2 _. apply ajena_ret.
Qed.

Lemma ajena_prestar_libro self libro w : ajena r x (prestar_libro self libro) w.
Proof.
  unfold prestar_libro. apply ajena_bind; [apply ajena_puede_prestar|].
  intros puede w1 _. destruct puede; [|apply ajena_ret].
  apply ajena_bind; [apply ajena_prestar|].
  intros prestado w2 _. destruct prestado; [|apply ajena_ret].
  apply ajena_bind; [apply ajena_leer_usuario|].
  intros u w3 [Hu Hw3]%leer_usuario_inv. subst w3.
  apply ajena_bind; [by eapply ajena_leer_lista|].
  intros l w4 [_ Hw4]%leer_lista_inv. subst w4.
  apply ajena_bind; [by eapply ajena_escribir_lista|].
  intros [] w5 [= Hw5]. subst w5.
  apply ajena_bind; [apply ajena_leer_libro|].
  intros b w6 [_ Hw6]%leer_libro_inv. subst w6.
  apply ajena_bind; [apply ajena_now|]. intros t w7 [= _ Hw7]. subst w7.
  apply ajena_bind; [|intros; apply ajena_ret].
  by eapply (ajena_escribir_usuario _ _ self u).
Qed.

Lemma ajena_actualizar_historial isbn dias h w :
  ajena r x (actualizar_historial isbn dias h) w.
Proof.
  unfold actualizar_historial. destruct (buscar isbn (reverse h)); [|apply ajena_ret].
  apply ajena_bind; [apply ajena_now|]. intros; apply ajena_ret.
Qed.

Lemma ajena_devolver_libro self libro w : ajena r x (devolver_libro self libro) w.
Proof.
  unfold devolver_libro. apply ajena_bind; [apply ajena_leer_usuario|].
  intros u w1 [Hu Hw1]%leer_usuario_inv. subst w1.
  apply ajena_bind; [by eapply ajena_leer_lista|].
  intros l w2 [_ Hw2]%leer_lista_inv. subst w2.
  destruct (bool_decide (libro ∈ l)); [|apply ajena_ret].
  apply ajena_bind; [apply ajena_devolver|].
  intros res w3 [Hus _]%devolver_mismos_usuarios.
  rewrite <- Hus in Hu.
  apply ajena_bind.
  { destruct (remove libro l); [apply ajena_ret|apply ajena_raise]. }
  intros l' w4 Hl'.
  assert (w4 = w3) as ->
    by (destruct (remove libro l); cbv [ret raise] in Hl'; congruence).
  apply ajena_bind; [by eapply ajena_escribir_lista|].
  intros [] w5 [= Hw5]. subst w5.
  apply ajena_bind; [apply ajena_leer_libro|].
  intros b w6 [_ Hw6]%leer_libro_inv. subst w6.
  apply ajena_bind; [apply ajena_actualizar_historial|].
  intros h w7 Hh. rewrite actualizar_historial_Ok in Hh. injection Hh as _ Hw7.
  subst w7.
  assert (usuarios (tras_historial (_isbn b) (_historial_prestamos u)
                      (con_listas <[_libros_prestados u:=l']> w3)) !! self = Some u)
    as Hu2 by (unfold tras_historial; by destruct (buscar _ _)).
  destruct (0 <? res.1);
    (apply ajena_bind; [|intros; apply ajena_ret]);
    by eapply (ajena_escribir_usuario _ _ self u).
Qed.

Lemma ajena_pagar_multa self cantidad w : ajena r x (pagar_multa self cantidad) w.
Proof.
  unfold pagar_multa. apply ajena_bind; [apply ajena_leer_usuario|].
  intros u w1 [Hu Hw1]%leer_usuario_inv. subst w1.
  destruct (0 <? cantidad)%float; [|apply ajena_ret].
  apply ajena_bind; [|intros; apply ajena_ret].
  by eapply (ajena_escribir_usuario _ _ self u).
Qed.

Lemma ajena_libros_prestados self w : ajena r x (libros_prestados self) w.
Proof.
  unfold libros_prestados. apply ajena_bind; [apply ajena_leer_usuario|].
  intros u w1 [Hu Hw1]%leer_usuario_inv. subst w1.
  apply ajena_bind; [by eapply ajena_leer_lista|].
  intros l w2 _. apply ajena_nueva_lista.
Qed.

Lemma ajena_multa_acumulada self w : ajena r x (multa_acumulada self) w.
Proof.
  unfold multa_acumulada. apply ajena_bind; [apply ajena_leer_usuario|].
  intros; apply ajena_ret.
Qed.

Lemma ajena_Usuario_init c nombre identificacion email w :
  ajena r x (Usuario_init c nombre identificacion email) w.
Proof.
  intros Hlibre. pose proof (fresh_libre r w Hlibre) as Hne. revert Hlibre.
  change (ajena r x (Usuario_init c nombre identificacion email) w).
  unfold Usuario_init. apply ajena_bind; [apply ajena_now|].
  intros t w1 [= _ <-].
  apply ajena_bind; [apply ajena_nueva_lista|]. intros lista w2 [= <- <-].
  apply ajena_nuevo_usuario. exact Hne.
Qed.

Lemma ajena_ejecutar c w : ajena r x (ejecutar c) w.
Proof.
  destruct c; simpl; (apply ajena_bind; [|intros; apply ajena_ret]).
  - apply ajena_nuevo_libro.
  - apply ajena_Usuario_init.
  - apply ajena_prestar.
  - apply ajena_devolver.
  - apply ajena_puede_prestar.
  - apply ajena_prestar_libro.
  - apply ajena_devolver_libro.
  - apply ajena_pagar_multa.
  - apply ajena_libros_prestados.
  - apply ajena_multa_acumulada.
Qed.

Lemma ajena_ejecutar_todas cs w : ajena r x (ejecutar_todas cs) w.
Proof.
  revert w. induction cs as [|c cs IH]; intros w; simpl; [apply ajena_ret|].
  apply ajena_bind; [apply ajena_ejecutar|]. intros v w1 _.
  apply ajena_bind; [apply IH|]. intros; apply ajena_ret.
Qed.

End AjenaMetodos.

(** A list that [libros_prestados] has just made is owned by no user. *)
Lemma libre_fresh w l :
  inv_usuarios w →
  libre (fresh (dom (listas w))) (con_listas <[fresh (dom (listas w)) := l]> w).
Proof.
  intros [Hinv _]. split; [simpl; by rewrite lookup_insert_eq|].
  intros k u Hu Heq. destruct (Hinv k u Hu) as (l0 & Hl0 & _).
  by rewrite Heq, fresh_lookup_None in Hl0.
Qed.

(** C10.  The property [libros_prestados] returns a new list object with
    the books the user holds, not the list the user owns.  Whatever client
    code then puts in the returned list, the list the user owns is what it
    was, [puede_prestar] answers the same, and every later run of calls
    (loans and returns among them) returns the same values, raises the same
    exceptions and leaves the same world, but for the returned list. *)
Theorem C10_libros_prestados (w : Mundo) (self : ref) (u : Usuario) (l : list ref) :
  inv_usuarios w →
  usuarios w !! self = Some u → listas w !! _libros_prestados u = Some l →
  ∃ r, libros_prestados self w = Ok (r, con_listas <[r := l]> w)
    ∧ listas w !! r = None ∧ r ≠ _libros_prestados u
    ∧ ∀ contenido,
        let w1 := con_listas <[r := l]> w in
        let w2 := mutar_lista r contenido w1 in
        listas w2 !! r = Some contenido
        ∧ listas w2 !! _libros_prestados u = Some l
        ∧ usuarios w2 = usuarios w
        ∧ puede_prestar self w = Ok (elegible u l, w)
        ∧ puede_prestar self w2 = Ok (elegible u l, w2)
        ∧ ∀ cs, ejecutar_todas cs w2
                = traslada (mutar_lista r contenido) (ejecutar_todas cs w1).
Proof.
  intros Hw Hu Hl. exists (fresh (dom (listas w))).
  assert (fresh (dom (listas w)) ≠ _libros_prestados u) as Hne.
  { intros Heq. by rewrite <- Heq, fresh_lookup_None in Hl. }
  split; [|split; [apply fresh_lookup_None|split; [done|]]].
  - unfold libros_prestados.
    rewrite (bind_Ok _ _ _ _ _ (leer_usuario_Ok _ _ _ Hu)).
    by rewrite (bind_Ok _ _ _ _ _ (leer_lista_Ok _ _ _ Hl)).
  - intros contenido w1 w2.
    assert (listas w2 !! _libros_prestados u = Some l) as Hl2.
    { simpl. by rewrite !lookup_insert_ne. }
    split; [apply lookup_insert_eq|]. split; [done|]. split; [done|].
    split; [by apply puede_prestar_Ok|]. split; [by apply puede_prestar_Ok|].
    intros cs. by apply ajena_ejecutar_todas, libre_fresh.
Qed.

(* ===================================================================== *)
(** * Whole runs of the library example *)
(* ===================================================================== *)

(** ** The history of a user *)

Lemma evoluciona_refl p : evoluciona p p.
Proof. by left. Qed.

Lemma evoluciona_trans p q r : evoluciona p q → evoluciona q r → evoluciona p r.
Proof.
  intros [->|(Hp & t & d & ->)]; [done|].
  intros [->|(Hq & _)]; [right; eauto|]. discriminate.
Qed.

Lemma Forall2_evoluciona_refl h : Forall2 evoluciona h h.
Proof. induction h; constructor; [apply evoluciona_refl|done]. Qed.

Lemma Forall2_evoluciona_trans h1 h2 h3 :
  Forall2 evoluciona h1 h2 → Forall2 evoluciona h2 h3 → Forall2 evoluciona h1 h3.
Proof.
  intros H. revert h3. induction H as [|p q h1 h2 Hpq _ IH]; intros h3 H3.
  - by inversion H3.
  - inversion H3 as [|? r ? h3' Hqr H3']; subst. constructor.
    + by eapply evoluciona_trans.
    + by apply IH.
Qed.

Lemma continua_refl h : continua h h.
Proof.
  exists h, []. split; [by rewrite app_nil_r|apply Forall2_evoluciona_refl].
Qed.

Lemma continua_trans h1 h2 h3 : continua h1 h2 → continua h2 h3 → continua h1 h3.
Proof.
  intros (k1 & n1 & -> & H1) (k2 & n2 & -> & H2).
  apply Forall2_app_inv_l in H2 as (k2a & k2b & Ha & Hb & ->).
  exists k2a, (k2b ++ n2). split; [by rewrite app_assoc|].
  by eapply Forall2_evoluciona_trans.
Qed.

Lemma historial_cerrado_evoluciona isbn t dias h :
  Forall2 evoluciona h (historial_cerrado isbn t dias h).
Proof.
  unfold historial_cerrado.
  destruct (buscar isbn (reverse h)) as [i|] eqn:Hb;
    [|apply Forall2_evoluciona_refl].
  apply buscar_reverse_Some in Hb as [_ [(p & Hp & Ha) _]].
  apply Forall2_alter_r; [apply Forall2_evoluciona_refl|].
  intros x y Hx Hy _. rewrite Hp in Hx, Hy. injection Hx as <-. injection Hy as <-.
  right. unfold abierto in Ha. apply andb_true_iff in Ha as [_ Ha].
  apply negb_true_iff in Ha. eauto.
Qed.

(** What a call does to the history of a user: a successful loan to the
    user appends an open entry, and any other call leaves the history or
    goes through it as [devolver_libro] does. *)
Lemma ejecutar_historial c v w w' r u :
  ejecutar c w = Ok (v, w') → usuarios w !! r = Some u →
  ∃ u', usuarios w' !! r = Some u'
    ∧ if logrado r c v
      then ∃ p, _historial_prestamos u' = _historial_prestamos u ++ [p]
                ∧ devuelto p = false
      else _historial_prestamos u' = _historial_prestamos u
           ∨ ∃ isbn t dias,
               _historial_prestamos u'
               = historial_cerrado isbn t dias (_historial_prestamos u).
Proof.
  intros H Hu.
  destruct c; simpl in H;
    apply bind_Ok_inv in H as (x & w1 & H & Hret);
    cbv [ret] in Hret; injection Hret as <- <-.
  - rewrite Libro_init_Ok in H. injection H as _ <-. exists u. simpl. auto.
  - rewrite Usuario_init_Ok in H. injection H as _ <-. exists u. simpl.
    split; [|auto]. rewrite lookup_insert_ne; [done|].
    intros Heq. by rewrite <- Heq, fresh_lookup_None in Hu.
  - apply prestar_inv in H as (l & _ & _ & ->). exists u.
    destruct x; simpl; auto.
  - apply devolver_mismos_usuarios in H as [Hus _]. exists u. rewrite Hus.
    simpl. auto.
  - apply puede_prestar_inv in H as [-> _]. exists u. simpl. auto.
  - apply prestar_libro_inv in H as (u0 & l & Hu0 & Hl & H). destruct x.
    + destruct H as (_ & b & _ & _ & ->). simpl.
      destruct (decide (usuario = r)) as [->|Hne].
      * rewrite lookup_insert_eq, bool_decide_eq_true_2 by done.
        rewrite Hu in Hu0. injection Hu0 as <-.
        eexists. split; [done|]. simpl. eauto.
      * rewrite lookup_insert_ne, bool_decide_eq_false_2 by done. eauto.
    + subst. exists u. simpl. auto.
  - apply devolver_libro_inv in H as (u0 & l & Hu0 & Hl & [(_ & _ & ->)|(Hin & H)]);
      [exists u; simpl; auto|].
    destruct H as (d & quien & w0 & l' & b & Hd & Hr & _ & _ & ->).
    pose proof (devolver_mismos_usuarios _ _ _ _ Hd) as [Hus _].
    simpl. rewrite Hus.
    destruct (decide (usuario = r)) as [->|Hne];
      [|rewrite lookup_insert_ne by done; eauto].
    rewrite lookup_insert_eq. rewrite Hu in Hu0. injection Hu0 as <-.
    eexists. split; [done|]. right. exists (_isbn b), (ahora w0), d.
    unfold usuario_tras_devolver. by destruct (0 <? d).
  - apply pagar_multa_inv in H as (u0 & Hu0 & [(_ & -> & ->)|(_ & _ & ->)]);
      [|exists u; simpl; auto].
    simpl. destruct (decide (usuario = r)) as [->|Hne];
      [|rewrite lookup_insert_ne by done; eauto].
    rewrite lookup_insert_eq. rewrite Hu in Hu0. injection Hu0 as <-.
    eexists. split; [done|]. simpl. auto.
  - apply libros_prestados_inv in H as (u0 & l & _ & _ & _ & ->).
    exists u. simpl. auto.
  - apply multa_acumulada_inv in H as [-> _]. exists u. simpl. auto.
Qed.

Lemma ejecutar_continua c v w w' r u :
  ejecutar c w = Ok (v, w') → usuarios w !! r = Some u →
  ∃ u', usuarios w' !! r = Some u'
        ∧ continua (_historial_prestamos u) (_historial_prestamos u').
Proof.
  intros H Hu. destruct (ejecutar_historial _ _ _ _ _ _ H Hu) as (u' & Hu' & Hh).
  exists u'. split; [done|]. destruct (logrado r c v).
  - destruct Hh as (p & -> & _). eexists _, [p].
    split; [done|apply Forall2_evoluciona_refl].
  - destruct Hh as [->|(isbn & t & d & ->)]; [apply continua_refl|].
    eexists _, []. split; [by rewrite app_nil_r|].
    apply historial_cerrado_evoluciona.
Qed.

Lemma ejecutar_todas_continua cs : ∀ vs w w' r u,
  ejecutar_todas cs w = Ok (vs, w') → usuarios w !! r = Some u →
  ∃ u', usuarios w' !! r = Some u'
        ∧ continua (_historial_prestamos u) (_historial_prestamos u').
Proof.
  induction cs as [|c cs IH]; intros vs w w' r u H Hu.
  - cbv [ejecutar_todas ret] in H. injection H as <- <-.
    exists u. split; [done|apply continua_refl].
  - apply ejecutar_todas_inv in H as (v & vs' & w1 & Hc & Hcs & _).
    destruct (ejecutar_continua _ _ _ _ _ _ Hc Hu) as (u1 & Hu1 & H1).
    destruct (IH _ _ _ _ _ Hcs Hu1) as (u' & Hu' & H').
    exists u'. split; [done|]. by eapply continua_trans.
Qed.

(** X1.  Along any run of calls, a user stays and their loan history only
    goes on: no entry is removed or moved, the title, ISBN, loan timestamp
    and type of an entry never change, an entry that is closed stays
    exactly as it is, and an entry changes only by being closed. *)
Theorem historial_solo_continua (cs : list Llamada) (vs : list Valor) (w w' : Mundo)
    (r : ref) (u : Usuario) :
  ejecutar_todas cs w = Ok (vs, w') → usuarios w !! r = Some u →
  ∃ u', usuarios w' !! r = Some u'
    ∧ (length (_historial_prestamos u) ≤ length (_historial_prestamos u'))%nat
    ∧ ∀ i p, _historial_prestamos u !! i = Some p →
        ∃ p', _historial_prestamos u' !! i = Some p'
          ∧ libro_titulo p' = libro_titulo p ∧ libro_isbn p' = libro_isbn p
          ∧ fecha_prestamo p' = fecha_prestamo p ∧ tipo_libro p' = tipo_libro p
          ∧ (devuelto p = true → p' = p)
          ∧ (p' ≠ p → devuelto p = false ∧ devuelto p' = true
                      ∧ is_Some (fecha_devolucion p') ∧ is_Some (dias_retraso p')).
Proof.
  intros H Hu.
  destruct (ejecutar_todas_continua _ _ _ _ _ _ H Hu) as (u' & Hu' & Hc).
  exists u'. split; [done|]. destruct Hc as (h1 & nuevos & -> & Hf).
  split.
  - rewrite length_app, <- (Forall2_length _ _ _ Hf). lia.
  - intros i p Hp. destruct (Forall2_lookup_l _ _ _ _ _ Hf Hp) as (p' & Hp' & Hev).
    exists p'. split; [by apply lookup_app_l_Some|].
    destruct Hev as [->|(Hd & t & d & ->)].
    + repeat split; try done.
    + repeat split; try done; simpl; eauto. intros Ht. congruence.
Qed.

Lemma total_prestamos_historicos_Ok w r u :
  usuarios w !! r = Some u →
  total_prestamos_historicos r w
  = Ok (Z.of_nat (length (_historial_prestamos u)), w).
Proof.
  intros Hu. unfold total_prestamos_historicos.
  by rewrite (bind_Ok _ _ _ _ _ (leer_usuario_Ok _ _ _ Hu)).
Qed.

Lemma total_prestamos_historicos_inv w r n w' :
  total_prestamos_historicos r w = Ok (n, w') →
  w' = w ∧ ∃ u, usuarios w !! r = Some u
                ∧ n = Z.of_nat (length (_historial_prestamos u)).
Proof.
  intros H. unfold total_prestamos_historicos in H.
  apply bind_Ok_inv in H as (u & w0 & [Hu ->]%leer_usuario_inv & H).
  cbv [ret] in H. injection H as <- <-. eauto.
Qed.

Lemma length_historial_cerrado isbn t dias h :
  length (historial_cerrado isbn t dias h) = length h.
Proof.
  symmetry. apply (Forall2_length _ _ _ (historial_cerrado_evoluciona isbn t dias h)).
Qed.

Lemma ejecutar_todas_length cs : ∀ vs w w' r u,
  ejecutar_todas cs w = Ok (vs, w') → usuarios w !! r = Some u →
  ∃ u', usuarios w' !! r = Some u'
    ∧ Z.of_nat (length (_historial_prestamos u'))
      = Z.of_nat (length (_historial_prestamos u)) + prestamos_logrados r cs vs.
Proof.
  induction cs as [|c cs IH]; intros vs w w' r u H Hu.
  - cbv [ejecutar_todas ret] in H. injection H as <- <-.
    exists u. split; [done|]. simpl. lia.
  - apply ejecutar_todas_inv in H as (v & vs' & w1 & Hc & Hcs & ->).
    destruct (ejecutar_historial _ _ _ _ _ _ Hc Hu) as (u1 & Hu1 & H1).
    destruct (IH _ _ _ _ _ Hcs Hu1) as (u' & Hu' & H').
    exists u'. split; [done|]. rewrite H'. simpl.
    destruct (logrado r c v).
    + destruct H1 as (p & -> & _). rewrite length_app. simpl. lia.
    + destruct H1 as [->|(isbn & t & d & ->)]; [lia|].
      rewrite length_historial_cerrado. lia.
Qed.

(** X2.  [total_prestamos_historicos] counts the successful loans: after a
    run it has grown by the number of calls [prestar_libro] of this user
    that returned [True], whatever else was called (returns, payments,
    refused loans, the calls of other users). *)
Theorem total_prestamos_historicos_cuenta (cs : list Llamada) (vs : list Valor)
    (w w' : Mundo) (r : ref) (n : Z) :
  ejecutar_todas cs w = Ok (vs, w') →
  total_prestamos_historicos r w = Ok (n, w) →
  total_prestamos_historicos r w' = Ok (n + prestamos_logrados r cs vs, w').
Proof.
  intros H (_ & u & Hu & ->)%total_prestamos_historicos_inv.
  destruct (ejecutar_todas_length _ _ _ _ _ _ H Hu) as (u' & Hu' & Hlen).
  by rewrite (total_prestamos_historicos_Ok _ _ _ Hu'), Hlen.
Qed.

(** ** Calls never fail on objects that exist *)

Lemma remove_elem_of_inv x l l' b : remove x l = Some l' → b ∈ l' → b ∈ l.
Proof.
  intros (l1 & l2 & -> & -> & _)%remove_Some_inv.
  rewrite !elem_of_app, elem_of_cons. tauto.
Qed.

Lemma remove_NoDup x l l' :
  remove x l = Some l' → NoDup l →
  NoDup l' ∧ (x ∉ l') ∧ ∀ b, b ∈ l → b ≠ x → b ∈ l'.
Proof.
  intros (l1 & l2 & -> & -> & Hx)%remove_Some_inv Hnd.
  apply NoDup_app in Hnd as (H1 & H12 & H2). apply NoDup_cons in H2 as [Hx2 H2].
  split; [|split].
  - apply NoDup_app. split; [done|]. split; [|done].
    intros b Hb Hb2. apply (H12 b Hb). by apply elem_of_cons; right.
  - rewrite elem_of_app. tauto.
  - intros b. rewrite !elem_of_app, elem_of_cons. tauto.
Qed.

Lemma remove_snoc x l : (x ∉ l) → remove x (l ++ [x]) = Some l.
Proof.
  induction l as [|y l IH]; intros Hx; simpl.
  - by rewrite decide_True.
  - apply not_elem_of_cons in Hx as [Hne Hx].
    rewrite decide_False by done. by rewrite IH.
Qed.

Lemma remove_filter_length (f : ref → bool) x l l' :
  remove x l = Some l' →
  length (List.filter f l)
  = (length (List.filter f l') + if f x then 1 else 0)%nat.
Proof.
  intros (l1 & l2 & -> & -> & _)%remove_Some_inv.
  rewrite !List.filter_app, !length_app. simpl.
  destruct (f x); simpl; lia.
Qed.

(** A user is updated, with the list they own; no book disappears. *)
Lemma existentes_actualiza w w' self u u' l' :
  inv_usuarios w → existentes w →
  usuarios w !! self = Some u →
  usuarios w' = <[self := u']> (usuarios w) →
  _libros_prestados u' = _libros_prestados u →
  listas w' = <[_libros_prestados u := l']> (listas w) →
  (∀ b, is_Some (libros w !! b) → is_Some (libros w' !! b)) →
  (∀ b, b ∈ l' → is_Some (libros w' !! b)) →
  existentes w'.
Proof.
  intros [_ Hinj] Hex Hu Hus Hlp Hls Hmono Hl' r v l b.
  rewrite Hus, Hls. destruct (decide (self = r)) as [<-|Hne].
  - rewrite lookup_insert_eq. intros [= <-]. rewrite Hlp, lookup_insert_eq.
    intros [= <-]. apply Hl'.
  - rewrite lookup_insert_ne by done. intros Hv.
    rewrite lookup_insert_ne by (intros Heq; apply Hne; by apply (Hinj self r u v)).
    intros Hl Hb. apply Hmono. by apply (Hex r v l b).
Qed.

(** Users and lists are what they were; no book disappears. *)
Lemma existentes_libros w w' :
  existentes w → usuarios w' = usuarios w → listas w' = listas w →
  (∀ b, is_Some (libros w !! b) → is_Some (libros w' !! b)) →
  existentes w'.
Proof.
  intros Hex Hus Hls Hmono r u l b. rewrite Hus, Hls. intros Hu Hl Hb.
  apply Hmono. by apply (Hex r u l b).
Qed.

Lemma insert_is_Some_mono {A} (m : gmap ref A) k x b :
  is_Some (m !! b) → is_Some (<[k := x]> m !! b).
Proof. intros H. apply lookup_insert_is_Some. destruct (decide (k = b)); auto. Qed.

Lemma devolver_libros_quedan w self r w1 b :
  devolver self w = Ok (r, w1) → is_Some (libros w !! b) → is_Some (libros w1 !! b).
Proof.
  destruct r as [d quien].
  intros (l & _ & [(_ & _ & _ & ->)|(_ & f & _ & _ & _ & ->)])%devolver_inv; [done|].
  apply insert_is_Some_mono.
Qed.

Lemma ejecutar_existentes c v w w' :
  inv_usuarios w → existentes w → ejecutar c w = Ok (v, w') → existentes w'.
Proof.
  intros Hw Hex H. destruct c; simpl in H;
    apply bind_Ok_inv in H as (x & w1 & H & Hret);
    cbv [ret] in Hret; injection Hret as _ <-.
  - rewrite Libro_init_Ok in H. injection H as _ <-.
    apply (existentes_libros w); try done. intros b. apply insert_is_Some_mono.
  - rewrite Usuario_init_Ok in H. injection H as _ <-.
    intros r u l b. simpl.
    destruct (decide (fresh (dom (usuarios w)) = r)) as [<-|Hne].
    + rewrite lookup_insert_eq. intros [= <-]. simpl. rewrite lookup_insert_eq.
      by intros [= <-] ?%elem_of_nil.
    + rewrite lookup_insert_ne by done. intros Hu.
      destruct (proj1 Hw r u Hu) as (l0 & Hl0 & _).
      rewrite lookup_insert_ne
        by (intros Heq; by rewrite <- Heq, fresh_lookup_None in Hl0).
      by apply (Hex r u l b).
  - apply prestar_inv in H as (l & _ & _ & ->). destruct x; [|done].
    apply (existentes_libros w); try done. intros b. apply insert_is_Some_mono.
  - pose proof (devolver_mismos_usuarios _ _ _ _ H) as [Hus Hls].
    apply (existentes_libros w); try done. intros b.
    by apply (devolver_libros_quedan _ _ _ _ _ H).
  - by apply puede_prestar_inv in H as [-> _].
  - apply prestar_libro_inv in H as (u & l & Hu & Hl & H). destruct x; [|by subst].
    destruct H as (_ & b & Hb & _ & ->).
    eapply (existentes_actualiza w _ usuario u _ (l ++ [libro]) Hw Hex Hu);
      [reflexivity|reflexivity|reflexivity| |].
    + intros b0. apply insert_is_Some_mono.
    + intros b0 [Hb0| ->%list_elem_of_singleton]%elem_of_app.
      * apply insert_is_Some_mono. by apply (Hex usuario u l b0).
      * simpl. by rewrite lookup_insert_eq.
  - apply devolver_libro_inv in H as (u & l & Hu & Hl & [(_ & _ & ->)|(Hin & H)]);
      [done|].
    destruct H as (d & quien & w0 & l' & b & Hd & Hr & _ & _ & ->).
    pose proof (devolver_mismos_usuarios _ _ _ _ Hd) as [Hus Hls].
    eapply (existentes_actualiza w _ usuario u _ l' Hw Hex Hu).
    + simpl. by rewrite Hus.
    + unfold usuario_tras_devolver. by destruct (0 <? d).
    + simpl. by rewrite Hls.
    + intros b0. by apply (devolver_libros_quedan _ _ _ _ _ Hd).
    + intros b0 Hb0. apply (devolver_libros_quedan _ _ _ _ _ Hd).
      apply (Hex usuario u l b0 Hu Hl). by eapply remove_elem_of_inv.
  - apply pagar_multa_inv in H as (u & Hu & [(_ & -> & ->)|(_ & _ & ->)]); [|done].
    destruct (proj1 Hw usuario u Hu) as (l & Hl & _).
    eapply (existentes_actualiza w _ usuario u _ l Hw Hex Hu);
      [reflexivity|reflexivity| |done|intros b0 Hb0; by apply (Hex usuario u l b0)].
    simpl. by rewrite insert_id.
  - apply libros_prestados_inv in H as (u & l & _ & _ & -> & ->).
    intros r u0 l0 b. simpl. intros Hu0.
    destruct (proj1 Hw r u0 Hu0) as (l1 & Hl1 & _).
    rewrite lookup_insert_ne
      by (intros Heq; by rewrite <- Heq, fresh_lookup_None in Hl1).
    by apply (Hex r u0 l0 b).
  - by apply multa_acumulada_inv in H as [-> _].
Qed.

(** The three invariants that every run keeps. *)
Lemma ejecutar_todas_sano reloj cs vs w :
  ejecutar_todas cs (mundo_vacio reloj) = Ok (vs, w) →
  inv_libros w ∧ inv_usuarios w ∧ existentes w.
Proof.
  apply (ejecutar_todas_ind (λ w, inv_libros w ∧ inv_usuarios w ∧ existentes w)).
  - intros c v w0 w' (Hl & Hu & He) H. split; [|split].
    + by eapply ejecutar_inv_libros.
    + by eapply ejecutar_inv_usuarios.
    + by eapply ejecutar_existentes.
  - split; [by intros r l|]. split; [apply inv_usuarios_vacio|].
    intros r u l b. simpl. by rewrite lookup_empty.
Qed.

Lemma libros_prestados_Ok w self u l :
  usuarios w !! self = Some u → listas w !! _libros_prestados u = Some l →
  libros_prestados self w
  = Ok (fresh (dom (listas w)), con_listas <[fresh (dom (listas w)) := l]> w).
Proof.
  intros Hu Hl. unfold libros_prestados.
  rewrite (bind_Ok _ _ _ _ _ (leer_usuario_Ok _ _ _ Hu)).
  by rewrite (bind_Ok _ _ _ _ _ (leer_lista_Ok _ _ _ Hl)).
Qed.

Lemma devolver_Ok w self l :
  inv_libros w → libros w !! self = Some l → ∃ r w1, devolver self w = Ok (r, w1).
Proof.
  intros Hinv Hl. destruct (_disponible l) eqn:Hd.
  - eexists _, _. by eapply devolver_disponible.
  - pose proof (Hinv self l Hl) as Hi. unfold inv_libro in Hi. rewrite Hd in Hi.
    destruct (_fecha_prestamo l) as [f|] eqn:Hf; [|done].
    eexists _, _. by eapply devolver_prestado.
Qed.

Lemma ejecutar_Ok w c :
  inv_libros w → inv_usuarios w → existentes w → refs_validas w c →
  ∃ v w', ejecutar c w = Ok (v, w').
Proof.
  intros Hl Hu He Hc. destruct c; simpl in Hc; simpl.
  - rewrite (bind_Ok _ _ _ _ _ (Libro_init_Ok _ _ _ _ _ _)). by eexists _, _.
  - rewrite (bind_Ok _ _ _ _ _ (Usuario_init_Ok _ _ _ _ _)). by eexists _, _.
  - destruct Hc as [b Hb]. destruct (_disponible b) eqn:Hd.
    + rewrite (bind_Ok _ _ _ _ _ (prestar_disponible _ _ _ _ Hb Hd)). by eexists _, _.
    + rewrite (bind_Ok _ _ _ _ _ (prestar_no_disponible _ _ _ _ Hb Hd)).
      by eexists _, _.
  - destruct Hc as [b Hb]. destruct (devolver_Ok _ _ _ Hl Hb) as (r & w1 & Hd).
    rewrite (bind_Ok _ _ _ _ _ Hd). by eexists _, _.
  - destruct Hc as [u Hus]. destruct (proj1 Hu _ _ Hus) as (l & Hls & _).
    rewrite (bind_Ok _ _ _ _ _ (puede_prestar_Ok _ _ _ _ Hus Hls)). by eexists _, _.
  - destruct Hc as [[u Hus] [b Hb]]. destruct (proj1 Hu _ _ Hus) as (l & Hls & _).
    destruct (elegible u l) eqn:Hel.
    + pose proof (prestar_libro_elegible _ _ _ _ _ _ Hus Hls Hb Hel) as Hp.
      destruct (_disponible b); rewrite (bind_Ok _ _ _ _ _ Hp); by eexists _, _.
    + pose proof (puede_prestar_Ok _ _ _ _ Hus Hls) as Hp. rewrite Hel in Hp.
      rewrite (bind_Ok _ _ _ _ _ (prestar_libro_no_elegible _ _ libro Hp)).
      by eexists _, _.
  - destruct Hc as [u Hus]. destruct (proj1 Hu _ _ Hus) as (l & Hls & _).
    destruct (decide (libro ∈ l)) as [Hin|Hin].
    + destruct (He _ _ _ _ Hus Hls Hin) as [b Hb].
      destruct (devolver_Ok _ _ _ Hl Hb) as ([d quien] & w1 & Hd).
      destruct (devolver_libro_tenido _ _ _ _ _ _ _ _ Hus Hls Hin Hd)
        as (l' & b' & _ & _ & Hdl).
      rewrite (bind_Ok _ _ _ _ _ Hdl). by eexists _, _.
    + rewrite (bind_Ok _ _ _ _ _ (devolver_libro_no_tenido _ _ _ _ _ Hus Hls Hin)).
      by eexists _, _.
  - destruct Hc as [u Hus].
    pose proof (pagar_multa_Ok _ _ _ cantidad Hus) as Hp.
    destruct (0 <? cantidad)%float; rewrite (bind_Ok _ _ _ _ _ Hp); by eexists _, _.
  - destruct Hc as [u Hus]. destruct (proj1 Hu _ _ Hus) as (l & Hls & _).
    rewrite (bind_Ok _ _ _ _ _ (libros_prestados_Ok _ _ _ _ Hus Hls)).
    by eexists _, _.
  - destruct Hc as [u Hus].
    rewrite (bind_Ok _ _ _ _ _ (multa_acumulada_Ok _ _ _ Hus)). by eexists _, _.
Qed.

(** The only exception of the model, when a method meets an object that is
    not there. *)
Lemma ejecutar_Raise w c e :
  inv_libros w → inv_usuarios w → existentes w →
  ejecutar c w = Raise e → e = ReferenciaInvalida ∧ ¬ refs_validas w c.
Proof.
  intros Hl Hu He H.
  assert (¬ refs_validas w c) as Hno.
  { intros Hc. destruct (ejecutar_Ok w c Hl Hu He Hc) as (v & w' & Hok). congruence. }
  split; [|done].
  destruct c; simpl in Hno;
    try (exfalso; apply Hno; exact I); simpl in H.
  - destruct (libros w !! libro) as [b|] eqn:Hb; [destruct Hno; eauto|].
    cbv [bind prestar leer_libro] in H. rewrite Hb in H. congruence.
  - destruct (libros w !! libro) as [b|] eqn:Hb; [destruct Hno; eauto|].
    cbv [bind devolver leer_libro] in H. rewrite Hb in H. congruence.
  - destruct (usuarios w !! usuario) as [u|] eqn:Hus; [destruct Hno; eauto|].
    cbv [bind puede_prestar leer_usuario] in H. rewrite Hus in H. congruence.
  - destruct (usuarios w !! usuario) as [u|] eqn:Hus.
    + destruct (proj1 Hu _ _ Hus) as (l & Hls & _).
      destruct (libros w !! libro) as [b|] eqn:Hb; [destruct Hno; eauto|].
      cbv [bind prestar_libro] in H.
      rewrite (puede_prestar_Ok _ _ _ _ Hus Hls) in H.
      destruct (elegible u l); [|discriminate].
      cbv [bind prestar leer_libro] in H. rewrite Hb in H. congruence.
    + cbv [bind prestar_libro puede_prestar leer_usuario] in H. rewrite Hus in H.
      congruence.
  - destruct (usuarios w !! usuario) as [u|] eqn:Hus; [destruct Hno; eauto|].
    cbv [bind devolver_libro leer_usuario] in H. rewrite Hus in H. congruence.
  - destruct (usuarios w !! usuario) as [u|] eqn:Hus; [destruct Hno; eauto|].
    cbv [bind pagar_multa leer_usuario] in H. rewrite Hus in H. congruence.
  - destruct (usuarios w !! usuario) as [u|] eqn:Hus; [destruct Hno; eauto|].
    cbv [bind libros_prestados leer_usuario] in H. rewrite Hus in H. congruence.
  - destruct (usuarios w !! usuario) as [u|] eqn:Hus; [destruct Hno; eauto|].
    cbv [bind multa_acumulada leer_usuario] in H. rewrite Hus in H. congruence.
Qed.

(** X3.  In a world that a run of calls has built, a call on objects that
    exist always returns: [devolver] never meets a book on loan without a
    loan timestamp (no [TypeError] from [datetime.now() - None]), and
    [devolver_libro] never fails to remove the book from the held list (no
    [ValueError] from [list.remove]) nor meets a held book that does not
    exist. *)
Theorem llamada_sin_excepcion (reloj : nat → datetime) (cs : list Llamada)
    (vs : list Valor) (w : Mundo) (c : Llamada) :
  ejecutar_todas cs (mundo_vacio reloj) = Ok (vs, w) →
  (refs_validas w c → ∃ v w', ejecutar c w = Ok (v, w'))
  ∧ ejecutar c w ≠ Raise TypeError ∧ ejecutar c w ≠ Raise ValueError.
Proof.
  intros (Hl & Hu & He)%ejecutar_todas_sano. split; [|split].
  - by apply ejecutar_Ok.
  - intros H. by apply ejecutar_Raise in H as [? _].
  - intros H. by apply ejecutar_Raise in H as [? _].
Qed.

(** ** Held lists and books agree *)

(** A property of worlds kept by the calls of a kind is kept by the runs
    of such calls. *)
Lemma ejecutar_todas_ind_si (Q : Llamada → bool) (P : Mundo → Prop) :
  (∀ c v w w', Q c = true → P w → ejecutar c w = Ok (v, w') → P w') →
  ∀ cs vs w w', forallb Q cs = true → P w →
    ejecutar_todas cs w = Ok (vs, w') → P w'.
Proof.
  intros Hstep cs. induction cs as [|c cs IH]; intros vs w w' HQ HP H.
  - cbv [ejecutar_todas ret] in H. by injection H as <- <-.
  - simpl in HQ. apply andb_true_iff in HQ as [Hc Hcs].
    apply ejecutar_todas_inv in H as (v & vs' & w1 & Hc1 & Hcs1 & _).
    eapply IH; [done| |exact Hcs1]. eapply Hstep; eauto.
Qed.

Lemma coherente_vacio reloj : coherente (mundo_vacio reloj).
Proof. split; intros r; intros; simpl in *; by rewrite lookup_empty in *. Qed.

Lemma coherente_existentes w : coherente w → existentes w.
Proof.
  intros [Hc _] r u l b Hu Hl Hb.
  destruct (proj2 (Hc r u l Hu Hl) b Hb) as (lib & Hlib & _). eauto.
Qed.

(** A user is updated, with the list they own and the books that enter or
    leave it. *)
Lemma coherente_actualiza w w' self u u' l l' :
  inv_usuarios w → coherente w →
  usuarios w !! self = Some u → listas w !! _libros_prestados u = Some l →
  usuarios w' = <[self := u']> (usuarios w) →
  _libros_prestados u' = _libros_prestados u →
  listas w' = <[_libros_prestados u := l']> (listas w) →
  NoDup l' →
  (∀ b, b ∈ l' → ∃ lib, libros w' !! b = Some lib ∧ _disponible lib = false
                        ∧ _usuario_actual lib = Some self) →
  (∀ b, b ∈ l' → b ∈ l ∨ ∃ lib, libros w !! b = Some lib ∧ _disponible lib = true) →
  (∀ b, b ∈ l → (b ∉ l') → ∃ lib, libros w' !! b = Some lib ∧ _disponible lib = true) →
  (∀ b, (b ∉ l) → (b ∉ l') → libros w' !! b = libros w !! b) →
  coherente w'.
Proof.
  intros [Hinv Hinj] [Hc1 Hc2] Hu Hl Hus Hlp Hls Hnd H1 H4 H2 H3.
  assert (∀ r v, usuarios w !! r = Some v → self ≠ r →
            _libros_prestados u ≠ _libros_prestados v) as Hotro.
  { intros r v Hv Hne Heq. apply Hne. by apply (Hinj self r u v). }
  split.
  - intros r v lv. rewrite Hus, Hls. destruct (decide (self = r)) as [<-|Hne].
    + rewrite lookup_insert_eq. intros [= <-]. rewrite Hlp, lookup_insert_eq.
      by intros [= <-].
    + rewrite lookup_insert_ne by done. intros Hv.
      rewrite lookup_insert_ne by by apply (Hotro r v).
      intros Hlv. destruct (Hc1 r v lv Hv Hlv) as [Hndv Hbs]. split; [done|].
      intros b Hb. destruct (Hbs b Hb) as (lib & Hlib & Hd & Hq).
      assert (b ∉ l) as Hbl.
      { intros Hbl. destruct (proj2 (Hc1 self u l Hu Hl) b Hbl) as (lib2 & Hlib2 & _ & Hq2).
        congruence. }
      exists lib. rewrite H3; [done|done|].
      intros Hbl'. destruct (H4 b Hbl') as [?|(lib2 & Hlib2 & Hd2)]; [done|congruence].
  - intros b lib' Hlib' Hd'. destruct (decide (b ∈ l')) as [Hbl'|Hbl'].
    + destruct (H1 b Hbl') as (lib2 & Hlib2 & _ & Hq2).
      exists self, u', l'. rewrite Hus, Hls, Hlp, !lookup_insert_eq.
      split; [congruence|done].
    + destruct (decide (b ∈ l)) as [Hbl|Hbl].
      * destruct (H2 b Hbl Hbl') as (lib2 & Hlib2 & Hd2). congruence.
      * rewrite (H3 b Hbl Hbl') in Hlib'.
        destruct (Hc2 b lib' Hlib' Hd') as (r & v & lv & Hq & Hv & Hlv & Hb).
        assert (self ≠ r) as Hne.
        { intros <-. rewrite Hu in Hv. injection Hv as <-.
          rewrite Hl in Hlv. by injection Hlv as <-. }
        exists r, v, lv. rewrite Hus, Hls, !lookup_insert_ne; [done| |done].
        by apply (Hotro r v).
Qed.

(** A list object is created, which no user owns. *)
Lemma coherente_lista_nueva w l :
  inv_usuarios w → coherente w →
  coherente (con_listas <[fresh (dom (listas w)) := l]> w).
Proof.
  intros [Hinv _] [Hc1 Hc2].
  assert (∀ r u, usuarios w !! r = Some u →
            fresh (dom (listas w)) ≠ _libros_prestados u) as Hfresh.
  { intros r u Hu Heq. destruct (Hinv r u Hu) as (l0 & Hl0 & _).
    by rewrite <- Heq, fresh_lookup_None in Hl0. }
  split.
  - intros r u l0 Hu. simpl. rewrite lookup_insert_ne by by apply (Hfresh r u).
    by apply Hc1.
  - intros b lib Hlib Hd. destruct (Hc2 b lib Hlib Hd) as (r & u & l0 & Hq & Hu & Hl0 & Hb).
    exists r, u, l0. simpl. rewrite lookup_insert_ne by by apply (Hfresh r u). done.
Qed.

Lemma coherente_Libro_init w c titulo autor isbn año :
  coherente w →
  coherente (con_libros <[fresh (dom (libros w)) :=
                           mkLibro c titulo autor isbn año true None None]> w).
Proof.
  intros [Hc1 Hc2]. split.
  - intros r u l Hu Hl. destruct (Hc1 r u l Hu Hl) as [Hnd Hbs]. split; [done|].
    intros b Hb. destruct (Hbs b Hb) as (lib & Hlib & Hrest). exists lib.
    split; [|done]. simpl. rewrite lookup_insert_ne; [done|].
    intros Heq. by rewrite <- Heq, fresh_lookup_None in Hlib.
  - intros b lib. simpl. destruct (decide (fresh (dom (libros w)) = b)) as [<-|Hne].
    + rewrite lookup_insert_eq. by intros [= <-].
    + rewrite lookup_insert_ne by done. apply Hc2.
Qed.

Lemma coherente_Usuario_init w c nombre identificacion email :
  inv_usuarios w → coherente w →
  coherente (tras_Usuario_init w c nombre identificacion email).
Proof.
  intros [Hinv _] [Hc1 Hc2].
  assert (∀ r u, usuarios w !! r = Some u →
            fresh (dom (listas w)) ≠ _libros_prestados u) as Hfresh.
  { intros r u Hu Heq. destruct (Hinv r u Hu) as (l0 & Hl0 & _).
    by rewrite <- Heq, fresh_lookup_None in Hl0. }
  assert (∀ r u, usuarios w !! r = Some u → fresh (dom (usuarios w)) ≠ r) as Hnuevo.
  { intros r u Hu Heq. by rewrite <- Heq, fresh_lookup_None in Hu. }
  split.
  - intros r u l. simpl.
    destruct (decide (fresh (dom (usuarios w)) = r)) as [<-|Hne].
    + rewrite lookup_insert_eq. intros [= <-]. simpl. rewrite lookup_insert_eq.
      intros [= <-]. split; [apply NoDup_nil_2|]. by intros b ?%elem_of_nil.
    + rewrite lookup_insert_ne by done. intros Hu.
      rewrite lookup_insert_ne by by apply (Hfresh r u). by apply Hc1.
  - intros b lib Hlib Hd. simpl in Hlib.
    destruct (Hc2 b lib Hlib Hd) as (r & u & l0 & Hq & Hu & Hl0 & Hb).
    exists r, u, l0. simpl.
    rewrite !lookup_insert_ne; [done|by apply (Hfresh r u)|by apply (Hnuevo r u)].
Qed.

Lemma coherente_prestar_libro w self libro u l b :
  inv_usuarios w → coherente w →
  usuarios w !! self = Some u → listas w !! _libros_prestados u = Some l →
  libros w !! libro = Some b → _disponible b = true →
  (libro ∉ l) ∧ coherente (tras_prestar_libro w self libro u l b).
Proof.
  intros Hw Hc Hu Hl Hb Hd.
  destruct (proj1 Hc self u l Hu Hl) as [Hnd Hbs].
  assert (∀ b0, b0 ∈ l → b0 ≠ libro) as Hotro.
  { intros b0 Hb0 ->. destruct (Hbs libro Hb0) as (lib & Hlib & Hd' & _). congruence. }
  assert (libro ∉ l) as Hno by (intros Hin; by apply (Hotro libro Hin)).
  split; [done|].
  eapply (coherente_actualiza w _ self u _ l (l ++ [libro]) Hw Hc Hu Hl);
    [reflexivity|reflexivity|reflexivity|..].
  - apply NoDup_app. split; [done|]. split; [|apply NoDup_singleton].
    intros b0 Hb0 ->%list_elem_of_singleton. done.
  - intros b0 [Hb0| ->%list_elem_of_singleton]%elem_of_app.
    + destruct (Hbs b0 Hb0) as (lib & Hlib & Hrest). exists lib. split; [|done].
      simpl. rewrite lookup_insert_ne; [done|]. intros Heq. by apply (Hotro b0).
    + eexists. simpl. rewrite lookup_insert_eq. done.
  - intros b0 [Hb0| ->%list_elem_of_singleton]%elem_of_app; [by left|right; eauto].
  - intros b0 Hb0 Hno0. destruct Hno0. apply elem_of_app. by left.
  - intros b0 Hb0 Hno0. simpl. rewrite lookup_insert_ne; [done|].
    intros <-. apply Hno0. apply elem_of_app. right. by apply list_elem_of_singleton.
Qed.

Lemma coherente_devolver_libro w self libro u l l' b isbn d :
  inv_usuarios w → coherente w →
  usuarios w !! self = Some u → listas w !! _libros_prestados u = Some l →
  libro ∈ l → remove libro l = Some l' → libros w !! libro = Some b →
  coherente
    (tras_devolver_libro
       (con_libros <[libro := set_prestamo b true None None]> (tras_lectura w))
       self u l' isbn d).
Proof.
  intros Hw Hc Hu Hl Hin Hr Hb.
  destruct (proj1 Hc self u l Hu Hl) as [Hnd Hbs].
  destruct (remove_NoDup _ _ _ Hr Hnd) as (Hnd' & Hno & Hquedan).
  eapply (coherente_actualiza w _ self u _ l l' Hw Hc Hu Hl);
    [reflexivity| |reflexivity|done|..].
  - unfold usuario_tras_devolver. by destruct (0 <? d).
  - intros b0 Hb0. destruct (Hbs b0 (remove_elem_of_inv _ _ _ _ Hr Hb0))
      as (lib & Hlib & Hrest).
    exists lib. split; [|done]. simpl. rewrite lookup_insert_ne; [done|].
    by intros <-.
  - intros b0 Hb0. left. by eapply remove_elem_of_inv.
  - intros b0 Hb0 Hno0. destruct (decide (b0 = libro)) as [->|Hne].
    + eexists. simpl. rewrite lookup_insert_eq. done.
    + destruct Hno0. by apply Hquedan.
  - intros b0 Hb0 _. simpl. rewrite lookup_insert_ne; [done|]. by intros <-.
Qed.

(** What [devolver_libro] does in a coherent world: the book it returns is
    on loan, to this user. *)
Lemma devolver_libro_coherente w self libro x w' :
  coherente w → devolver_libro self libro w = Ok (x, w') →
  ∃ u l, usuarios w !! self = Some u ∧ listas w !! _libros_prestados u = Some l
    ∧ (((libro ∉ l) ∧ x = 0%float ∧ w' = w)
       ∨ (libro ∈ l ∧ ∃ l' b f,
            remove libro l = Some l' ∧ libros w !! libro = Some b
            ∧ _disponible b = false ∧ _usuario_actual b = Some self
            ∧ _fecha_prestamo b = Some f
            ∧ let d := Z.max 0 (days (ahora w - f) - calcular_dias_prestamo b) in
              x = multa_por u d
              ∧ w' = tras_devolver_libro
                       (con_libros <[libro := set_prestamo b true None None]>
                          (tras_lectura w))
                       self u l' (_isbn b) d)).
Proof.
  intros Hc H.
  apply devolver_libro_inv in H as (u & l & Hu & Hl & [?|(Hin & H)]);
    exists u, l; (split; [done|split; [done|]]); [by left|right].
  split; [done|].
  destruct H as (d & quien & w0 & l' & b & Hd & Hr & Hb & -> & ->).
  destruct (proj2 (proj1 Hc self u l Hu Hl) libro Hin) as (b' & Hb' & Hdis & Hq).
  rewrite Hb in Hb'. injection Hb' as <-.
  apply devolver_inv in Hd as (b' & Hb' & [(Hdis' & _)|(_ & f & Hf & -> & _ & ->)]);
    rewrite Hb in Hb'; injection Hb' as <-; [congruence|].
  exists l', b, f. done.
Qed.

Lemma ejecutar_coherente c v w w' :
  por_usuario c = true → inv_usuarios w → coherente w →
  ejecutar c w = Ok (v, w') → coherente w'.
Proof.
  intros Hpor Hw Hc H. destruct c; try discriminate; simpl in H;
    apply bind_Ok_inv in H as (x & w1 & H & Hret);
    cbv [ret] in Hret; injection Hret as _ <-.
  - rewrite Libro_init_Ok in H. injection H as _ <-. by apply coherente_Libro_init.
  - rewrite Usuario_init_Ok in H. injection H as _ <-.
    by apply coherente_Usuario_init.
  - by apply puede_prestar_inv in H as [-> _].
  - apply prestar_libro_inv in H as (u & l & Hu & Hl & H). destruct x; [|by subst].
    destruct H as (_ & b & Hb & Hd & ->).
    by apply coherente_prestar_libro.
  - apply (devolver_libro_coherente _ _ _ _ _ Hc) in H
      as (u & l & Hu & Hl & [(_ & _ & ->)|(Hin & H)]); [done|].
    destruct H as (l' & b & f & Hr & Hb & _ & _ & _ & _ & ->).
    by apply (coherente_devolver_libro w usuario libro u l).
  - apply pagar_multa_inv in H as (u & Hu & [(_ & -> & ->)|(_ & _ & ->)]); [|done].
    destruct (proj1 Hw usuario u Hu) as (l & Hl & _).
    destruct (proj1 Hc usuario u l Hu Hl) as [Hnd Hbs].
    eapply (coherente_actualiza w _ usuario u _ l l Hw Hc Hu Hl);
      [reflexivity|reflexivity| |done|done|by left|done|done].
    simpl. by rewrite insert_id.
  - apply libros_prestados_inv in H as (u & l & _ & _ & -> & ->).
    by apply coherente_lista_nueva.
  - by apply multa_acumulada_inv in H as [-> _].
Qed.

(** The invariants of the runs that lend and return through the user. *)
Lemma ejecutar_todas_coherente reloj cs vs w :
  forallb por_usuario cs = true →
  ejecutar_todas cs (mundo_vacio reloj) = Ok (vs, w) →
  inv_libros w ∧ inv_usuarios w ∧ coherente w.
Proof.
  intros Hpor.
  apply (ejecutar_todas_ind_si por_usuario
           (λ w, inv_libros w ∧ inv_usuarios w ∧ coherente w)); [|done|].
  - intros c v w0 w' Hc (Hl & Hu & Hco) H. split; [|split].
    + by eapply ejecutar_inv_libros.
    + by eapply ejecutar_inv_usuarios.
    + by eapply ejecutar_coherente.
  - split; [by intros r l|]. split; [apply inv_usuarios_vacio|apply coherente_vacio].
Qed.

(** X4.  In a run from the empty library that lends and returns through
    the users ([prestar_libro] and [devolver_libro], never the book's own
    [prestar] and [devolver]), held lists and books agree: no held list has
    a book twice, a book is in the held list of a user exactly when it is
    on loan with that user as holder, and every book on loan has a holder
    who is a user; so no book is held by two users. *)
Theorem prestamos_coherentes (reloj : nat → datetime) (cs : list Llamada)
    (vs : list Valor) (w : Mundo) :
  forallb por_usuario cs = true →
  ejecutar_todas cs (mundo_vacio reloj) = Ok (vs, w) →
  (∀ r u l, usuarios w !! r = Some u → listas w !! _libros_prestados u = Some l →
     NoDup l
     ∧ ∀ b, b ∈ l ↔ ∃ lib, libros w !! b = Some lib ∧ _disponible lib = false
                           ∧ _usuario_actual lib = Some r)
  ∧ (∀ b lib, libros w !! b = Some lib → _disponible lib = false →
       ∃ r u, _usuario_actual lib = Some r ∧ usuarios w !! r = Some u)
  ∧ (∀ r1 r2 u1 u2 l1 l2 b,
       usuarios w !! r1 = Some u1 → listas w !! _libros_prestados u1 = Some l1 →
       usuarios w !! r2 = Some u2 → listas w !! _libros_prestados u2 = Some l2 →
       b ∈ l1 → b ∈ l2 → r1 = r2).
Proof.
  intros Hpor H.
  destruct (ejecutar_todas_coherente _ _ _ _ Hpor H) as (_ & _ & [Hc1 Hc2]).
  split; [|split].
  - intros r u l Hu Hl. destruct (Hc1 r u l Hu Hl) as [Hnd Hbs]. split; [done|].
    intros b. split; [apply Hbs|].
    intros (lib & Hlib & Hd & Hq).
    destruct (Hc2 b lib Hlib Hd) as (r' & u' & l' & Hq' & Hu' & Hl' & Hb).
    rewrite Hq in Hq'. injection Hq' as <-. rewrite Hu in Hu'. injection Hu' as <-.
    rewrite Hl in Hl'. by injection Hl' as <-.
  - intros b lib Hlib Hd.
    destruct (Hc2 b lib Hlib Hd) as (r & u & l & Hq & Hu & _). eauto.
  - intros r1 r2 u1 u2 l1 l2 b Hu1 Hl1 Hu2 Hl2 Hb1 Hb2.
    destruct (proj2 (Hc1 r1 u1 l1 Hu1 Hl1) b Hb1) as (lib1 & Hlib1 & _ & Hq1).
    destruct (proj2 (Hc1 r2 u2 l2 Hu2 Hl2) b Hb2) as (lib2 & Hlib2 & _ & Hq2).
    congruence.
Qed.

(** ** Borrowing and returning, a round trip *)

Lemma set_prestamo_disponible b f q :
  inv_libro b = true → _disponible b = true →
  set_prestamo (set_prestamo b false f q) true None None = b.
Proof.
  unfold inv_libro. destruct b as [c t a i y d fp ua]. simpl. intros Hi ->.
  by destruct fp, ua.
Qed.

Lemma prestar_devolver_libro w self libro u l b :
  inv_libros w → inv_usuarios w → coherente w →
  usuarios w !! self = Some u → listas w !! _libros_prestados u = Some l →
  libros w !! libro = Some b → elegible u l = true → _disponible b = true →
  let d := Z.max 0 (days (reloj w (2 + lecturas w) - ahora w)
                    - calcular_dias_prestamo b) in
  ∃ w1 w2 u2,
    prestar_libro self libro w = Ok (true, w1)
    ∧ devolver_libro self libro w1 = Ok (multa_por u d, w2)
    ∧ libros w2 = libros w ∧ listas w2 = listas w
    ∧ usuarios w2 = <[self := u2]> (usuarios w)
    ∧ _historial_prestamos u2
      = _historial_prestamos u
        ++ [mkPrestamo (_titulo b) (_isbn b) (reloj w (1 + lecturas w))
                       (obtener_tipo b) true (Some (reloj w (3 + lecturas w)))
                       (Some d)]
    ∧ _multa_acumulada u2
      = (if 0 <? d then (_multa_acumulada u + multa_por u d)%float
         else _multa_acumulada u)
    ∧ lecturas w2 = (4 + lecturas w)%nat.
Proof.
  intros Hil Hiu Hc Hu Hl Hb He Hd d.
  pose proof (prestar_libro_elegible _ _ _ _ _ _ Hu Hl Hb He) as H1.
  rewrite Hd in H1.
  destruct (coherente_prestar_libro _ _ _ _ _ _ Hiu Hc Hu Hl Hb Hd) as [Hno _].
  set (w1 := tras_prestar_libro w self libro u l b) in *.
  destruct (lookup_tras_prestar_libro w self libro u l b) as [Hu1 Hl1].
  fold w1 in Hu1, Hl1. set (u1 := set_historial u _) in Hu1.
  set (b1 := set_prestamo b false (Some (ahora w)) (Some self)).
  assert (libros w1 !! libro = Some b1) as Hb1 by apply lookup_insert_eq.
  pose proof (devolver_prestado w1 libro b1 (ahora w) Hb1 eq_refl eq_refl) as Hdev.
  change (ahora w1) with (reloj w (2 + lecturas w)) in Hdev.
  change (calcular_dias_prestamo b1) with (calcular_dias_prestamo b) in Hdev.
  fold d in Hdev.
  destruct (devolver_libro_tenido _ self _ u1 (l ++ [libro]) _ _ _ Hu1 Hl1
              ltac:(apply elem_of_app; right; by apply list_elem_of_singleton) Hdev)
    as (l' & b' & Hr & Hb' & Hdl).
  rewrite Hb1 in Hb'. injection Hb' as <-.
  rewrite (remove_snoc _ _ Hno) in Hr. injection Hr as <-.
  change (_isbn b1) with (_isbn b) in Hdl.
  change (multa_por u1 d) with (multa_por u d) in Hdl.
  eexists w1, _, _. split; [exact H1|]. split; [exact Hdl|].
  split; [|split; [|split; [|split; [|split]]]].
  - simpl. rewrite insert_insert_eq.
    unfold b1. rewrite (set_prestamo_disponible _ _ _ (Hil _ _ Hb) Hd).
    by apply insert_id.
  - simpl. rewrite insert_insert_eq. by apply insert_id.
  - simpl. by rewrite insert_insert_eq.
  - rewrite historial_cerrado_snoc
      by (unfold abierto; simpl; by rewrite bool_decide_eq_true_2).
    unfold usuario_tras_devolver. by destruct (0 <? d).
  - unfold usuario_tras_devolver. by destruct (0 <? d).
  - unfold tras_devolver_libro, tras_historial, u1. cbn [lecturas _historial_prestamos set_historial].
    rewrite reverse_snoc. cbn [buscar]. unfold abierto at 1. cbn [libro_isbn devuelto negb].
    by rewrite bool_decide_eq_true_2.
Qed.

(** X5.  Borrowing and returning is a round trip.  In a library that was
    built by lending and returning through the users, when a user who may
    borrow takes a book that is available and returns it, the books and the
    held lists are again exactly what they were before the loan; what
    remains is one closed entry at the end of the history of the user, with
    the two timestamps and the days of delay, the fine for these days on
    the account of the user, and four readings of the clock. *)
Theorem prestar_y_devolver (tiempo : nat → datetime) (cs : list Llamada)
    (vs : list Valor) (w : Mundo) (self libro : ref) (u : Usuario) (l : list ref)
    (b : Libro) :
  forallb por_usuario cs = true →
  ejecutar_todas cs (mundo_vacio tiempo) = Ok (vs, w) →
  usuarios w !! self = Some u → listas w !! _libros_prestados u = Some l →
  libros w !! libro = Some b → elegible u l = true → _disponible b = true →
  let d := Z.max 0 (days (reloj w (2 + lecturas w) - ahora w)
                    - calcular_dias_prestamo b) in
  ∃ w1 w2 u2,
    prestar_libro self libro w = Ok (true, w1)
    ∧ devolver_libro self libro w1 = Ok (multa_por u d, w2)
    ∧ libros w2 = libros w ∧ listas w2 = listas w
    ∧ usuarios w2 = <[self := u2]> (usuarios w)
    ∧ _historial_prestamos u2
      = _historial_prestamos u
        ++ [mkPrestamo (_titulo b) (_isbn b) (reloj w (1 + lecturas w))
                       (obtener_tipo b) true (Some (reloj w (3 + lecturas w)))
                       (Some d)]
    ∧ _multa_acumulada u2
      = (if 0 <? d then (_multa_acumulada u + multa_por u d)%float
         else _multa_acumulada u)
    ∧ lecturas w2 = (4 + lecturas w)%nat.
Proof.
  intros Hpor H.
  destruct (ejecutar_todas_coherente _ _ _ _ Hpor H) as (Hil & Hiu & Hc).
  by apply prestar_devolver_libro.
Qed.

(** ** The history is up to date *)

Lemma filter_alter_length {A} (f : A → bool) (g : A → A) j h p :
  h !! j = Some p →
  (length (List.filter f (alter g j h)) + (if f p then 1 else 0)
   = length (List.filter f h) + (if f (g p) then 1 else 0))%nat.
Proof.
  revert j. induction h as [|q h IH]; intros [|j]; simpl; try discriminate.
  - intros [= ->]. destruct (f p), (f (g p)); simpl; lia.
  - intros Hj. specialize (IH j Hj). destruct (f q); simpl; [f_equal|]; exact IH.
Qed.

Lemma filter_length_pos {A} (f : A → bool) x l :
  In x l → f x = true → (0 < length (List.filter f l))%nat.
Proof.
  induction l as [|y l IH]; simpl; [done|]. intros [->|Hx] Hf.
  - rewrite Hf. simpl. lia.
  - destruct (f y); simpl; [lia|by apply IH].
Qed.

Lemma abierto_cerrar isbn t dias p : abierto isbn (cerrar t dias p) = false.
Proof. unfold abierto. simpl. apply andb_false_r. Qed.

Lemma abierto_inv isbn p :
  abierto isbn p = true → libro_isbn p = isbn ∧ devuelto p = false.
Proof.
  unfold abierto. intros [H1 H2]%andb_true_iff.
  apply bool_decide_eq_true in H1. by apply negb_true_iff in H2.
Qed.

Lemma abiertos_cero isbn h :
  (∀ p, p ∈ h → abierto isbn p = false) → abiertos isbn h = 0%nat.
Proof.
  unfold abiertos. induction h as [|q h IH]; [done|]. intros H. simpl.
  rewrite (H q) by by left. apply IH. intros p Hp. apply H. by right.
Qed.

Lemma abiertos_buscar isbn h :
  (0 < abiertos isbn h)%nat → ∃ j, ultimo_abierto isbn h j.
Proof.
  intros Hpos. destruct (buscar isbn (reverse h)) as [i|] eqn:Hb.
  - apply buscar_reverse_Some in Hb as [_ Hu]. eauto.
  - rewrite (abiertos_cero isbn h) in Hpos; [lia|]. by apply buscar_reverse_None.
Qed.

(** Going through a history that has an open entry for the ISBN closes
    one entry, of that ISBN. *)
Lemma historial_cerrado_abiertos i0 t dias h :
  (0 < abiertos i0 h)%nat →
  (∀ isbn, (abiertos isbn (historial_cerrado i0 t dias h)
            + (if bool_decide (isbn = i0) then 1 else 0)
            = abiertos isbn h)%nat)
  ∧ (length (List.filter (λ p, negb (devuelto p)) (historial_cerrado i0 t dias h)) + 1
     = length (List.filter (λ p, negb (devuelto p)) h))%nat.
Proof.
  intros Hpos. unfold historial_cerrado.
  destruct (buscar i0 (reverse h)) as [i|] eqn:Hb.
  - apply buscar_reverse_Some in Hb as [_ [(p & Hp & Ha) _]].
    destruct (abierto_inv _ _ Ha) as [Hi Hd]. split.
    + intros isbn.
      pose proof (filter_alter_length (abierto isbn) (cerrar t dias) _ _ _ Hp) as H.
      rewrite abierto_cerrar in H. unfold abiertos.
      destruct (decide (isbn = i0)) as [->|Hne].
      * rewrite Ha in H. rewrite bool_decide_eq_true_2 by done. lia.
      * assert (abierto isbn p = false) as Hno.
        { unfold abierto. rewrite bool_decide_eq_false_2; [done|congruence]. }
        rewrite Hno in H. rewrite bool_decide_eq_false_2 by done. lia.
    + pose proof (filter_alter_length (λ p, negb (devuelto p)) (cerrar t dias)
                    _ _ _ Hp) as H.
      simpl in H. rewrite Hd in H. simpl in H. lia.
  - rewrite (abiertos_cero i0 h) in Hpos; [lia|]. by apply buscar_reverse_None.
Qed.

Lemma tenidos_mismos w w' isbn l :
  (∀ b, b ∈ l → _isbn <$> libros w' !! b = _isbn <$> libros w !! b) →
  tenidos w' isbn l = tenidos w isbn l.
Proof.
  intros H. unfold tenidos. f_equal. apply List.filter_ext_in.
  intros b Hb%list_elem_of_In. unfold con_isbn. by rewrite H.
Qed.

Lemma isbn_insert (m : gmap ref Libro) k x y b :
  m !! k = Some x → _isbn y = _isbn x →
  _isbn <$> <[k := y]> m !! b = _isbn <$> m !! b.
Proof.
  intros Hk Hi. destruct (decide (k = b)) as [<-|Hne].
  - rewrite lookup_insert_eq, Hk. simpl. by rewrite Hi.
  - by rewrite lookup_insert_ne.
Qed.

Lemma isbn_insert_fresh (m : gmap ref Libro) y b :
  is_Some (m !! b) → _isbn <$> <[fresh (dom m) := y]> m !! b = _isbn <$> m !! b.
Proof.
  intros [x Hx]. rewrite lookup_insert_ne; [done|].
  intros Heq. by rewrite <- Heq, fresh_lookup_None in Hx.
Qed.

(** A user is updated, with the list they own; the books keep their ISBN. *)
Lemma al_dia_actualiza w w' self u u' l' :
  inv_usuarios w → existentes w → al_dia w →
  usuarios w !! self = Some u →
  usuarios w' = <[self := u']> (usuarios w) →
  _libros_prestados u' = _libros_prestados u →
  listas w' = <[_libros_prestados u := l']> (listas w) →
  (∀ b, is_Some (libros w !! b) →
        _isbn <$> libros w' !! b = _isbn <$> libros w !! b) →
  ((∀ isbn, abiertos isbn (_historial_prestamos u') = tenidos w' isbn l')
   ∧ length (List.filter (λ p, negb (devuelto p)) (_historial_prestamos u'))
     = length l') →
  al_dia w'.
Proof.
  intros [_ Hinj] Hex Had Hu Hus Hlp Hls Hisbn Hself r v lv.
  rewrite Hus, Hls. destruct (decide (self = r)) as [<-|Hne].
  - rewrite lookup_insert_eq. intros [= <-]. rewrite Hlp, lookup_insert_eq.
    by intros [= <-].
  - rewrite lookup_insert_ne by done. intros Hv.
    rewrite lookup_insert_ne
      by (intros Heq; apply Hne; by apply (Hinj self r u v)).
    intros Hlv. destruct (Had r v lv Hv Hlv) as [H1 H2]. split; [|done].
    intros isbn. rewrite H1. symmetry. apply tenidos_mismos.
    intros b Hb. apply Hisbn. by apply (Hex r v lv b).
Qed.

(** Users and lists are what they were; the books keep their ISBN. *)
Lemma al_dia_libros w w' :
  existentes w → al_dia w → usuarios w' = usuarios w → listas w' = listas w →
  (∀ b, is_Some (libros w !! b) →
        _isbn <$> libros w' !! b = _isbn <$> libros w !! b) →
  al_dia w'.
Proof.
  intros Hex Had Hus Hls Hisbn r v lv. rewrite Hus, Hls. intros Hv Hlv.
  destruct (Had r v lv Hv Hlv) as [H1 H2]. split; [|done].
  intros isbn. rewrite H1. symmetry. apply tenidos_mismos.
  intros b Hb. apply Hisbn. by apply (Hex r v lv b).
Qed.

Lemma ejecutar_al_dia c v w w' :
  por_usuario c = true → inv_usuarios w → coherente w → al_dia w →
  ejecutar c w = Ok (v, w') → al_dia w'.
Proof.
  intros Hpor Hw Hc Had H.
  pose proof (coherente_existentes _ Hc) as Hex.
  destruct c; try discriminate; simpl in H;
    apply bind_Ok_inv in H as (x & w1 & H & Hret);
    cbv [ret] in Hret; injection Hret as _ <-.
  - rewrite Libro_init_Ok in H. injection H as _ <-.
    apply (al_dia_libros w); try done. intros b. apply isbn_insert_fresh.
  - rewrite Usuario_init_Ok in H. injection H as _ <-.
    intros r u l. simpl.
    destruct (decide (fresh (dom (usuarios w)) = r)) as [<-|Hne].
    + rewrite lookup_insert_eq. intros [= <-]. simpl. rewrite lookup_insert_eq.
      by intros [= <-].
    + rewrite lookup_insert_ne by done. intros Hu.
      destruct (proj1 Hw r u Hu) as (l0 & Hl0 & _).
      rewrite lookup_insert_ne
        by (intros Heq; by rewrite <- Heq, fresh_lookup_None in Hl0).
      apply (Had r u l Hu).
  - by apply puede_prestar_inv in H as [-> _].
  - apply prestar_libro_inv in H as (u & l & Hu & Hl & H). destruct x; [|by subst].
    destruct H as (_ & b & Hb & Hd & ->).
    destruct (Had usuario u l Hu Hl) as [H1 H2].
    assert (∀ b0, _isbn <$> libros (tras_prestar_libro w usuario libro u l b) !! b0
                  = _isbn <$> libros w !! b0) as Hisbn.
    { intros b0. simpl. by apply (isbn_insert _ _ b). }
    eapply (al_dia_actualiza w _ usuario u _ (l ++ [libro]) Hw Hex Had Hu);
      [reflexivity|reflexivity|reflexivity|by intros b0 _|].
    split.
    + intros isbn. unfold abiertos, tenidos. simpl.
      rewrite !List.filter_app, !length_app. fold (abiertos isbn (_historial_prestamos u)).
      rewrite H1. unfold tenidos. f_equal.
      * f_equal. apply List.filter_ext. intros b0. unfold con_isbn.
        by rewrite <- (Hisbn b0).
      * simpl. unfold abierto, con_isbn. simpl. rewrite lookup_insert_eq. simpl.
        rewrite andb_true_r.
        destruct (decide (_isbn b = isbn)) as [Heq|Hne].
        -- rewrite !bool_decide_eq_true_2; [done|congruence|done].
        -- rewrite !bool_decide_eq_false_2; [done|congruence|done].
    + simpl. rewrite List.filter_app, !length_app. simpl. lia.
  - apply (devolver_libro_coherente _ _ _ _ _ Hc) in H
      as (u & l & Hu & Hl & [(_ & _ & ->)|(Hin & H)]); [done|].
    destruct H as (l' & b & f & Hr & Hb & _ & _ & _ & _ & ->).
    destruct (Had usuario u l Hu Hl) as [H1 H2].
    destruct (remove_elem_of _ _ Hin) as (l'' & Hr' & Hlen).
    rewrite Hr in Hr'. injection Hr' as <-.
    assert (con_isbn w (_isbn b) libro = true) as Hcon.
    { unfold con_isbn. rewrite Hb. by apply bool_decide_eq_true_2. }
    assert (0 < abiertos (_isbn b) (_historial_prestamos u))%nat as Hpos.
    { rewrite H1. apply (filter_length_pos _ libro); [|done].
      by apply list_elem_of_In. }
    match goal with
    | |- al_dia (tras_devolver_libro ?w0 _ _ _ _ ?d0) =>
        set (d := d0); set (w0' := w0)
    end.
    destruct (historial_cerrado_abiertos (_isbn b) (ahora w0') d _ Hpos) as [Ha Ht].
    eapply (al_dia_actualiza w _ usuario u _ l' Hw Hex Had Hu); [reflexivity| |reflexivity| |].
    + unfold usuario_tras_devolver. by destruct (0 <? d).
    + intros b0 _. simpl. by apply (isbn_insert _ _ b).
    + assert (_historial_prestamos
                (usuario_tras_devolver u
                   (historial_cerrado (_isbn b) (ahora w0') d (_historial_prestamos u)) d)
              = historial_cerrado (_isbn b) (ahora w0') d (_historial_prestamos u))
        as -> by (unfold usuario_tras_devolver; by destruct (0 <? d)).
      split; [|lia].
      intros isbn. specialize (Ha isbn). rewrite H1 in Ha.
      pose proof (remove_filter_length (con_isbn w isbn) _ _ _ Hr) as Hrem.
      fold (tenidos w isbn l) in Hrem. fold (tenidos w isbn l') in Hrem.
      assert (con_isbn w isbn libro = bool_decide (isbn = _isbn b)) as Hco.
      { unfold con_isbn. rewrite Hb. simpl. apply bool_decide_ext. split; congruence. }
      rewrite Hco in Hrem.
      transitivity (tenidos w isbn l'); [lia|].
      symmetry. apply tenidos_mismos. intros b0 _. simpl. by apply (isbn_insert _ _ b).
  - apply pagar_multa_inv in H as (u & Hu & [(_ & -> & ->)|(_ & _ & ->)]); [|done].
    destruct (proj1 Hw usuario u Hu) as (l & Hl & _).
    eapply (al_dia_actualiza w _ usuario u _ l Hw Hex Had Hu);
      [reflexivity|reflexivity| |done|by apply (Had usuario u l)].
    simpl. by rewrite insert_id.
  - apply libros_prestados_inv in H as (u & l & _ & _ & -> & ->).
    intros r u0 l0. simpl. intros Hu0.
    destruct (proj1 Hw r u0 Hu0) as (l1 & Hl1 & _).
    rewrite lookup_insert_ne
      by (intros Heq; by rewrite <- Heq, fresh_lookup_None in Hl1).
    apply (Had r u0 l0 Hu0).
  - by apply multa_acumulada_inv in H as [-> _].
Qed.

Lemma ejecutar_todas_al_dia reloj cs vs w :
  forallb por_usuario cs = true →
  ejecutar_todas cs (mundo_vacio reloj) = Ok (vs, w) →
  al_dia w.
Proof.
  intros Hpor H.
  cut (inv_usuarios w ∧ coherente w ∧ al_dia w); [by intros (_ & _ & ?)|].
  revert H.
  apply (ejecutar_todas_ind_si por_usuario
           (λ w, inv_usuarios w ∧ coherente w ∧ al_dia w)); [|done|].
  - intros c v w0 w' Hc (Hu & Hco & Had) H. split; [|split].
    + by eapply ejecutar_inv_usuarios.
    + by eapply ejecutar_coherente.
    + by eapply ejecutar_al_dia.
  - split; [apply inv_usuarios_vacio|]. split; [apply coherente_vacio|].
    intros r u l. simpl. by rewrite lookup_empty.
Qed.

(** X6.  In a run from the empty library that lends and returns through
    the users, the history of every user is up to date: its open entries
    are as many as the books the user holds, ISBN by ISBN (two copies of a
    book share their ISBN), so whenever a user returns a book they hold
    there is an open entry for [devolver_libro] to close. *)
Theorem historial_al_dia (reloj : nat → datetime) (cs : list Llamada)
    (vs : list Valor) (w : Mundo) (r : ref) (u : Usuario) (l : list ref) :
  forallb por_usuario cs = true →
  ejecutar_todas cs (mundo_vacio reloj) = Ok (vs, w) →
  usuarios w !! r = Some u → listas w !! _libros_prestados u = Some l →
  length (List.filter (λ p, negb (devuelto p)) (_historial_prestamos u)) = length l
  ∧ (∀ isbn, abiertos isbn (_historial_prestamos u) = tenidos w isbn l)
  ∧ (∀ libro b, libro ∈ l → libros w !! libro = Some b →
       ∃ j, ultimo_abierto (_isbn b) (_historial_prestamos u) j).
Proof.
  intros Hpor H Hu Hl.
  destruct (ejecutar_todas_al_dia _ _ _ _ Hpor H r u l Hu Hl) as [H1 H2].
  split; [done|]. split; [done|].
  intros libro b Hin Hb. apply abiertos_buscar. rewrite H1.
  apply (filter_length_pos _ libro); [by apply list_elem_of_In|].
  unfold con_isbn. rewrite Hb. by apply bool_decide_eq_true_2.
Qed.

(** ** Lending and returning behind the back of the user *)

(** X15.  The book's own [devolver] and [prestar] do not tell the user.
    When a book that a user holds is returned by calling its [devolver]
    directly, the delay is computed and returned, but the held list, the
    history and the fine of the user are untouched; the later
    [devolver_libro] of the user then finds the book available, takes it
    off the held list and charges nothing, however late the book was.  And a
    book lent to a user by calling its [prestar] directly is not in the
    held list of the user, whose [devolver_libro] leaves it on loan. *)
Theorem prestamo_a_espaldas (w : Mundo) (self libro : ref) (u : Usuario)
    (l : list ref) (b : Libro) :
  usuarios w !! self = Some u → listas w !! _libros_prestados u = Some l →
  libros w !! libro = Some b →
  (libro ∈ l → ∀ f, _disponible b = false → _fecha_prestamo b = Some f →
     ∃ w1 w2 l' u2,
       devolver libro w
       = Ok ((Z.max 0 (days (ahora w - f) - calcular_dias_prestamo b),
              _usuario_actual b), w1)
       ∧ usuarios w1 = usuarios w ∧ listas w1 = listas w
       ∧ devolver_libro self libro w1 = Ok (0%float, w2)
       ∧ remove libro l = Some l'
       ∧ listas w2 !! _libros_prestados u = Some l'
       ∧ usuarios w2 !! self = Some u2
       ∧ _multa_acumulada u2 = _multa_acumulada u)
  ∧ ((libro ∉ l) → _disponible b = true →
       ∃ w1 b1,
         prestar libro self w = Ok (true, w1)
         ∧ libros w1 !! libro = Some b1
         ∧ _disponible b1 = false ∧ _usuario_actual b1 = Some self
         ∧ listas w1 !! _libros_prestados u = Some l
         ∧ devolver_libro self libro w1 = Ok (0%float, w1)).
Proof.
  intros Hu Hl Hb. split.
  - intros Hin f Hd Hf.
    pose proof (devolver_prestado _ _ _ _ Hb Hd Hf) as H1.
    set (w1 := con_libros <[libro := set_prestamo b true None None]> (tras_lectura w))
      in *.
    assert (libros w1 !! libro = Some (set_prestamo b true None None)) as Hb1
      by apply lookup_insert_eq.
    pose proof (devolver_disponible w1 libro _ Hb1 eq_refl) as H2.
    destruct (devolver_libro_tenido w1 self libro u l 0 None w1 Hu Hl Hin H2)
      as (l' & b' & Hr & _ & Hdl).
    eexists w1, _, l', _. split; [exact H1|]. split; [done|]. split; [done|].
    split; [exact Hdl|]. split; [done|].
    split; [apply lookup_insert_eq|]. split; [apply lookup_insert_eq|done].
  - intros Hno Hd. pose proof (prestar_disponible _ _ self _ Hb Hd) as H1.
    eexists _, _. split; [exact H1|]. split; [apply lookup_insert_eq|].
    split; [done|]. split; [done|]. split; [done|].
    by apply (devolver_libro_no_tenido _ _ _ u l).
Qed.

(** ** Timestamps *)

Lemma leido_mono w w' t :
  reloj w' = reloj w → (lecturas w ≤ lecturas w')%nat → leido w t → leido w' t.
Proof. intros Hr Hl (k & Hk & ->). exists k. rewrite Hr. split; [lia|done]. Qed.

Lemma prestamo_en_orden_mono w w' p :
  reloj w' = reloj w → (lecturas w ≤ lecturas w')%nat →
  prestamo_en_orden w p → prestamo_en_orden w' p.
Proof.
  intros Hr Hl [H1 H2]. split; [by eapply leido_mono|].
  destruct (devuelto p); [|done].
  destruct H2 as (t & d & Ht & Hd & Hle & Hrest). exists t, d.
  split; [done|]. split; [done|]. split; [by eapply leido_mono|done].
Qed.

(** The clock is the same and has not gone back; every entry and every
    loan timestamp was there before or is in order. *)
Lemma en_hora_paso w w' :
  reloj w' = reloj w → (lecturas w ≤ lecturas w')%nat →
  (∀ r u' p, usuarios w' !! r = Some u' → p ∈ _historial_prestamos u' →
     (∃ u, usuarios w !! r = Some u ∧ p ∈ _historial_prestamos u)
     ∨ prestamo_en_orden w' p) →
  (∀ b l' f, libros w' !! b = Some l' → _fecha_prestamo l' = Some f →
     (∃ l, libros w !! b = Some l ∧ _fecha_prestamo l = Some f) ∨ leido w' f) →
  en_hora w → en_hora w'.
Proof.
  intros Hr Hl Hus Hls [H1 H2]. split.
  - intros r u' p Hu' Hp. destruct (Hus r u' p Hu' Hp) as [(u & Hu & Hpu)|?]; [|done].
    eapply prestamo_en_orden_mono; [done|done|]. by apply (H1 r u p).
  - intros b l' f Hb Hf. destruct (Hls b l' f Hb Hf) as [(l & Hbl & Hfl)|?]; [|done].
    eapply leido_mono; [done|done|]. by apply (H2 b l f).
Qed.

(** Users and histories are the same, and so are the books. *)
Lemma en_hora_mismos w w' :
  reloj w' = reloj w → (lecturas w ≤ lecturas w')%nat →
  usuarios w' = usuarios w → libros w' = libros w → en_hora w → en_hora w'.
Proof.
  intros Hr Hl Hus Hls. apply en_hora_paso; [done|done| |].
  - intros r u' p. rewrite Hus. eauto.
  - intros b l' f. rewrite Hls. eauto.
Qed.

Lemma lookup_insert_o {A} (m : gmap ref A) k x r y :
  <[k := x]> m !! r = Some y → (k = r ∧ y = x) ∨ (k ≠ r ∧ m !! r = Some y).
Proof.
  destruct (decide (k = r)) as [<-|Hne].
  - rewrite lookup_insert_eq. intros [= <-]. by left.
  - rewrite lookup_insert_ne by done. by right.
Qed.

Lemma elem_of_historial_cerrado isbn t dias h p :
  p ∈ historial_cerrado isbn t dias h →
  p ∈ h ∨ ∃ p0 i, buscar isbn (reverse h) = Some i ∧ p0 ∈ h
                  ∧ devuelto p0 = false ∧ p = cerrar t dias p0.
Proof.
  unfold historial_cerrado.
  destruct (buscar isbn (reverse h)) as [i|] eqn:Hb; [|by left].
  pose proof Hb as Hb'.
  apply buscar_reverse_Some in Hb' as [_ [(p0 & Hp0 & Ha) _]].
  intros (j & Hj)%list_elem_of_lookup_1.
  destruct (decide (j = (length h - 1 - i)%nat)) as [->|Hne].
  - rewrite list_lookup_alter_eq, Hp0 in Hj. simpl in Hj. injection Hj as <-.
    right. exists p0, i. split; [done|]. split; [by eapply list_elem_of_lookup_2|].
    split; [by apply abierto_inv in Ha as [_ ?]|done].
  - rewrite list_lookup_alter_ne in Hj by done. left.
    by eapply list_elem_of_lookup_2.
Qed.

Lemma devolver_reloj w self d quien w1 :
  devolver self w = Ok ((d, quien), w1) →
  reloj w1 = reloj w ∧ (lecturas w ≤ lecturas w1)%nat ∧ 0 ≤ d
  ∧ ∀ b l' f, libros w1 !! b = Some l' → _fecha_prestamo l' = Some f →
      libros w !! b = Some l'.
Proof.
  intros (l & Hl & [(_ & -> & _ & ->)|(_ & f & _ & -> & _ & ->)])%devolver_inv.
  - split; [done|]. split; [done|]. split; [done|]. by intros.
  - split; [done|]. split; [simpl; lia|]. split; [lia|].
    intros b l' f' [[<- ->]|[_ Hb]]%lookup_insert_o; [discriminate|done].
Qed.

Lemma ejecutar_en_hora c v w w' :
  monotono (reloj w) → en_hora w → ejecutar c w = Ok (v, w') →
  reloj w' = reloj w ∧ en_hora w'.
Proof.
  intros Hmono Hw H. destruct c; simpl in H;
    apply bind_Ok_inv in H as (x & w1 & H & Hret);
    cbv [ret] in Hret; injection Hret as _ <-.
  - rewrite Libro_init_Ok in H. injection H as _ <-. split; [done|].
    apply (en_hora_paso w); [done|done|by eauto| |done].
    intros b l' f [[_ ->]|[_ Hb]]%lookup_insert_o Hf; [discriminate|eauto].
  - rewrite Usuario_init_Ok in H. injection H as _ <-. split; [done|].
    apply (en_hora_paso w); [done|simpl; lia| |by eauto|done].
    intros r u' p [[_ ->]|[_ Hu]]%lookup_insert_o Hp; [|by eauto].
    by apply elem_of_nil in Hp.
  - apply prestar_inv in H as (l & Hl & _ & ->). destruct x; [|done].
    split; [done|]. apply (en_hora_paso w); [done|simpl; lia|by eauto| |done].
    intros b l' f [[_ ->]|[_ Hb]]%lookup_insert_o Hf; [|by eauto].
    right. injection Hf as <-. exists (lecturas w). split; [simpl; lia|done].
  - destruct x as [d quien].
    destruct (devolver_reloj _ _ _ _ _ H) as (Hr & Hl & _ & Hb).
    apply devolver_mismos_usuarios in H as [Hus _]. split; [done|].
    apply (en_hora_paso w); [done|done| | |done].
    + intros r u' p. rewrite Hus. eauto.
    + intros b l' f Hb' Hf. left. exists l'. split; [by eapply Hb|done].
  - by apply puede_prestar_inv in H as [-> _].
  - apply prestar_libro_inv in H as (u & l & Hu & Hl & H). destruct x; [|by subst].
    destruct H as (_ & b & Hb & _ & ->). split; [done|].
    apply (en_hora_paso w); [done|simpl; lia| | |done].
    + intros r u' p [[<- ->]|[_ Hr]]%lookup_insert_o Hp; [|by eauto].
      simpl in Hp. apply elem_of_app in Hp as [Hp| ->%list_elem_of_singleton];
        [by eauto|].
      right. split; [|done]. exists (S (lecturas w)). split; [simpl; lia|done].
    + intros b0 l' f [[_ ->]|[_ Hb0]]%lookup_insert_o Hf; [|by eauto].
      right. injection Hf as <-. exists (lecturas w). split; [simpl; lia|done].
  - apply devolver_libro_inv in H as (u & l & Hu & Hl & [(_ & _ & ->)|(Hin & H)]);
      [done|].
    destruct H as (d & quien & w0 & l' & b & Hd & _ & _ & _ & ->).
    destruct (devolver_reloj _ _ _ _ _ Hd) as (Hr & Hlec & Hd0 & Hb0).
    pose proof (devolver_mismos_usuarios _ _ _ _ Hd) as [Hus _].
    split; [done|].
    assert (lecturas w0
            ≤ lecturas (tras_historial (_isbn b) (_historial_prestamos u) w0))%nat
      as Hlec'.
    { unfold tras_historial. destruct (buscar _ _); simpl; lia. }
    apply (en_hora_paso w); [done|simpl; lia| | |done].
    + intros r u' p Hu'. simpl in Hu'. rewrite Hus in Hu'.
      apply lookup_insert_o in Hu' as [[<- ->]|[_ Hr']]; [|by eauto].
      assert (_historial_prestamos
                (usuario_tras_devolver u
                   (historial_cerrado (_isbn b) (ahora w0) d (_historial_prestamos u)) d)
              = historial_cerrado (_isbn b) (ahora w0) d (_historial_prestamos u))
        as -> by (unfold usuario_tras_devolver; by destruct (0 <? d)).
      intros [?|(p0 & i & Hbus & Hp0 & Hab & ->)]%elem_of_historial_cerrado;
        [by eauto|].
      right. destruct (proj1 Hw _ _ _ Hu Hp0) as [(k & Hk & Hfk) _].
      assert (lecturas (tras_devolver_libro w0 usuario u l' (_isbn b) d)
              = S (lecturas w0)) as Hlec2
        by (simpl; unfold tras_historial; by rewrite Hbus).
      assert (reloj (tras_devolver_libro w0 usuario u l' (_isbn b) d) = reloj w)
        as Hr2 by done.
      split.
      * exists k. rewrite Hlec2, Hr2. split; [lia|done].
      * cbn [devuelto cerrar]. exists (ahora w0), d. split; [done|]. split; [done|].
        split; [|split; [|done]].
        -- exists (lecturas w0). rewrite Hlec2, Hr2. split; [lia|].
           unfold ahora. by rewrite Hr.
        -- change (fecha_prestamo p0 ≤ ahora w0). rewrite Hfk. unfold ahora.
           rewrite Hr. apply Hmono. lia.
    + intros b0 l0 f Hb' Hf. left. exists l0. split; [by eapply Hb0|done].
  - apply pagar_multa_inv in H as (u & Hu & [(_ & -> & ->)|(_ & _ & ->)]); [|done].
    split; [done|]. apply (en_hora_paso w); [done|done| |by eauto|done].
    intros r u' p [[<- ->]|[_ Hr]]%lookup_insert_o Hp; eauto.
  - apply libros_prestados_inv in H as (u & l & _ & _ & _ & ->).
    split; [done|]. by apply (en_hora_mismos w).
  - by apply multa_acumulada_inv in H as [-> _].
Qed.

Lemma ejecutar_todas_en_hora tiempo cs : ∀ vs w w',
  reloj w = tiempo → monotono tiempo → en_hora w →
  ejecutar_todas cs w = Ok (vs, w') → reloj w' = tiempo ∧ en_hora w'.
Proof.
  induction cs as [|c cs IH]; intros vs w w' Hr Hmono Hw H.
  - cbv [ejecutar_todas ret] in H. by injection H as <- <-.
  - apply ejecutar_todas_inv in H as (v & vs' & w1 & Hc & Hcs & _).
    rewrite <- Hr in Hmono.
    destruct (ejecutar_en_hora _ _ _ _ Hmono Hw Hc) as [Hr1 Hw1].
    apply (IH vs' w1 w'); [congruence|by rewrite <- Hr|done|done].
Qed.

(** X16.  With a clock that never goes back, in a run from the empty
    library every entry of every history is in order: while it is open it
    has no return timestamp and no days of delay, and once it is closed it
    has both, a return timestamp that is not before the loan timestamp and
    days of delay that are not negative.  The loan timestamp of a book on
    loan is never in the future, so the days that [devolver] counts are not
    negative. *)
Theorem prestamos_en_hora (tiempo : nat → datetime) (cs : list Llamada)
    (vs : list Valor) (w : Mundo) :
  monotono tiempo →
  ejecutar_todas cs (mundo_vacio tiempo) = Ok (vs, w) →
  (∀ r u p, usuarios w !! r = Some u → p ∈ _historial_prestamos u →
     if devuelto p
     then ∃ t d, fecha_devolucion p = Some t ∧ dias_retraso p = Some d
                 ∧ fecha_prestamo p ≤ t ∧ 0 ≤ d
     else fecha_devolucion p = None ∧ dias_retraso p = None)
  ∧ (∀ b l f, libros w !! b = Some l → _fecha_prestamo l = Some f →
       f ≤ ahora w ∧ 0 ≤ days (ahora w - f)).
Proof.
  intros Hmono H.
  destruct (ejecutar_todas_en_hora tiempo cs vs (mundo_vacio tiempo) w)
    as [Hr [H1 H2]]; [done|done| |done|].
  { split; intros r; intros; simpl in *; by rewrite lookup_empty in *. }
  split.
  - intros r u p Hu Hp. destruct (H1 r u p Hu Hp) as [_ Hsh].
    destruct (devuelto p); [|done].
    destruct Hsh as (t & d & Ht & Hd & _ & Hle & Hd0). eauto 6.
  - intros b l f Hb Hf. destruct (H2 b l f Hb Hf) as (k & Hk & ->).
    assert (reloj w k ≤ ahora w) as Hle
      by (unfold ahora; rewrite Hr; apply Hmono; lia).
    split; [done|]. unfold days. apply Z.div_pos; lia.
Qed.

(** ** What never changes *)

Lemma misma_ficha_refl l : misma_ficha l l.
Proof. by repeat split. Qed.

Lemma misma_ficha_trans l1 l2 l3 :
  misma_ficha l1 l2 → misma_ficha l2 l3 → misma_ficha l1 l3.
Proof. unfold misma_ficha. intuition congruence. Qed.

Lemma mismos_datos_refl u : mismos_datos u u.
Proof. by repeat split. Qed.

Lemma mismos_datos_trans u1 u2 u3 :
  mismos_datos u1 u2 → mismos_datos u2 u3 → mismos_datos u1 u3.
Proof. unfold mismos_datos. intuition congruence. Qed.

Lemma insert_misma_ficha (m : gmap ref Libro) k x y b lib :
  m !! k = Some x → misma_ficha x y → m !! b = Some lib →
  ∃ lib', <[k := y]> m !! b = Some lib' ∧ misma_ficha lib lib'.
Proof.
  intros Hk Hf Hb. destruct (decide (k = b)) as [<-|Hne].
  - rewrite lookup_insert_eq. exists y. split; [done|]. congruence.
  - rewrite lookup_insert_ne by done. exists lib. split; [done|apply misma_ficha_refl].
Qed.

Lemma devolver_misma_ficha w self r w1 b lib :
  devolver self w = Ok (r, w1) → libros w !! b = Some lib →
  ∃ lib', libros w1 !! b = Some lib' ∧ misma_ficha lib lib'.
Proof.
  destruct r as [d quien].
  intros (l & Hl & [(_ & _ & _ & ->)|(_ & f & _ & _ & _ & ->)])%devolver_inv Hb.
  - exists lib. split; [done|apply misma_ficha_refl].
  - simpl. by apply (insert_misma_ficha _ _ l).
Qed.

Lemma ejecutar_misma_ficha c v w w' b lib :
  ejecutar c w = Ok (v, w') → libros w !! b = Some lib →
  ∃ lib', libros w' !! b = Some lib' ∧ misma_ficha lib lib'.
Proof.
  intros H Hb.
  assert (∃ lib', libros w !! b = Some lib' ∧ misma_ficha lib lib') as Higual
    by (exists lib; split; [done|apply misma_ficha_refl]).
  destruct c; simpl in H;
    apply bind_Ok_inv in H as (x & w1 & H & Hret);
    cbv [ret] in Hret; injection Hret as _ <-.
  - rewrite Libro_init_Ok in H. injection H as _ <-. simpl.
    rewrite lookup_insert_ne; [done|].
    intros Heq. by rewrite <- Heq, fresh_lookup_None in Hb.
  - rewrite Usuario_init_Ok in H. by injection H as _ <-.
  - apply prestar_inv in H as (l & Hl & _ & ->). destruct x; [|done].
    simpl. by apply (insert_misma_ficha _ _ l).
  - by eapply devolver_misma_ficha.
  - by apply puede_prestar_inv in H as [-> _].
  - apply prestar_libro_inv in H as (u & l & _ & _ & H). destruct x; [|by subst].
    destruct H as (_ & b0 & Hb0 & _ & ->). simpl.
    by apply (insert_misma_ficha _ _ b0).
  - apply devolver_libro_inv in H as (u & l & _ & _ & [(_ & _ & ->)|(_ & H)]); [done|].
    destruct H as (d & quien & w0 & l' & b0 & Hd & _ & _ & _ & ->). simpl.
    by eapply devolver_misma_ficha.
  - by apply pagar_multa_inv in H as (u & _ & [(_ & _ & ->)|(_ & _ & ->)]).
  - by apply libros_prestados_inv in H as (u & l & _ & _ & _ & ->).
  - by apply multa_acumulada_inv in H as [-> _].
Qed.

Lemma insert_mismos_datos (m : gmap ref Usuario) k x y r u :
  m !! k = Some x → mismos_datos x y → m !! r = Some u →
  ∃ u', <[k := y]> m !! r = Some u' ∧ mismos_datos u u'.
Proof.
  intros Hk Hf Hr. destruct (decide (k = r)) as [<-|Hne].
  - rewrite lookup_insert_eq. exists y. split; [done|]. congruence.
  - rewrite lookup_insert_ne by done. exists u. split; [done|apply mismos_datos_refl].
Qed.

Lemma ejecutar_mismos_datos c v w w' r u :
  ejecutar c w = Ok (v, w') → usuarios w !! r = Some u →
  ∃ u', usuarios w' !! r = Some u' ∧ mismos_datos u u'.
Proof.
  intros H Hu.
  assert (∃ u', usuarios w !! r = Some u' ∧ mismos_datos u u') as Higual
    by (exists u; split; [done|apply mismos_datos_refl]).
  destruct c; simpl in H;
    apply bind_Ok_inv in H as (x & w1 & H & Hret);
    cbv [ret] in Hret; injection Hret as _ <-.
  - rewrite Libro_init_Ok in H. by injection H as _ <-.
  - rewrite Usuario_init_Ok in H. injection H as _ <-. simpl.
    rewrite lookup_insert_ne; [done|].
    intros Heq. by rewrite <- Heq, fresh_lookup_None in Hu.
  - apply prestar_inv in H as (l & _ & _ & ->). by destruct x.
  - apply devolver_mismos_usuarios in H as [Hus _]. by rewrite Hus.
  - by apply puede_prestar_inv in H as [-> _].
  - apply prestar_libro_inv in H as (u0 & l & Hu0 & _ & H). destruct x; [|by subst].
    destruct H as (_ & b & _ & _ & ->). simpl.
    by apply (insert_mismos_datos _ _ u0).
  - apply devolver_libro_inv in H as (u0 & l & Hu0 & _ & [(_ & _ & ->)|(_ & H)]);
      [done|].
    destruct H as (d & quien & w0 & l' & b & Hd & _ & _ & _ & ->).
    apply devolver_mismos_usuarios in Hd as [Hus _]. simpl. rewrite Hus.
    apply (insert_mismos_datos _ _ u0); [done| |done].
    unfold usuario_tras_devolver. by destruct (0 <? d).
  - apply pagar_multa_inv in H as (u0 & Hu0 & [(_ & -> & ->)|(_ & _ & ->)]); [|done].
    simpl. by apply (insert_mismos_datos _ _ u0).
  - by apply libros_prestados_inv in H as (u0 & l & _ & _ & _ & ->).
  - by apply multa_acumulada_inv in H as [-> _].
Qed.

(** X14.  No call destroys an object or changes what identifies it: along
    any run a book keeps its class, title, author, ISBN and year, and a
    user keeps their class, name, identification, email, registration
    timestamp and the list object they own.  So the days a book may be
    lent, and the limit and the daily fine of a user, never change. *)
Theorem identidad_invariable (cs : list Llamada) (vs : list Valor) (w w' : Mundo) :
  ejecutar_todas cs w = Ok (vs, w') →
  (∀ b lib, libros w !! b = Some lib →
     ∃ lib', libros w' !! b = Some lib'
       ∧ clase_libro lib' = clase_libro lib ∧ _titulo lib' = _titulo lib
       ∧ _autor lib' = _autor lib ∧ _isbn lib' = _isbn lib
       ∧ _año_publicacion lib' = _año_publicacion lib
       ∧ calcular_dias_prestamo lib' = calcular_dias_prestamo lib)
  ∧ (∀ r u, usuarios w !! r = Some u →
       ∃ u', usuarios w' !! r = Some u'
         ∧ clase_usuario u' = clase_usuario u
         ∧ Biblioteca._nombre u' = Biblioteca._nombre u
         ∧ _identificacion u' = _identificacion u ∧ _email u' = _email u
         ∧ _fecha_registro u' = _fecha_registro u
         ∧ _libros_prestados u' = _libros_prestados u
         ∧ limite_prestamos u' = limite_prestamos u
         ∧ calcular_multa_por_dia u' = calcular_multa_por_dia u).
Proof.
  revert vs w w'. induction cs as [|c cs IH]; intros vs w w' H.
  - cbv [ejecutar_todas ret] in H. injection H as <- <-. split.
    + intros b lib Hb. exists lib. by repeat split.
    + intros r u Hu. exists u. by repeat split.
  - apply ejecutar_todas_inv in H as (v & vs' & w1 & Hc & Hcs & _).
    destruct (IH _ _ _ Hcs) as [IHl IHu]. split.
    + intros b lib Hb.
      destruct (ejecutar_misma_ficha _ _ _ _ _ _ Hc Hb) as (lib1 & Hb1 & H1).
      destruct (IHl b lib1 Hb1) as (lib' & Hb' & H2). exists lib'.
      split; [done|]. destruct H1 as (A1 & A2 & A3 & A4 & A5).
      destruct H2 as (B1 & B2 & B3 & B4 & B5 & B6).
      repeat split; try congruence.
      rewrite B6. unfold calcular_dias_prestamo. by rewrite A1.
    + intros r u Hu.
      destruct (ejecutar_mismos_datos _ _ _ _ _ _ Hc Hu) as (u1 & Hu1 & H1).
      destruct (IHu r u1 Hu1) as (u' & Hu' & H2). exists u'.
      split; [done|]. destruct H1 as (A1 & A2 & A3 & A4 & A5 & A6).
      destruct H2 as (B1 & B2 & B3 & B4 & B5 & B6 & B7 & B8).
      repeat split; try congruence.
      * rewrite B7. unfold limite_prestamos. by rewrite A1.
      * rewrite B8. unfold calcular_multa_por_dia. by rewrite A1.
Qed.

(** ** Downloads of a digital book *)

Lemma descargas_iter n a :
  _descargas (Nat.iter n registrar_descarga a) = _descargas a + Z.of_nat n
  ∧ _formato (Nat.iter n registrar_descarga a) = _formato a
  ∧ _tamaño_mb (Nat.iter n registrar_descarga a) = _tamaño_mb a.
Proof.
  induction n as [|n (IH1 & IH2 & IH3)]; [simpl; split; [lia|done]|].
  rewrite Nat.iter_succ.
  set (a' := Nat.iter n registrar_descarga a) in *.
  unfold registrar_descarga. cbn [_descargas _formato _tamaño_mb].
  rewrite IH1. split; [lia|done].
Qed.

(** X13.  A digital book starts with no download and [registrar_descarga]
    counts one more each time: after [n] calls the statistics report [n]
    downloads, with popularity ["Baja"] up to 10 downloads, ["Media"] from
    11 to 50 and ["Alta"] from 51 on; the format they report is the one
    given to the constructor, in upper case. *)
Theorem popularidad_por_descargas (upper : string → string) (formato : string)
    (tamaño : float) (url : string) (n : nat) :
  let libro := Nat.iter n registrar_descarga
                 (LibroDigital_atributos upper formato tamaño url) in
  let e := obtener_estadisticas_descarga libro in
  total_descargas e = Z.of_nat n
  ∧ (popularidad e = "Baja"%string ↔ (n ≤ 10)%nat)
  ∧ (popularidad e = "Media"%string ↔ (11 ≤ n ≤ 50)%nat)
  ∧ (popularidad e = "Alta"%string ↔ (51 ≤ n)%nat)
  ∧ Biblioteca.formato e = upper formato ∧ Biblioteca.tamaño_mb e = tamaño.
Proof.
  intros libro e.
  destruct (descargas_iter n (LibroDigital_atributos upper formato tamaño url))
    as (Hd & Hf & Ht).
  fold libro in Hd, Hf, Ht. simpl in Hd, Hf, Ht.
  change (0 + Z.of_nat n) with (Z.of_nat n) in Hd.
  unfold e, obtener_estadisticas_descarga.
  cbn [total_descargas popularidad Biblioteca.formato Biblioteca.tamaño_mb].
  rewrite Hd, Hf, Ht. split; [done|]. rewrite !Z.gtb_ltb.
  destruct (Z.ltb_spec 50 (Z.of_nat n)); [|destruct (Z.ltb_spec 10 (Z.of_nat n))];
    (split; [|split; [|split; [|done]]]); split; intros H';
    first [discriminate|lia|reflexivity].
Qed.

(* ===================================================================== *)
(** * Properties of the shop example *)
(* ===================================================================== *)

Import Tienda.

Example _generar_id_primero : _generar_id 0 = "PROD-0001".
Proof. reflexivity. Qed.

Example _generar_id_largo : _generar_id 12344 = "PROD-12345".
Proof. reflexivity. Qed.

Example _generar_id_negativo :
  _generar_id (-2) = "PROD--001" ∧ _generar_id (-12346) = "PROD--12345".
Proof. split; reflexivity. Qed.

(** Against C9 as it stands: the constructor keeps a negative price.  The
    object built with the price [-5] has [-5] as its price, which
    [validar_precio] would have refused. *)
Lemma C9_precio_negativo_almacenado : ¬ precio_negativo_no_almacenado.
Proof.
  intros H. apply (H 0 "Camiseta"%string (-5)%float ROPA 50 ""%string); reflexivity.
Qed.

(** C9 (amended).  [aplicar_descuento] with a percentage outside [0, 100]
    (a NaN included) leaves the product as it is and returns its current
    price; with a percentage within the range it sets the current price to
    the original price less the discount and returns it.  The constructor
    stores the price it is given, negative or not, as original and as
    current price; [validar_precio], which tests [precio > 0], is a static
    method of its own. *)
Theorem C9_precios (self : Producto) (porcentaje : float) :
  (((0 <=? porcentaje) && (porcentaje <=? 100))%float = false →
     aplicar_descuento self porcentaje = (_precio_actual self, self))
  ∧ (((0 <=? porcentaje) && (porcentaje <=? 100))%float = true →
       let nuevo := (_precio_original self
                     - _precio_original self * (porcentaje / 100))%float in
       (aplicar_descuento self porcentaje).1 = nuevo
       ∧ _precio_actual (aplicar_descuento self porcentaje).2 = nuevo
       ∧ _precio_original (aplicar_descuento self porcentaje).2
         = _precio_original self)
  ∧ aplicar_descuento self nan = (_precio_actual self, self)
  ∧ (∀ contador nombre precio categoria stock descripcion,
       let p := (Producto_init contador nombre precio categoria stock descripcion).1 in
       _precio_original p = precio ∧ _precio_actual p = precio)
  ∧ (∀ precio, validar_precio precio = (0 <? precio)%float).
Proof.
  unfold aplicar_descuento. split; [|split; [|split; [|split]]].
  - by intros ->.
  - by intros ->.
  - reflexivity.
  - done.
  - done.
Qed.

(** ** Stock *)

Lemma reducir_stock_true self cantidad :
  cantidad ≤ _stock self →
  reducir_stock self cantidad
  = (true,
     mkProducto (_id self) (Tienda._nombre self) (_precio_original self)
                (_precio_actual self) (_categoria self)
                (_stock self - cantidad) (_descripcion self)
                (_ventas_totales self + cantidad)).
Proof.
  intros H. unfold reducir_stock. rewrite Z.geb_leb.
  by rewrite (proj2 (Z.leb_le _ _) H).
Qed.

Lemma reducir_stock_false self cantidad :
  _stock self < cantidad → reducir_stock self cantidad = (false, self).
Proof.
  intros H. unfold reducir_stock. rewrite Z.geb_leb.
  by rewrite (proj2 (Z.leb_gt _ _) H).
Qed.

(** X7.  [reducir_stock] sells [cantidad] units exactly when the stock
    has them: then the stock goes down and the sales go up by [cantidad];
    otherwise it returns [False] and the product is unchanged.  Either way
    stock plus sales is what it was, a stock that is not negative stays
    so, and price and identifier are untouched.  A product is [disponible]
    exactly when one unit can be sold.  The quantity is not checked: a
    negative one is always accepted from a stock that is not negative, and
    then the stock grows and the sales shrink. *)
Theorem reducir_stock_conserva (self : Producto) (cantidad : Z) :
  let r := reducir_stock self cantidad in
  (r.1 = true ↔ cantidad ≤ _stock self)
  ∧ (r.1 = true → _stock r.2 = _stock self - cantidad
                  ∧ _ventas_totales r.2 = _ventas_totales self + cantidad)
  ∧ (r.1 = false → r.2 = self)
  ∧ _stock r.2 + _ventas_totales r.2 = _stock self + _ventas_totales self
  ∧ (0 ≤ _stock self → 0 ≤ cantidad → 0 ≤ _stock r.2 ≤ _stock self)
  ∧ (0 ≤ _stock self → cantidad < 0 →
       r.1 = true ∧ _stock self < _stock r.2
       ∧ _ventas_totales r.2 < _ventas_totales self)
  ∧ (disponible self = (reducir_stock self 1).1)
  ∧ _id r.2 = _id self ∧ _precio_original r.2 = _precio_original self
  ∧ _precio_actual r.2 = _precio_actual self.
Proof.
  intros r. unfold r.
  assert (disponible self = (reducir_stock self 1).1) as Hdisp.
  { unfold disponible. rewrite Z.gtb_ltb.
    destruct (Z.ltb_spec 0 (_stock self)) as [H|H].
    - rewrite reducir_stock_true by lia. done.
    - rewrite reducir_stock_false by lia. done. }
  destruct (Z_le_gt_dec cantidad (_stock self)) as [H|H].
  - rewrite (reducir_stock_true _ _ H). simpl. repeat split; try done; try lia.
  - rewrite reducir_stock_false by lia. simpl. repeat split; try done; try lia.
Qed.

Lemma mover_stock self m :
  0 ≤ cantidad_de m → 0 ≤ _stock self →
  0 ≤ _stock (mover self m)
  ∧ _ventas_totales self ≤ _ventas_totales (mover self m)
  ∧ _stock (mover self m) + _ventas_totales (mover self m)
    = _stock self + _ventas_totales self + repuesto [m]
  ∧ _id (mover self m) = _id self
  ∧ _precio_original (mover self m) = _precio_original self
  ∧ _precio_actual (mover self m) = _precio_actual self.
Proof.
  destruct m as [c|c]; simpl; intros Hc Hs.
  - destruct (Z_le_gt_dec c (_stock self)) as [H|H].
    + rewrite (reducir_stock_true _ _ H). simpl. repeat split; try done; lia.
    + rewrite reducir_stock_false by lia. simpl. repeat split; try done; lia.
  - repeat split; try done; lia.
Qed.

Lemma repuesto_cons m ms : repuesto (m :: ms) = repuesto [m] + repuesto ms.
Proof. destruct m; simpl; lia. Qed.

(** X8.  Over any sequence of calls of [reducir_stock] and [reponer_stock]
    with quantities that are not negative, on a product whose stock is not
    negative: the stock never gets negative, the sales never go down, and
    stock plus sales has grown by exactly what was restocked; the
    identifier and the two prices are never touched. *)
Theorem stock_tras_movimientos (ms : list Movimiento) (self : Producto) :
  Forall (λ m, 0 ≤ cantidad_de m) ms → 0 ≤ _stock self →
  let p := foldl mover self ms in
  0 ≤ _stock p
  ∧ _ventas_totales self ≤ _ventas_totales p
  ∧ _stock p + _ventas_totales p = _stock self + _ventas_totales self + repuesto ms
  ∧ _id p = _id self
  ∧ _precio_original p = _precio_original self
  ∧ _precio_actual p = _precio_actual self.
Proof.
  intros Hms. revert self. induction Hms as [|m ms Hm _ IH]; intros self Hs.
  - simpl. repeat split; try done; lia.
  - destruct (mover_stock self m Hm Hs) as (H1 & H2 & H3 & H4 & H5 & H6).
    destruct (IH (mover self m) H1) as (I1 & I2 & I3 & I4 & I5 & I6).
    cbn [foldl]. cbv zeta in *. rewrite (repuesto_cons m ms).
    repeat split; try congruence; lia.
Qed.

(** ** Identifiers *)

Lemma concat_ceros k :
  String.concat "" (replicate (S k) "0"%string)
  = "0" +:+ String.concat "" (replicate k "0"%string).
Proof. destruct k; reflexivity. Qed.

Lemma uint_of_string_ceros k s :
  NilEmpty.uint_of_string (String.concat "" (replicate k "0"%string) +:+ s)
  = Nat.iter k Decimal.D0 <$> NilEmpty.uint_of_string s.
Proof.
  induction k as [|k IH].
  - cbn [replicate String.concat]. unfold String.app.
    by destruct (NilEmpty.uint_of_string s).
  - rewrite concat_ceros. unfold String.app. simpl. fold String.app. rewrite IH.
    by destruct (NilEmpty.uint_of_string s).
Qed.

Lemma of_uint_ceros k d : N.of_uint (Nat.iter k Decimal.D0 d) = N.of_uint d.
Proof. induction k as [|k IH]; [done|]. simpl. exact IH. Qed.

Lemma uint_of_string_of_uint d :
  N.of_uint <$> NilEmpty.uint_of_string (NilZero.string_of_uint d)
  = Some (N.of_uint d).
Proof.
  destruct d; try (unfold NilZero.string_of_uint; by rewrite NilEmpty.usu).
  reflexivity.
Qed.

(** The digits that [:04d] writes read back as the absolute value. *)
Lemma formato_04d_valor k n :
  N.of_uint <$> NilEmpty.uint_of_string
                  (String.concat "" (replicate k "0"%string) +:+ decimal n)
  = Some (Z.to_N n).
Proof.
  unfold decimal. rewrite uint_of_string_ceros.
  pose proof (uint_of_string_of_uint (N.to_uint (Z.to_N n))) as H.
  destruct (NilEmpty.uint_of_string (NilZero.string_of_uint (N.to_uint (Z.to_N n))))
    as [d|]; [|discriminate].
  simpl in *. injection H as H. f_equal.
  by rewrite of_uint_ceros, H, DecimalN.Unsigned.of_to.
Qed.

Lemma formato_04d_no_negativo n :
  0 ≤ n →
  N.of_uint <$> NilEmpty.uint_of_string (formato_04d n) = Some (Z.to_N n).
Proof.
  intros Hn. unfold formato_04d. cbv zeta.
  destruct (n <? 0) eqn:Hs; [apply Z.ltb_lt in Hs; lia|].
  change ("" +:+ ?s)%string with s.
  rewrite formato_04d_valor. f_equal. lia.
Qed.

Lemma formato_04d_negativo n :
  n < 0 →
  ∃ s, formato_04d n = ("-" +:+ s)%string
       ∧ N.of_uint <$> NilEmpty.uint_of_string s = Some (Z.to_N (- n)).
Proof.
  intros Hn. unfold formato_04d. cbv zeta.
  destruct (n <? 0) eqn:Hs; [|apply Z.ltb_ge in Hs; lia].
  eexists. split; [reflexivity|]. rewrite formato_04d_valor. f_equal. lia.
Qed.

(** [:04d] writes different numbers differently, whatever their signs. *)
Lemma formato_04d_inj a b : formato_04d a = formato_04d b → a = b.
Proof.
  intros H.
  destruct (Z.lt_ge_cases a 0) as [Ha|Ha]; destruct (Z.lt_ge_cases b 0) as [Hb|Hb].
  - destruct (formato_04d_negativo a Ha) as (sa & Ea & Va).
    destruct (formato_04d_negativo b Hb) as (sb & Eb & Vb).
    rewrite Ea, Eb in H. injection H as H. change (sa = sb) in H.
    rewrite H, Vb in Va.
    injection Va as Va. lia.
  - destruct (formato_04d_negativo a Ha) as (sa & Ea & _).
    pose proof (formato_04d_no_negativo b Hb) as Vb.
    rewrite <- H, Ea in Vb. unfold String.app in Vb. simpl in Vb.
    by destruct (NilEmpty.uint_of_string sa).
  - destruct (formato_04d_negativo b Hb) as (sb & Eb & _).
    pose proof (formato_04d_no_negativo a Ha) as Va.
    rewrite H, Eb in Va. unfold String.app in Va. simpl in Va.
    by destruct (NilEmpty.uint_of_string sb).
  - pose proof (formato_04d_no_negativo a Ha) as Va.
    rewrite H, (formato_04d_no_negativo b Hb) in Va. injection Va as Va. lia.
Qed.

Lemma _generar_id_inj a b : _generar_id a = _generar_id b → a = b.
Proof.
  intros H. unfold _generar_id in H. injection H as H.
  apply formato_04d_inj in H; lia.
Qed.

Lemma alta_id contador a :
  _id (alta contador a).1 = _generar_id contador ∧ (alta contador a).2 = contador + 1.
Proof. by destruct a. Qed.

Lemma altas_id l : ∀ contador i p,
  (altas contador l).1 !! i = Some p → _id p = _generar_id (contador + Z.of_nat i).
Proof.
  induction l as [|a l IH]; intros contador i p; [done|].
  destruct (alta_id contador a) as [Hid Hc]. cbn [altas]. cbv zeta. cbn [fst].
  destruct i as [|i]; simpl.
  - intros [= <-]. by rewrite Z.add_0_r.
  - intros Hp. rewrite (IH _ _ _ Hp), Hc. f_equal. lia.
Qed.

Lemma altas_contador l : ∀ contador,
  (altas contador l).2 = contador + Z.of_nat (length l).
Proof.
  induction l as [|a l IH]; intros contador; simpl; [lia|].
  rewrite IH, (proj2 (alta_id contador a)). lia.
Qed.

(** X9.  The identifiers are unique.  Products constructed one after the
    other, by the constructor of [Producto] or of a subclass, get the
    identifiers of the successive values of the class counter, which
    differ whatever the counter was at the start (beyond [PROD-9999] the
    number takes more digits, and a negative number is written with its
    sign); so [==] holds between two of them only if they are the same
    object.  An object
    that is not a product is never equal to one.  The counter advances by
    one for each construction. *)
Theorem ids_unicos (contador : Z) (l : list Alta) (i j : nat) (p q : Producto) :
  (altas contador l).1 !! i = Some p → (altas contador l).1 !! j = Some q →
  _id p = _generar_id (contador + Z.of_nat i)
  ∧ (__eq__ p (UnProducto q) = true ↔ i = j)
  ∧ __eq__ p OtroObjeto = false
  ∧ (altas contador l).2 = contador + Z.of_nat (length l).
Proof.
  intros Hp Hq. pose proof (altas_id _ _ _ _ Hp) as Hi.
  pose proof (altas_id _ _ _ _ Hq) as Hj.
  split; [done|]. split; [|split; [done|apply altas_contador]].
  unfold __eq__. rewrite bool_decide_eq_true, Hi, Hj. split.
  - intros H. apply _generar_id_inj in H; lia.
  - by intros ->.
Qed.

(** ** Discounts *)

Lemma aplicar_descuento_en_rango self porcentaje :
  en_rango porcentaje = true →
  aplicar_descuento self porcentaje
  = let nuevo := (_precio_original self
                  - _precio_original self * (porcentaje / 100))%float in
    (nuevo,
     mkProducto (_id self) (Tienda._nombre self) (_precio_original self) nuevo
                (_categoria self) (_stock self) (_descripcion self)
                (_ventas_totales self)).
Proof. unfold en_rango, aplicar_descuento. by intros ->. Qed.

Lemma aplicar_descuento_fuera self porcentaje :
  en_rango porcentaje = false →
  aplicar_descuento self porcentaje = (_precio_actual self, self).
Proof. unfold en_rango, aplicar_descuento. by intros ->. Qed.

(** X10.  Discounts do not add up.  Each discount is taken from the
    original price, which no discount changes: a second discount replaces
    the first, a percentage out of range after a discount keeps the
    discounted price, and [restaurar_precio_original] gives back the price
    the product was constructed with, whatever discounts came before. *)
Theorem descuentos_no_acumulan (self : Producto) (p q : float) :
  let self1 := (aplicar_descuento self p).2 in
  _precio_original self1 = _precio_original self
  ∧ (aplicar_descuento self p).1 = _precio_actual self1
  ∧ (en_rango q = true →
       (aplicar_descuento self1 q).1 = (aplicar_descuento self q).1
       ∧ (aplicar_descuento self1 q).2 = (aplicar_descuento self q).2)
  ∧ (en_rango q = false → aplicar_descuento self1 q = (_precio_actual self1, self1))
  ∧ restaurar_precio_original self1 = restaurar_precio_original self
  ∧ _precio_actual (restaurar_precio_original self1) = _precio_original self
  ∧ restaurar_precio_original (restaurar_precio_original self1)
    = restaurar_precio_original self1.
Proof.
  intros self1. unfold self1.
  destruct (en_rango p) eqn:Hp.
  - rewrite (aplicar_descuento_en_rango _ _ Hp). cbv zeta. cbn [fst snd].
    split; [done|]. split; [done|]. split; [|split; [|done]].
    + intros Hq. by rewrite !(aplicar_descuento_en_rango _ _ Hq).
    + apply aplicar_descuento_fuera.
  - rewrite (aplicar_descuento_fuera _ _ Hp). cbn [fst snd].
    split; [done|]. split; [done|]. split; [done|]. split; [|done].
    apply aplicar_descuento_fuera.
Qed.

(** X11.  A discount never raises a price nor makes it negative: for a
    product whose original price is finite and not negative, a percentage
    within [0, 100] gives a new price between zero and the original price,
    in binary64 arithmetic with its roundings; the call returns that price
    and the product holds it. *)
Theorem descuento_acotado (self : Producto) (porcentaje : float) :
  (0 <=? _precio_original self)%float = true →
  (_precio_original self <? infinity)%float = true →
  en_rango porcentaje = true →
  let r := aplicar_descuento self porcentaje in
  (0 <=? r.1)%float = true
  ∧ (r.1 <=? _precio_original self)%float = true
  ∧ _precio_actual r.2 = r.1.
Proof.
  intros H0 Hfin Hr. rewrite (aplicar_descuento_en_rango _ _ Hr). cbv zeta.
  cbn [fst snd _precio_actual].
  unfold en_rango in Hr. apply andb_true_iff in Hr as [Hp0 Hp100].
  destruct (float_descuento _ _ H0 Hfin Hp0 Hp100) as [H1 H2]. done.
Qed.

(** ** Comparing products *)

(** X12.  [<] compares two products by their current prices and is a
    strict order on products: no product is below itself, two products are
    never each below the other, and below is transitive; so products can be
    sorted by price.  A product whose price is a NaN is neither below nor
    above any product, and for an object that is not a product [<] answers
    [NotImplemented]. *)
Theorem lt_orden_estricto (p q r : Producto) :
  __lt__ p (UnProducto q) = Some (_precio_actual p <? _precio_actual q)%float
  ∧ __lt__ p (UnProducto p) = Some false
  ∧ (__lt__ p (UnProducto q) = Some true → __lt__ q (UnProducto p) = Some false)
  ∧ (__lt__ p (UnProducto q) = Some true → __lt__ q (UnProducto r) = Some true →
       __lt__ p (UnProducto r) = Some true)
  ∧ (_precio_actual p = nan →
       __lt__ p (UnProducto q) = Some false ∧ __lt__ q (UnProducto p) = Some false)
  ∧ __lt__ p OtroObjeto = None.
Proof.
  unfold __lt__. split; [done|]. split; [by rewrite float_ltb_irrefl|].
  split; [|split; [|split; [|done]]].
  - intros [= H]. by rewrite (float_ltb_asym _ _ H).
  - intros [= H1] [= H2]. by rewrite (float_ltb_trans _ _ _ H1 H2).
  - intros ->. destruct (float_ltb_nan (_precio_actual q)) as [-> ->]. done.
Qed.

(* ===================================================================== *)
(** * The theorems at work on the small library *)
(* ===================================================================== *)

Import Demo.

Lemma mundo_demo_Ok :
  ejecutar_todas llamadas_demo (mundo_vacio reloj_demo)
  = Ok (valores_demo, mundo_demo).
Proof. vm_compute. reflexivity. Qed.

Lemma mundo_demo_inv : inv_usuarios mundo_demo.
Proof.
  eapply (ejecutar_todas_ind inv_usuarios ejecutar_inv_usuarios);
    [apply (inv_usuarios_vacio reloj_demo)|apply mundo_demo_Ok].
Qed.

(** On day 40 the digital book, on loan since day 20, is 13 days late; the
    physical book is not on loan. *)
Lemma C1_devolver_witness :
  (∃ w', devolver 2%positive mundo_demo = Ok ((13, Some 2%positive), w'))
  ∧ devolver 1%positive mundo_demo = Ok ((0, None), mundo_demo).
Proof.
  split.
  - destruct (C1_devolver mundo_demo 2%positive libro_digital_demo) as [H _];
      [vm_compute; reflexivity|].
    destruct (H 1728000000000 20) as (w' & Hd & _);
      [reflexivity|reflexivity|vm_compute; reflexivity|].
    exists w'. exact Hd.
  - apply (C1_devolver mundo_demo 1%positive libro_fisico_demo);
      [vm_compute; reflexivity|reflexivity].
Defined.


(** The fourth loan of a student, after three successful ones: refused,
    and the student still holds the three books. *)
Lemma C3_prestar_libro_witness :
  prestar_libro 1%positive 4%positive mundo_tres = Ok (false, mundo_tres)
  ∧ listas mundo_tres !! 1%positive = Some [1%positive; 2%positive; 3%positive].
Proof.
  apply (proj2 (proj2 (proj2 (C3_prestar_libro mundo_libros 1%positive 4%positive)))
           estudiante_demo 1%positive 2%positive 3%positive
           mundo_uno mundo_dos mundo_tres);
    vm_compute; reflexivity.
Defined.

(** The physical book can be lent: the student (user 1) becomes its
    holder, on day 40, and a loan to the professor right after is refused
    and leaves the student as holder.  The digital book is on loan. *)
Lemma C4_prestar_witness :
  (∃ w1 l1, prestar 1%positive 1%positive mundo_demo = Ok (true, w1)
            ∧ libros w1 !! 1%positive = Some l1
            ∧ _disponible l1 = false
            ∧ _fecha_prestamo l1 = Some 3456000000000
            ∧ _usuario_actual l1 = Some 1%positive)
  ∧ (∃ w1 w2 l2, prestar 1%positive 1%positive mundo_demo = Ok (true, w1)
                 ∧ prestar 1%positive 2%positive w1 = Ok (false, w2)
                 ∧ libros w2 !! 1%positive = Some l2
                 ∧ _fecha_prestamo l2 = Some 3456000000000
                 ∧ _usuario_actual l2 = Some 1%positive)
  ∧ prestar 2%positive 1%positive mundo_demo = Ok (false, mundo_demo).
Proof.
  split; [|split].
  - destruct (C4_prestar mundo_demo 1%positive 1%positive libro_fisico_demo)
      as (_ & H & _); [vm_compute; reflexivity|].
    destruct (H ltac:(reflexivity)) as (w1 & l1 & H1 & H2 & H3 & H4 & H5 & _).
    exists w1, l1. split; [exact H1|]. split; [exact H2|]. split; [exact H3|].
    split; [exact H4|exact H5].
  - destruct (C4_prestar mundo_demo 1%positive 1%positive libro_fisico_demo)
      as (_ & _ & _ & _ & H); [vm_compute; reflexivity|].
    destruct (H ltac:(reflexivity) 2%positive)
      as (w1 & w2 & l2 & H1 & H2 & H3 & _ & H4 & H5).
    exists w1, w2, l2. split; [exact H1|]. split; [exact H2|]. split; [exact H3|].
    split; [exact H4|exact H5].
  - apply (C4_prestar mundo_demo 2%positive 1%positive libro_digital_demo);
      [vm_compute; reflexivity|reflexivity].
Defined.

(** The student, with no book and no fine, may borrow. *)
Lemma C5_puede_prestar_witness :
  puede_prestar 1%positive mundo_demo = Ok (true, mundo_demo).
Proof.
  destruct (C5_puede_prestar mundo_demo 1%positive estudiante_demo [])
    as (b & Hp & Hb & _); [vm_compute; reflexivity|vm_compute; reflexivity|].
  rewrite Hp. f_equal. f_equal. apply Hb. split; [reflexivity|left; reflexivity].
Defined.

(** The professor owes 13.00.  Paying 20.00 leaves nothing, and nothing is
    given back; paying 5.00 leaves 8.00; paying 0.00 or -5.00 is not a
    payment, and leaves the 13.00. *)
Lemma C6_pagar_multa_witness :
  (∃ w' u', pagar_multa 2%positive 20 mundo_multa = Ok (0%float, w')
            ∧ usuarios w' !! 2%positive = Some u'
            ∧ _multa_acumulada u' = 0%float)
  ∧ (∃ w' u', pagar_multa 2%positive 5 mundo_multa = Ok (8%float, w')
              ∧ usuarios w' !! 2%positive = Some u'
              ∧ _multa_acumulada u' = 8%float)
  ∧ pagar_multa 2%positive 0 mundo_multa = Ok (13%float, mundo_multa)
  ∧ pagar_multa 2%positive (-5) mundo_multa = Ok (13%float, mundo_multa).
Proof.
  split; [|split; [|split]].
  - destruct (C6_pagar_multa mundo_multa 2%positive profesor_multado) as (_ & _ & H);
      [vm_compute; reflexivity|].
    destruct (H 20%float) as (w' & u' & Hp & Hu' & _ & _ & _ & H0 & _);
      [reflexivity|].
    exists w', u'. rewrite (H0 ltac:(reflexivity)) in Hp.
    split; [exact Hp|]. split; [exact Hu'|]. apply H0. reflexivity.
  - destruct (C6_pagar_multa mundo_multa 2%positive profesor_multado) as (_ & _ & H);
      [vm_compute; reflexivity|].
    destruct (H 5%float) as (w' & u' & Hp & Hu' & _ & H8 & _);
      [reflexivity|].
    exists w', u'. rewrite (H8 ltac:(reflexivity)) in Hp.
    split; [exact Hp|]. split; [exact Hu'|]. apply H8. reflexivity.
  - destruct (C6_pagar_multa mundo_multa 2%positive profesor_multado) as (H & _);
      [vm_compute; reflexivity|].
    apply (H 0%float). reflexivity.
  - destruct (C6_pagar_multa mundo_multa 2%positive profesor_multado) as (H & _);
      [vm_compute; reflexivity|].
    apply (H (-5)%float). reflexivity.
Defined.

(** The copy matters: client code that could fill the list the student
    owns (list 1) would stop the student from borrowing. *)
Example lista_propia_mutada :
  puede_prestar 1%positive mundo_demo = Ok (true, mundo_demo)
  ∧ puede_prestar 1%positive
      (mutar_lista 1%positive [1%positive; 2%positive; 3%positive] mundo_demo)
    = Ok (false,
          mutar_lista 1%positive [1%positive; 2%positive; 3%positive] mundo_demo).
Proof. split; vm_compute; reflexivity. Qed.

(** Whatever is put in the list that the professor's [libros_prestados]
    returned, the professor still holds the digital book. *)
Lemma C10_libros_prestados_witness :
  ∃ r, listas mundo_demo !! r = None
    ∧ ∀ contenido,
        listas (mutar_lista r contenido (con_listas <[r := [2%positive]]> mundo_demo))
          !! 2%positive = Some [2%positive].
Proof.
  destruct (C10_libros_prestados mundo_demo 2%positive profesor_demo [2%positive])
    as (r & _ & Hr & _ & H);
    [exact mundo_demo_inv|vm_compute; reflexivity|vm_compute; reflexivity|].
  exists r. split; [exact Hr|]. intros contenido.
  exact (proj1 (proj2 (H contenido))).
Defined.

(** Every book of the small library has its timestamp and its holder
    together, before and after the late return. *)
Lemma C7_inv_libros_witness : inv_libros mundo_demo ∧ inv_libros mundo_multa.
Proof.
  destruct C7_inv_libros as (_ & _ & Hpaso & _ & Hvacio).
  assert (inv_libros mundo_demo) as H0
    by exact (Hvacio reloj_demo llamadas_demo valores_demo mundo_demo mundo_demo_Ok).
  split; [exact H0|].
  apply (Hpaso (DevolverLibro 2%positive 2%positive) (VFloat 13) mundo_demo);
    [exact H0|vm_compute; reflexivity].
Defined.

(** After the late return the professor holds nothing and owes a fine that
    is not negative; the fine grew in a late return. *)
Lemma C8_inv_usuarios_witness :
  inv_usuarios mundo_multa
  ∧ ∃ libro d quien w1,
      DevolverLibro 2%positive 2%positive = DevolverLibro 2%positive libro
      ∧ devolver libro mundo_demo = Ok ((d, quien), w1) ∧ 0 < d.
Proof.
  destruct C8_inv_usuarios as (_ & Hvacio & Hpaso & Hrun & _ & Hmulta). split.
  - apply (Hpaso (DevolverLibro 2%positive 2%positive) (VFloat 13) mundo_demo);
      [|vm_compute; reflexivity].
    apply (Hrun llamadas_demo valores_demo (mundo_vacio reloj_demo));
      [apply Hvacio|apply mundo_demo_Ok].
  - destruct (Hmulta (DevolverLibro 2%positive 2%positive) (VFloat 13)
                mundo_demo mundo_multa 2%positive profesor_demo profesor_multado)
      as [Hsube _];
      [exact mundo_demo_inv|vm_compute; reflexivity|vm_compute; reflexivity
      |vm_compute; reflexivity|].
    destruct (Hsube ltac:(reflexivity)) as (libro & d & quien & w1 & Hc & Hd & Hpos & _).
    exists libro, d, quien, w1. done.
Defined.

(** A discount of 150 % is refused; one of 10 % on 1200.00 gives 1080.00;
    a product built with the price -5 has the price -5. *)
Lemma C9_precios_witness :
  let p := (Producto_init 0 "Smartphone" 1200 ELECTRONICA 10 "").1 in
  aplicar_descuento p 150 = (1200%float, p)
  ∧ (aplicar_descuento p 10).1 = 1080%float
  ∧ _precio_actual (Producto_init 1 "Camiseta" (-5) ROPA 50 "").1 = (-5)%float.
Proof.
  intros p. split; [|split].
  - exact (proj1 (C9_precios p 150) eq_refl).
  - exact (proj1 (proj1 (proj2 (C9_precios p 10)) eq_refl)).
  - exact (proj2 (proj1 (proj2 (proj2 (proj2 (C9_precios p 0))))
                    1 "Camiseta"%string (-5)%float ROPA 50 ""%string)).
Defined.

(** The professor returns the digital book late: the entry of the loan is
    still the first of the history, with its ISBN and its loan timestamp,
    and is now closed. *)
Lemma historial_solo_continua_witness :
  ∃ u' p', usuarios mundo_multa !! 2%positive = Some u'
    ∧ _historial_prestamos u' !! 0%nat = Some p'
    ∧ libro_isbn p' = "978-84-376-0457-2"%string
    ∧ fecha_prestamo p' = 2592000000000.
Proof.
  destruct (historial_solo_continua [DevolverLibro 2%positive 2%positive]
              [VFloat 13] mundo_demo mundo_multa 2%positive profesor_demo)
    as (u' & Hu' & _ & Hp); [vm_compute; reflexivity|vm_compute; reflexivity|].
  destruct (Hp 0%nat
              (mkPrestamo "Rayuela" "978-84-376-0457-2" 2592000000000
                          "Libro Digital" false None None) eq_refl)
    as (p' & Hp' & _ & Hi & Hf & _).
  exists u', p'. split; [exact Hu'|]. split; [exact Hp'|]. split; [exact Hi|exact Hf].
Defined.

(** The student had no loan; after borrowing the physical book
    [total_prestamos_historicos] is 1. *)
Lemma total_prestamos_historicos_cuenta_witness :
  total_prestamos_historicos 1%positive mundo_prestado = Ok (1, mundo_prestado).
Proof.
  apply (total_prestamos_historicos_cuenta [PrestarLibro 1%positive 1%positive]
           [VBool true] mundo_demo mundo_prestado 1%positive 0);
    vm_compute; reflexivity.
Defined.

(** In the small library the professor can return the digital book, and
    the call raises nothing. *)
Lemma llamada_sin_excepcion_witness :
  ∃ v w', ejecutar (DevolverLibro 2%positive 2%positive) mundo_demo = Ok (v, w').
Proof.
  apply (proj1 (llamada_sin_excepcion reloj_demo llamadas_demo valores_demo
                  mundo_demo (DevolverLibro 2%positive 2%positive) mundo_demo_Ok)).
  exists profesor_demo. vm_compute. reflexivity.
Defined.

Lemma llamadas_demo_por_usuario : forallb por_usuario llamadas_demo = true.
Proof. reflexivity. Qed.

(** The professor holds the digital book and no other: book 2 is the one
    on loan to user 2. *)
Lemma prestamos_coherentes_witness :
  NoDup [2%positive]
  ∧ ∀ b, b ∈ [2%positive] ↔
         ∃ lib, libros mundo_demo !! b = Some lib ∧ _disponible lib = false
                ∧ _usuario_actual lib = Some 2%positive.
Proof.
  apply (proj1 (prestamos_coherentes reloj_demo llamadas_demo valores_demo
                  mundo_demo llamadas_demo_por_usuario mundo_demo_Ok)
           2%positive profesor_demo [2%positive]);
    vm_compute; reflexivity.
Defined.

(** The student borrows the physical book and returns it: books and held
    lists are what they were in the small library. *)
Lemma prestar_y_devolver_witness :
  ∃ w1 w2 x,
    prestar_libro 1%positive 1%positive mundo_demo = Ok (true, w1)
    ∧ devolver_libro 1%positive 1%positive w1 = Ok (x, w2)
    ∧ libros w2 = libros mundo_demo ∧ listas w2 = listas mundo_demo.
Proof.
  destruct (prestar_y_devolver reloj_demo llamadas_demo valores_demo mundo_demo
              1%positive 1%positive estudiante_demo [] libro_fisico_demo
              llamadas_demo_por_usuario mundo_demo_Ok)
    as (w1 & w2 & u2 & H1 & H2 & H3 & H4 & _);
    [vm_compute; reflexivity|vm_compute; reflexivity|vm_compute; reflexivity
    |reflexivity|reflexivity|].
  eexists w1, w2, _. split; [exact H1|]. split; [exact H2|]. split; [exact H3|exact H4].
Defined.

(** The professor holds one book and has one open entry, for its ISBN. *)
Lemma historial_al_dia_witness :
  length (List.filter (λ p, negb (devuelto p)) (_historial_prestamos profesor_demo))
  = length [2%positive]
  ∧ ∃ j, ultimo_abierto "978-84-376-0457-2" (_historial_prestamos profesor_demo) j.
Proof.
  destruct (historial_al_dia reloj_demo llamadas_demo valores_demo mundo_demo
              2%positive profesor_demo [2%positive]
              llamadas_demo_por_usuario mundo_demo_Ok)
    as (H1 & _ & H3); [vm_compute; reflexivity|vm_compute; reflexivity|].
  split; [exact H1|].
  apply (H3 2%positive libro_digital_demo);
    [apply list_elem_of_singleton; reflexivity|vm_compute; reflexivity].
Defined.

(** After the late return the digital book is still the same book, and
    the professor the same professor. *)
Lemma identidad_invariable_witness :
  (∃ lib', libros mundo_multa !! 2%positive = Some lib'
           ∧ _isbn lib' = "978-84-376-0457-2"%string)
  ∧ ∃ u', usuarios mundo_multa !! 2%positive = Some u'
          ∧ limite_prestamos u' = 10.
Proof.
  destruct (identidad_invariable [DevolverLibro 2%positive 2%positive]
              [VFloat 13] mundo_demo mundo_multa) as [Hl Hu];
    [vm_compute; reflexivity|]. split.
  - destruct (Hl 2%positive libro_digital_demo) as (lib' & Hb & _ & _ & _ & Hi & _);
      [vm_compute; reflexivity|]. exists lib'. split; [exact Hb|exact Hi].
  - destruct (Hu 2%positive profesor_demo)
      as (u' & Hr & _ & _ & _ & _ & _ & _ & Hlim & _); [vm_compute; reflexivity|].
    exists u'. split; [exact Hr|exact Hlim].
Defined.

(** The student holds the physical book, on loan since day 40.  On day 60
    the book's own [devolver] is called: six days late; the held list still
    has the book, and [devolver_libro] then takes it off and charges
    nothing. *)
Lemma prestamo_a_espaldas_witness :
  ∃ w1 w2,
    devolver 1%positive mundo_prestado = Ok ((6, Some 1%positive), w1)
    ∧ listas w1 !! 1%positive = Some [1%positive]
    ∧ devolver_libro 1%positive 1%positive w1 = Ok (0%float, w2)
    ∧ listas w2 !! 1%positive = Some [].
Proof.
  destruct (prestamo_a_espaldas mundo_prestado 1%positive 1%positive
              estudiante_prestado [1%positive] libro_fisico_prestado)
    as [H _]; [vm_compute; reflexivity|vm_compute; reflexivity
              |vm_compute; reflexivity|].
  destruct (H ltac:(apply list_elem_of_singleton; reflexivity) 3456000000000
              eq_refl eq_refl)
    as (w1 & w2 & l' & u2 & H1 & _ & Hls & H2 & Hr & Hl2 & _).
  exists w1, w2. split; [exact H1|]. split; [|split; [exact H2|]].
  - rewrite Hls. vm_compute. reflexivity.
  - injection Hr as <-. exact Hl2.
Defined.

Lemma reloj_demo_monotono : monotono reloj_demo.
Proof. intros i j H. unfold reloj_demo. lia. Qed.

(** The entry of the professor's late return: stamped on day 30, closed
    on day 50 with 13 days of delay. *)
Lemma prestamos_en_hora_witness :
  ∃ t d, fecha_devolucion entrada_multada = Some t
         ∧ dias_retraso entrada_multada = Some d
         ∧ fecha_prestamo entrada_multada ≤ t ∧ 0 ≤ d.
Proof.
  exact (proj1 (prestamos_en_hora reloj_demo
                  (llamadas_demo ++ [DevolverLibro 2%positive 2%positive])
                  (valores_demo ++ [VFloat 13]) mundo_multa
                  reloj_demo_monotono
                  ltac:(vm_compute; reflexivity))
           2%positive profesor_multado entrada_multada
           ltac:(vm_compute; reflexivity)
           ltac:(apply list_elem_of_singleton; reflexivity)).
Defined.

Import DemoTienda.

(** The stock of the smartphone, ten units, through the movements: it ends
    at zero, with fifteen units sold of the fifteen that there were. *)
Lemma stock_tras_movimientos_witness :
  0 ≤ _stock (foldl mover prod1 movimientos_demo)
  ∧ _stock (foldl mover prod1 movimientos_demo)
    + _ventas_totales (foldl mover prod1 movimientos_demo) = 15.
Proof.
  destruct (stock_tras_movimientos movimientos_demo prod1)
    as (H1 & _ & H3 & _); [|simpl; lia|].
  - repeat constructor; simpl; lia.
  - split; [exact H1|exact H3].
Defined.

(** The two products of the script: [PROD-0001] and [PROD-0002], which are
    not equal. *)
Lemma ids_unicos_witness :
  _id prod1 = "PROD-0001"%string ∧ ¬ (__eq__ prod1 (UnProducto prod2) = true).
Proof.
  destruct (ids_unicos 0 altas_demo 0 1 prod1 prod2)
    as (H1 & H2 & _); [reflexivity|reflexivity|].
  split; [exact H1|]. intros H. apply H2 in H. discriminate.
Defined.

(** The discount of the script: 10 % on 1200.00. *)
Lemma descuento_acotado_witness :
  (0 <=? (aplicar_descuento prod1 10).1)%float = true
  ∧ ((aplicar_descuento prod1 10).1 <=? 1200)%float = true.
Proof.
  destruct (descuento_acotado prod1 10) as (H1 & H2 & _);
    [reflexivity|reflexivity|reflexivity|].
  split; [exact H1|exact H2].
Defined.
